(** * LSTMClassifier (src/model.py): a shallow embedding

    The module under verification declares one [nn.Module], [LSTMClassifier],
    with a constructor [__init__], an initialisation pass [_init_weights] and
    a [forward] method.  Everything numeric is delegated to the tensor library
    (torch): [nn.Embedding], [nn.LSTM], [nn.Linear], [nn.Dropout],
    [nn.init.xavier_uniform_], [nn.init.zeros_], [torch.cat].

    The three methods of [model.py] are translated line by line.  The library
    primitives they call are modelled after the behaviour of torch 2.x on CPU
    (argument checks, parameter shapes and names, default initialisation,
    forward semantics); each such definition says so in its comment.

    Conventions.
    - Python [int] is [Z]; a Python [float] given in a configuration is [Q];
      tensor entries are real numbers [R] (rounding of floating point is
      abstracted away: no statement below depends on it).
    - A raised Python exception is the [Raise] constructor of [result].
    - The global random number generator is an explicit state, threaded
      through every sampling operation. *)

From Stdlib Require Import String Ascii DecimalString.
From Stdlib Require Import List ZArith QArith Qreals Reals Lra Lia Bool Arith.
Import ListNotations.

Set Implicit Arguments.

(* ------------------------------------------------------------------ *)
(** ** Exceptions and the state-and-error monad *)

Inductive exn : Type :=
| AssertionError      (* a failed [assert] *)
| ValueError
| RuntimeError
| IndexError
| ZeroDivisionError.

Inductive result (A : Type) : Type :=
| Ok (a : A)
| Raise (e : exn).

Arguments Ok {A} a.
Arguments Raise {A} e.

Definition fails {A} (r : result A) : Prop :=
  exists e, r = Raise e.

(** The random number generator of the tensor library, as an interface:
    [rand] draws from the uniform distribution on [0,1), [randn] from the
    standard normal distribution; both return the advanced generator. *)
Class Generator : Type := {
  rng : Type;
  rand : rng -> R * rng;
  randn : rng -> R * rng
}.

Section Monad.

Context {G : Generator}.

Definition M (A : Type) : Type := rng -> result (A * rng).

Definition ret {A} (a : A) : M A := fun g => Ok (a, g).

Definition raise {A} (e : exn) : M A := fun _ => Raise e.

Definition bind {A B} (c : M A) (k : A -> M B) : M B :=
  fun g => match c g with
           | Ok (a, g') => k a g'
           | Raise e => Raise e
           end.

Definition lift {A} (r : result A) : M A :=
  fun g => match r with Ok a => Ok (a, g) | Raise e => Raise e end.

End Monad.

Notation "x <- c ;; k" := (bind c (fun x => k))
  (at level 61, c at next level, right associativity).

Section Init.

Context {G : Generator}.

Fixpoint mapM {A B} (f : A -> M B) (l : list A) : M (list B) :=
  match l with
  | [] => ret []
  | a :: l' => b <- f a ;; bs <- mapM f l' ;; ret (b :: bs)
  end.

(** [n] successive draws. *)
Fixpoint sample (draw : rng -> R * rng) (n : nat) (g : rng) : list R * rng :=
  match n with
  | O => ([], g)
  | S n' => let (u, g1) := draw g in
            let (us, g2) := sample draw n' g1 in
            (u :: us, g2)
  end.

(* ------------------------------------------------------------------ *)
(** ** Tensors (parameters): a shape and row-major data *)

Record Tensor : Type := mkTensor {
  shape : list nat;
  data : list R
}.

Definition numel (s : list nat) : nat := fold_right Nat.mul 1%nat s.

Definition dim (t : Tensor) : nat := length (shape t).

(** [tensor.size(i)] for an in-range axis. *)
Definition size (t : Tensor) (i : nat) : nat := nth i (shape t) 0%nat.

(** [torch.empty(dims)]: a negative dimension raises [RuntimeError].  The
    uninitialised memory is modelled as zeros; every constructor below fills
    the tensor before anything reads it. *)
Definition torch_empty (dims : list Z) : result Tensor :=
  if existsb (fun d => d <? 0)%Z dims then Raise RuntimeError
  else let s := map Z.to_nat dims in
       Ok (mkTensor s (repeat 0%R (numel s))).

(** [tensor.uniform_(lo, hi)]: every entry is redrawn. *)
Definition uniform_ (t : Tensor) (lo hi : R) : M Tensor :=
  fun g => let (us, g') := sample rand (numel (shape t)) g in
           Ok (mkTensor (shape t) (map (fun u => lo + u * (hi - lo))%R us), g').

(** [nn.init.normal_(tensor)] with mean 0 and std 1. *)
Definition normal_ (t : Tensor) : M Tensor :=
  fun g => let (zs, g') := sample randn (numel (shape t)) g in
           Ok (mkTensor (shape t) zs, g').

(** [nn.init.zeros_(tensor)]. *)
Definition zeros_ (t : Tensor) : Tensor :=
  mkTensor (shape t) (repeat 0%R (numel (shape t))).

(** [nn.init._calculate_fan_in_and_fan_out]. *)
Definition _calculate_fan_in_and_fan_out (t : Tensor) : result (nat * nat) :=
  if (dim t <? 2)%nat then Raise ValueError
  else
    let num_input_fmaps := size t 1 in
    let num_output_fmaps := size t 0 in
    let receptive_field_size := numel (skipn 2 (shape t)) in
    Ok ((num_input_fmaps * receptive_field_size)%nat,
        (num_output_fmaps * receptive_field_size)%nat).

(** The half-width [a] of the Xavier range, [sqrt 3 * gain * sqrt (2 / (fan_in
    + fan_out))] with [gain = 1]. *)
Definition xavier_bound (fan_in fan_out : nat) : R :=
  (sqrt 3 * (1 * sqrt (2 / INR (fan_in + fan_out))))%R.

(** [nn.init.xavier_uniform_(tensor)]: the whole tensor is refilled from
    U(-a, a).  [2.0 / float(fan_in + fan_out)] divides by zero when both fans
    are zero. *)
Definition xavier_uniform_ (t : Tensor) : M Tensor :=
  fans <- lift (_calculate_fan_in_and_fan_out t) ;;
  let '(fan_in, fan_out) := fans in
  if (fan_in + fan_out =? 0)%nat then raise ZeroDivisionError
  else
    let a := xavier_bound fan_in fan_out in
    uniform_ t (- a) a.

(** [nn.init.kaiming_uniform_(tensor, a=sqrt 5)] in mode fan_in with the
    leaky-relu gain, as [nn.Linear.reset_parameters] calls it.  A tensor with
    no element is left alone. *)
Definition kaiming_uniform_ (t : Tensor) : M Tensor :=
  if existsb (Nat.eqb 0) (shape t) then ret t
  else
    fans <- lift (_calculate_fan_in_and_fan_out t) ;;
    let fan := fst fans in
    let gain := sqrt (2 / (1 + sqrt 5 * sqrt 5))%R in
    let std := (gain / sqrt (INR fan))%R in
    let bound := (sqrt 3 * std)%R in
    uniform_ t (- bound) bound.

(** Row [i] of a 2-D tensor, and [tensor[i].fill_(0)]. *)
Definition row (t : Tensor) (i : nat) : list R :=
  firstn (size t 1) (skipn (i * size t 1) (data t)).

Definition rows (t : Tensor) : list (list R) :=
  map (row t) (seq 0 (size t 0)).

Definition fill_row_zero (t : Tensor) (i : Z) : result Tensor :=
  let n := Z.of_nat (size t 0) in
  if ((i <? - n) || (n <=? i))%Z then Raise IndexError
  else
    let k := Z.to_nat (if (i <? 0)%Z then n + i else i)%Z in
    let c := size t 1 in
    Ok (mkTensor (shape t)
          (firstn (k * c) (data t) ++ repeat 0%R c ++ skipn ((k + 1) * c) (data t))).

End Init.

(* ------------------------------------------------------------------ *)
(** ** Activations: vectors, batches of sequences, and the functional ops *)

Abbreviation vec := (list R) (only parsing).

(** Elementwise combination of two lists (tensors of equal length). *)
Fixpoint map2 {A B C} (f : A -> B -> C) (l : list A) (l' : list B) : list C :=
  match l, l' with
  | a :: t, b :: t' => f a b :: map2 f t t'
  | _, _ => []
  end.

Definition vadd : vec -> vec -> vec := map2 Rplus.
Definition vmul : vec -> vec -> vec := map2 Rmult.
Definition dot (a b : vec) : R := fold_right Rplus 0%R (map2 Rmult a b).

(** [W @ x] for a 2-D parameter [W]. *)
Definition matvec (w : Tensor) (x : vec) : vec := map (fun r => dot r x) (rows w).

(** The logistic function of the gates; [tanh] is the library's. *)
Definition sigmoid (x : R) : R := (1 / (1 + exp (- x)))%R.

(** [t[i]] along the first axis with Python's negative indices. *)
Definition py_index {A} (l : list A) (i : Z) : result A :=
  let n := Z.of_nat (length l) in
  let k := if (i <? 0)%Z then (n + i)%Z else i in
  if ((k <? 0) || (n <=? k))%Z then Raise IndexError
  else match nth_error l (Z.to_nat k) with
       | Some a => Ok a
       | None => Raise IndexError
       end.

(** [torch.cat((a, b), dim=1)] for two (batch, features) tensors. *)
Definition cat_dim1 (a b : list vec) : list vec := map2 (@app R) a b.

(** A loop over a list whose body may raise: the first exception leaves
    the loop. *)
Fixpoint mapR {A B} (f : A -> result B) (l : list A) : result (list B) :=
  match l with
  | [] => Ok []
  | a :: l' => match f a with
               | Raise e => Raise e
               | Ok b => match mapR f l' with
                         | Raise e => Raise e
                         | Ok bs => Ok (b :: bs)
                         end
               end
  end.

Section Functional.
Context {G : Generator}.

(** One entry of [input * bernoulli(1 - p) / (1 - p)]. *)
Definition drop_entry (p : R) (v : R) : M R :=
  fun g => let (u, g') := rand g in
           Ok ((if Rlt_dec u (1 - p) then v * (1 / (1 - p)) else v * 0)%R, g').

(** [F.dropout(input, p, training)] on a (batch, seq, features) tensor:
    the identity when not training or when [p = 0]; all zeros when [p = 1];
    otherwise a fresh Bernoulli mask, kept entries scaled by [1 / (1 - p)]. *)
Definition F_dropout (input : list (list vec)) (p : Q) (training : bool)
    : M (list (list vec)) :=
  if negb training || Qeq_bool p 0 then ret input
  else if Qeq_bool p 1 then ret (map (map (map (fun v => v * 0)%R)) input)
  else mapM (mapM (mapM (drop_entry (Q2R p)))) input.

End Functional.

(* ------------------------------------------------------------------ *)
(** ** Parameter names *)

(** The decimal layer number in a parameter name ([format] of an [int]). *)
Definition string_of_nat (n : nat) : string :=
  NilEmpty.string_of_uint (Nat.to_uint n).

(** Python's [sub in s] on strings. *)
Fixpoint contains (sub s : string) : bool :=
  String.prefix sub s
  || match s with
     | EmptyString => false
     | String _ s' => contains sub s'
     end.

(* ------------------------------------------------------------------ *)
(** ** [nn.Embedding] *)

Module Embedding.

Record t : Type := mk {
  num_embeddings : Z;
  embedding_dim : Z;
  padding_idx : Z;
  weight : Tensor
}.

Section Ops.
Context {G : Generator}.

(** [nn.Embedding(num_embeddings, embedding_dim, padding_idx=padding_idx)].
    A positive padding index must be below [num_embeddings]; a negative one
    must be at least [-num_embeddings] and then counts from the end.  The
    table is drawn from N(0,1) and the padding row is zeroed
    ([reset_parameters], [_fill_padding_idx_with_zero]). *)
Definition __init__ (num_embeddings embedding_dim padding_idx : Z) : M t :=
  padding_idx <-
    (if (padding_idx >? 0)%Z then
       if (padding_idx <? num_embeddings)%Z then ret padding_idx
       else raise AssertionError
     else if (padding_idx <? 0)%Z then
       if (padding_idx >=? - num_embeddings)%Z then ret (num_embeddings + padding_idx)%Z
       else raise AssertionError
     else ret padding_idx) ;;
  w <- lift (torch_empty [num_embeddings; embedding_dim]) ;;
  w <- normal_ w ;;
  w <- lift (fill_row_zero w padding_idx) ;;
  ret (mk num_embeddings embedding_dim padding_idx w).

End Ops.

(** [F.embedding]: one table row per index; an index outside the table
    raises [IndexError]. *)
Definition lookup (self : t) (i : Z) : result vec :=
  if ((i <? 0) || (Z.of_nat (size (weight self) 0) <=? i))%Z then Raise IndexError
  else Ok (row (weight self) (Z.to_nat i)).

Definition forward (self : t) (x : list (list Z)) : result (list (list vec)) :=
  mapR (mapR (lookup self)) x.

End Embedding.

(* ------------------------------------------------------------------ *)
(** ** [nn.LSTM] *)

Module LSTM.

(** The parameters of one direction of one layer, with their names:
    w_ih, w_hh, b_ih, b_hh. *)
Abbreviation group := (list (string * Tensor)) (only parsing).

Record t : Type := mk {
  input_size : Z;
  hidden_size : Z;
  num_layers : Z;
  dropout : Q;
  bidirectional : bool;
  (** [all_weights]: per layer, per direction, the four parameters. *)
  all_weights : list (list group)
}.

(** [num_directions = 2 if bidirectional else 1]. *)
Definition num_directions (bidirectional : bool) : nat :=
  if bidirectional then 2%nat else 1%nat.

(** The registration order of the parameters ([_flat_weights]). *)
Definition flat_weights (self : t) : list (string * Tensor) :=
  concat (concat (all_weights self)).

Section Ops.
Context {G : Generator}.

(** The body of the two loops of [RNNBase.__init__]: the four parameters of
    [direction] of [layer], allocated and named. *)
Definition layer_params (input_size hidden_size : Z) (bidirectional : bool)
    (layer direction : nat) : M group :=
  let gate_size := (4 * hidden_size)%Z in
  let layer_input_size :=
    if (layer =? 0)%nat then input_size
    else (hidden_size * Z.of_nat (num_directions bidirectional))%Z in
  w_ih <- lift (torch_empty [gate_size; layer_input_size]) ;;
  w_hh <- lift (torch_empty [gate_size; hidden_size]) ;;
  b_ih <- lift (torch_empty [gate_size]) ;;
  b_hh <- lift (torch_empty [gate_size]) ;;
  let suffix := if (direction =? 1)%nat then "_reverse"%string else ""%string in
  let l := string_of_nat layer in
  ret [ (("weight_ih_l" ++ l) ++ suffix, w_ih)%string;
        (("weight_hh_l" ++ l) ++ suffix, w_hh)%string;
        (("bias_ih_l" ++ l) ++ suffix, b_ih)%string;
        (("bias_hh_l" ++ l) ++ suffix, b_hh)%string ].

(** [reset_parameters]: every parameter, bias or weight, is drawn from
    U(-stdv, stdv) with [stdv = 1 / sqrt hidden_size]. *)
Definition reset_parameters (hidden_size : Z) (ws : list (list group))
    : M (list (list group)) :=
  let stdv := if (hidden_size >? 0)%Z then (1 / sqrt (IZR hidden_size))%R else 0%R in
  mapM (mapM (mapM (fun nt => w <- uniform_ (snd nt) (- stdv) stdv ;; ret (fst nt, w)))) ws.

(** [nn.LSTM(input_size, hidden_size, num_layers=.., dropout=..,
    batch_first=True, bidirectional=..)], after [RNNBase.__init__]:
    the argument checks, then
    [for layer in range(num_layers): for direction in range(num_directions)]. *)
Definition __init__ (input_size hidden_size num_layers : Z) (dropout : Q)
    (bidirectional : bool) : M t :=
  if negb (Qle_bool 0 dropout && Qle_bool dropout 1) then raise ValueError
  else if (hidden_size <=? 0)%Z then raise ValueError
  else if (num_layers <=? 0)%Z then raise ValueError
  else
    ws <- mapM (fun layer =>
                  mapM (layer_params input_size hidden_size bidirectional layer)
                       (seq 0 (num_directions bidirectional)))
               (seq 0 (Z.to_nat num_layers)) ;;
    ws <- reset_parameters hidden_size ws ;;
    ret (mk input_size hidden_size num_layers dropout bidirectional ws).

End Ops.

(** *** The forward pass *)

Definition no_tensor : Tensor := mkTensor [] [].

(** The [k]-th parameter of a group (0: w_ih, 1: w_hh, 2: b_ih, 3: b_hh). *)
Definition param (ps : group) (k : nat) : Tensor := snd (nth k ps (""%string, no_tensor)).

(** The [k]-th of the four gate blocks of a vector of length [4 * H]. *)
Definition chunk (k H : nat) (v : vec) : vec := firstn H (skipn (k * H) v).

(** One time step: the gates are laid out (input | forget | cell | output). *)
Definition lstm_cell (ps : group) (H : nat) (x : vec) (hc : vec * vec) : vec * vec :=
  let (h, c) := hc in
  let gates := vadd (vadd (matvec (param ps 0) x) (data (param ps 2)))
                    (vadd (matvec (param ps 1) h) (data (param ps 3))) in
  let i := map sigmoid (chunk 0 H gates) in
  let f := map sigmoid (chunk 1 H gates) in
  let g := map tanh (chunk 2 H gates) in
  let o := map sigmoid (chunk 3 H gates) in
  let c' := vadd (vmul f c) (vmul i g) in
  let h' := vmul o (map tanh c') in
  (h', c').

(** The recurrence over one sequence: the hidden state after every step,
    and the final (h, c). *)
Fixpoint run_cell (cell : vec -> vec * vec -> vec * vec) (xs : list vec)
    (hc : vec * vec) : list vec * (vec * vec) :=
  match xs with
  | [] => ([], hc)
  | x :: xs' =>
      let hc' := cell x hc in
      let (outs, fin) := run_cell cell xs' hc' in
      (fst hc' :: outs, fin)
  end.

(** One direction of one layer on one sequence.  Direction 1 reads the
    sequence right to left; its outputs are put back in time order. *)
Definition direction_pass (ps : group) (H : nat) (direction : nat) (xs : list vec)
    (hc0 : vec * vec) : list vec * (vec * vec) :=
  if (direction =? 0)%nat then run_cell (lstm_cell ps H) xs hc0
  else let (outs, fin) := run_cell (lstm_cell ps H) (rev xs) hc0 in (rev outs, fin).

(** One direction of one layer on the batch: the outputs per sample, the
    final hidden states (batch, H) and the final cell states (batch, H). *)
Definition direction_batch (H : nat) (input : list (list vec))
    (dps : nat * group) (hc0 : list vec * list vec)
    : list (list vec) * (list vec * list vec) :=
  let (direction, ps) := dps in
  let rs := map2 (direction_pass ps H direction) input (combine (fst hc0) (snd hc0)) in
  (map fst rs, (map (fun r => fst (snd r)) rs, map (fun r => snd (snd r)) rs)).

(** The per-step outputs of the directions, concatenated on the feature
    axis. *)
Fixpoint cat_features (outs : list (list (list vec))) : list (list vec) :=
  match outs with
  | [] => []
  | [o] => o
  | o :: rest => map2 (map2 (@app R)) o (cat_features rest)
  end.

(** One layer: its output sequence (batch, seq, directions * H) and, per
    direction, the final hidden and cell states. *)
Definition run_layer (H : nat) (layer : list group) (hc0 : list (list vec * list vec))
    (input : list (list vec)) : list (list vec) * list (list vec * list vec) :=
  let rs := map2 (direction_batch H input) (combine (seq 0 (length layer)) layer) hc0 in
  (cat_features (map fst rs), map snd rs).

Section Forward.
Context {G : Generator}.

(** The stack of layers; dropout sits on the output of every layer but the
    last.  [hc0] lists the initial states by [layer * num_directions +
    direction]; the result lists the final states in the same order. *)
Fixpoint run_stack (H : nat) (p : Q) (training : bool) (layers : list (list group))
    (hc0 : list (list vec * list vec)) (input : list (list vec))
    : M (list (list vec) * list (list vec * list vec)) :=
  match layers with
  | [] => ret (input, [])
  | layer :: rest =>
      let d := length layer in
      let (out, fin) := run_layer H layer (firstn d hc0) input in
      out <- (match rest with
              | [] => ret out
              | _ => F_dropout out p training
              end) ;;
      r <- run_stack H p training rest (skipn d hc0) out ;;
      ret (fst r, fin ++ snd r)
  end.

(** [torch.zeros(num_layers * num_directions, batch, hidden_size)]. *)
Definition zeros3 (n batch H : nat) : list (list vec) :=
  repeat (repeat (repeat 0%R H) batch) n.

(** [self.lstm(input, hx)] with [batch_first=True].  Returns
    [(output, (h_n, c_n))]; [h_n] and [c_n] have shape
    (num_layers * num_directions, batch, hidden_size).  With [hx = None] the
    initial hidden and cell states are zero tensors. *)
Definition forward (self : t) (training : bool) (input : list (list vec))
    (hx : option (list (list vec) * list (list vec)))
    : M (list (list vec) * (list (list vec) * list (list vec))) :=
  if negb (forallb (forallb (fun v => Z.of_nat (length v) =? input_size self)%Z) input)
  then raise RuntimeError
  else if existsb (fun xs => (length xs =? 0)%nat) input then raise RuntimeError
  else
    let H := Z.to_nat (hidden_size self) in
    let n := (Z.to_nat (num_layers self) * num_directions (bidirectional self))%nat in
    let hx := match hx with
              | Some hc => hc
              | None => (zeros3 n (length input) H, zeros3 n (length input) H)
              end in
    r <- run_stack H (dropout self) training (all_weights self)
           (combine (fst hx) (snd hx)) input ;;
    ret (fst r, (map fst (snd r), map snd (snd r))).

End Forward.

End LSTM.

(* ------------------------------------------------------------------ *)
(** ** [nn.Linear] and [nn.Dropout] *)

Module Linear.

Record t : Type := mk {
  in_features : Z;
  out_features : Z;
  weight : Tensor;
  bias : Tensor
}.

Section Ops.
Context {G : Generator}.

(** [nn.Linear(in_features, out_features)]: the weight has shape
    [(out_features, in_features)]; [reset_parameters] draws the weight by
    [kaiming_uniform_] and the bias from U(-1/sqrt fan_in, 1/sqrt fan_in). *)
Definition __init__ (in_features out_features : Z) : M t :=
  w <- lift (torch_empty [out_features; in_features]) ;;
  b <- lift (torch_empty [out_features]) ;;
  w <- kaiming_uniform_ w ;;
  fans <- lift (_calculate_fan_in_and_fan_out w) ;;
  let fan_in := fst fans in
  let bound := if (0 <? fan_in)%nat then (1 / sqrt (INR fan_in))%R else 0%R in
  b <- uniform_ b (- bound) bound ;;
  ret (mk in_features out_features w b).

End Ops.

(** [F.linear(input, weight, bias)] on a (batch, in_features) tensor:
    [x W^T + b], with no activation.  A feature size other than the weight's
    second dimension raises [RuntimeError]. *)
Definition affine (self : t) (x : vec) : vec :=
  vadd (matvec (weight self) x) (data (bias self)).

Definition forward (self : t) (input : list vec) : result (list vec) :=
  if negb (forallb (fun x => (length x =? size (weight self) 1)%nat) input)
  then Raise RuntimeError
  else Ok (map (affine self) input).

End Linear.

Module Dropout.

Record t : Type := mk { p : Q }.

(** [nn.Dropout(p)]: [if p < 0 or p > 1: raise ValueError], for a number
    [p].  (On NaN both comparisons are false; [Q] has no such value.) *)
Definition __init__ (p : Q) : result t :=
  if negb (Qle_bool 0 p) || negb (Qle_bool p 1) then Raise ValueError
  else Ok (mk p).

(** [F.dropout(input, self.p, self.training)]; [training] is the flag of the
    enclosing module, which [train()] and [eval()] propagate. *)
Definition forward {G : Generator} (self : t) (training : bool)
    (input : list (list vec)) : M (list (list vec)) :=
  F_dropout input (p self) training.

End Dropout.

(* ------------------------------------------------------------------ *)
(** ** [class LSTMClassifier(nn.Module)] *)

Module LSTMClassifier.

Record t : Type := mk {
  embedding : Embedding.t;
  lstm : LSTM.t;
  fc : Linear.t;
  dropout : Dropout.t;
  (** [nn.Module.training], set by [train()] and [eval()] *)
  training : bool
}.

(** [self.named_parameters()], in registration order. *)
Definition named_parameters (self : t) : list (string * Tensor) :=
  ("embedding.weight"%string, Embedding.weight (embedding self))
  :: map (fun nt => (("lstm." ++ fst nt)%string, snd nt)) (LSTM.flat_weights (lstm self))
  ++ [ ("fc.weight"%string, Linear.weight (fc self));
       ("fc.bias"%string, Linear.bias (fc self)) ].

Section Ops.
Context {G : Generator}.

(** A loop [for name, param in self.named_parameters(): param <- f name param]
    whose body updates [param] in place. *)
Definition for_named_parameters (f : string -> Tensor -> M Tensor) (self : t) : M t :=
  let e := embedding self in
  let l := lstm self in
  let c := fc self in
  ew <- f "embedding.weight"%string (Embedding.weight e) ;;
  lps <- mapM (mapM (mapM (fun nt => w <- f ("lstm." ++ fst nt)%string (snd nt) ;;
                                     ret (fst nt, w))))
              (LSTM.all_weights l) ;;
  cw <- f "fc.weight"%string (Linear.weight c) ;;
  cb <- f "fc.bias"%string (Linear.bias c) ;;
  ret (mk (Embedding.mk (Embedding.num_embeddings e) (Embedding.embedding_dim e)
                        (Embedding.padding_idx e) ew)
          (LSTM.mk (LSTM.input_size l) (LSTM.hidden_size l) (LSTM.num_layers l)
                   (LSTM.dropout l) (LSTM.bidirectional l) lps)
          (Linear.mk (Linear.in_features c) (Linear.out_features c) cw cb)
          (dropout self) (training self)).

(** The body of the loop of [_init_weights]. *)
Definition init_param (name : string) (param : Tensor) : M Tensor :=
  if contains "weight" name then xavier_uniform_ param
  else if contains "bias" name then ret (zeros_ param)
  else ret param.

(** [_init_weights] (model.py, lines 47-53). *)
Definition _init_weights (self : t) : M t :=
  for_named_parameters init_param self.

(** [__init__] (model.py, lines 6-45); a fresh [nn.Module] is in training
    mode. *)
Definition __init__ (vocab_size embedding_dim hidden_dim output_dim padding_idx : Z)
    (bidirectional : bool) (num_layers : Z) (dropout_rate : Q) : M t :=
  embedding <- Embedding.__init__ vocab_size embedding_dim padding_idx ;;
  lstm <- LSTM.__init__ embedding_dim hidden_dim num_layers
            (if (num_layers >? 1)%Z then dropout_rate else 0%Q)
            bidirectional ;;
  let lstm_output_dim := if bidirectional then (hidden_dim * 2)%Z else hidden_dim in
  fc <- Linear.__init__ lstm_output_dim output_dim ;;
  dropout <- lift (Dropout.__init__ dropout_rate) ;;
  _init_weights (mk embedding lstm fc dropout true).

(** [forward] (model.py, lines 55-78); [x] is a (batch, seq_len) tensor of
    token indices. *)
Definition forward (self : t) (x : list (list Z)) : M (list vec) :=
  embedded <- lift (Embedding.forward (embedding self) x) ;;
  embedded <- Dropout.forward (dropout self) (training self) embedded ;;
  r <- LSTM.forward (lstm self) (training self) embedded None ;;
  let '(lstm_out, (hidden, _)) := r in
  hidden <- (if LSTM.bidirectional (lstm self) then
               h2 <- lift (py_index hidden (-2)) ;;
               h1 <- lift (py_index hidden (-1)) ;;
               ret (cat_dim1 h2 h1)
             else lift (py_index hidden (-1))) ;;
  logits <- lift (Linear.forward (fc self) hidden) ;;
  ret logits.

End Ops.

(** [model.train()] and [model.eval()]. *)
Definition train (self : t) : t :=
  mk (embedding self) (lstm self) (fc self) (dropout self) true.

Definition eval (self : t) : t :=
  mk (embedding self) (lstm self) (fc self) (dropout self) false.

End LSTMClassifier.

(** The constructor's arguments, collected.  [dropout_rate] is a number: a
    rational stands for the value of the float.  Python's NaN, on which every
    comparison is false, is not a value of this type, and nothing below
    speaks of it. *)
Record Config : Type := mkConfig {
  vocab_size : Z;
  embedding_dim : Z;
  hidden_dim : Z;
  output_dim : Z;
  padding_idx : Z;
  bidirectional : bool;
  num_layers : Z;
  dropout_rate : Q
}.

Definition construct {G : Generator} (c : Config) : M LSTMClassifier.t :=
  LSTMClassifier.__init__ (vocab_size c) (embedding_dim c) (hidden_dim c)
    (output_dim c) (padding_idx c) (bidirectional c) (num_layers c) (dropout_rate c).

(** Configurations the specification calls valid. *)
Definition valid_config (c : Config) : Prop :=
  (0 < vocab_size c)%Z /\ (0 < embedding_dim c)%Z /\ (0 < hidden_dim c)%Z /\
  (1 <= output_dim c)%Z /\ (0 <= padding_idx c < vocab_size c)%Z /\
  (1 <= num_layers c)%Z /\
  Qle_bool 0 (dropout_rate c) = true /\ Qle_bool 1 (dropout_rate c) = false.

(** Configurations the constructor accepts. *)
Definition accepted_config (c : Config) : Prop :=
  (0 < vocab_size c)%Z /\ (0 <= embedding_dim c)%Z /\ (0 < hidden_dim c)%Z /\
  (0 <= output_dim c)%Z /\ (- vocab_size c <= padding_idx c < vocab_size c)%Z /\
  (1 <= num_layers c)%Z /\
  Qle_bool 0 (dropout_rate c) = true /\ Qle_bool (dropout_rate c) 1 = true.

(** A small deterministic generator, used for concrete runs: a counter
    whose uniform draws cycle through 1/8, 3/8, 5/8, 7/8. *)
Definition counter_rand (k : nat) : R * nat :=
  ((INR (2 * (k mod 4) + 1) / 8)%R, S k).
Definition counter_randn (k : nat) : R * nat := ((INR (k mod 5) - 2)%R, S k).

Definition counter_generator : Generator :=
  {| rng := nat; rand := counter_rand; randn := counter_randn |}.

(* ================================================================== *)
(** * Vocabulary of the statements

    Shapes, names and well-formedness predicates used to state the
    properties, and the concrete configurations and inputs of the examples. *)

Unset Implicit Arguments.

Section Vocabulary.
Context {G : Generator}.

(** A tensor whose storage has as many entries as its shape says. *)
Definition filled (t : Tensor) : Prop := length (data t) = numel (shape t).

(** The two fans of a tensor of rank at least 2. *)
Definition fan_in (t : Tensor) : nat := (size t 1 * numel (skipn 2 (shape t)))%nat.

Definition fan_out (t : Tensor) : nat := (size t 0 * numel (skipn 2 (shape t)))%nat.

(** What a Xavier refill of [t] from generator state [g] stores. *)
Definition xavier_data (t : Tensor) (g : rng) : list R :=
  let a := xavier_bound (fan_in t) (fan_out t) in
  map (fun u => - a + u * (a - - a))%R (fst (sample rand (numel (shape t)) g)).

(** Occurrence of a character in a string. *)
Fixpoint has_char (c : ascii) (s : string) : bool :=
  match s with
  | EmptyString => false
  | String a s' => Ascii.eqb a c || has_char c s'
  end.

(** A name that [_init_weights] sends to the Xavier branch, and one that it
    sends to the zero branch. *)
Definition weight_name (n : string) : Prop :=
  contains "weight" n = true /\ contains "bias" n = false.

Definition bias_name (n : string) : Prop :=
  contains "weight" n = false /\ contains "bias" n = true.

(** The name and shape of a named parameter; below, the names and shapes
    [nn.LSTM] registers for one direction of one layer and for the whole
    stack. *)
Definition sig_of (nt : string * Tensor) : string * list nat :=
  (fst nt, shape (snd nt)).

Definition layer_input_size (input_size hidden_size : Z) (bidirectional : bool)
    (layer : nat) : Z :=
  if (layer =? 0)%nat then input_size
  else (hidden_size * Z.of_nat (LSTM.num_directions bidirectional))%Z.

Definition group_sig (input_size hidden_size : Z) (bidirectional : bool)
    (layer direction : nat) : list (string * list nat) :=
  let g4 := Z.to_nat (4 * hidden_size) in
  let suffix := if (direction =? 1)%nat then "_reverse"%string else ""%string in
  let l := string_of_nat layer in
  [ (("weight_ih_l" ++ l) ++ suffix,
     [g4; Z.to_nat (layer_input_size input_size hidden_size bidirectional layer)])%string;
    (("weight_hh_l" ++ l) ++ suffix, [g4; Z.to_nat hidden_size])%string;
    (("bias_ih_l" ++ l) ++ suffix, [g4])%string;
    (("bias_hh_l" ++ l) ++ suffix, [g4])%string ].

Definition lstm_sig (input_size hidden_size num_layers : Z) (bidirectional : bool)
    : list (list (list (string * list nat))) :=
  map (fun layer =>
         map (group_sig input_size hidden_size bidirectional layer)
             (seq 0 (LSTM.num_directions bidirectional)))
      (seq 0 (Z.to_nat num_layers)).

(** A property of every parameter of every direction of every layer. *)
Definition Forall3 {A} (P : A -> Prop) (ws : list (list (list A))) : Prop :=
  Forall (Forall (Forall P)) ws.

Definition nt_filled (nt : string * Tensor) : Prop := filled (snd nt).

(** [lstm_output_dim] of [__init__], as a function of the configuration. *)
Definition lstm_output_dim (c : Config) : Z :=
  if bidirectional c then (hidden_dim c * 2)%Z else hidden_dim c.

(** What [_init_weights] leaves in a parameter of a given name. *)
Definition initialised (name : string) (t : Tensor) : Prop :=
  filled t /\
  ((weight_name name /\ (fan_in t + fan_out t <> 0)%nat /\
    exists g0 : rng, data t = xavier_data t g0) \/
   (bias_name name /\ data t = repeat 0%R (numel (shape t)))).

(** What [_init_weights] needs of a parameter to go through. *)
Definition init_ready (name : string) (s : list nat) : Prop :=
  (weight_name name /\ exists a b, s = [a; b] /\ (a + b <> 0)%nat) \/ bias_name name.

(** Everything the rest of the development needs to know about a freshly
    constructed classifier. *)
Record built (c : Config) (m : LSTMClassifier.t) : Prop := {
  b_accepted : accepted_config c;
  b_emb_num : Embedding.num_embeddings (LSTMClassifier.embedding m) = vocab_size c;
  b_emb_dim : Embedding.embedding_dim (LSTMClassifier.embedding m) = embedding_dim c;
  b_emb_pad : Embedding.padding_idx (LSTMClassifier.embedding m)
              = (if (padding_idx c <? 0)%Z then vocab_size c + padding_idx c
                 else padding_idx c)%Z;
  b_emb_shape : shape (Embedding.weight (LSTMClassifier.embedding m))
                = [Z.to_nat (vocab_size c); Z.to_nat (embedding_dim c)];
  b_emb_init : initialised "embedding.weight"
                 (Embedding.weight (LSTMClassifier.embedding m));
  b_lstm_input : LSTM.input_size (LSTMClassifier.lstm m) = embedding_dim c;
  b_lstm_hidden : LSTM.hidden_size (LSTMClassifier.lstm m) = hidden_dim c;
  b_lstm_layers : LSTM.num_layers (LSTMClassifier.lstm m) = num_layers c;
  b_lstm_dropout : LSTM.dropout (LSTMClassifier.lstm m)
                   = (if (num_layers c >? 1)%Z then dropout_rate c else 0%Q);
  b_lstm_bidir : LSTM.bidirectional (LSTMClassifier.lstm m) = bidirectional c;
  b_lstm_sig : map (map (map sig_of)) (LSTM.all_weights (LSTMClassifier.lstm m))
               = lstm_sig (embedding_dim c) (hidden_dim c) (num_layers c) (bidirectional c);
  b_lstm_init : Forall3 (fun nt => initialised ("lstm." ++ fst nt) (snd nt))
                  (LSTM.all_weights (LSTMClassifier.lstm m));
  b_fc_in : Linear.in_features (LSTMClassifier.fc m) = lstm_output_dim c;
  b_fc_out : Linear.out_features (LSTMClassifier.fc m) = output_dim c;
  b_fc_wshape : shape (Linear.weight (LSTMClassifier.fc m))
                = [Z.to_nat (output_dim c); Z.to_nat (lstm_output_dim c)];
  b_fc_bshape : shape (Linear.bias (LSTMClassifier.fc m)) = [Z.to_nat (output_dim c)];
  b_fc_winit : initialised "fc.weight" (Linear.weight (LSTMClassifier.fc m));
  b_fc_binit : initialised "fc.bias" (Linear.bias (LSTMClassifier.fc m));
  b_drop : Dropout.p (LSTMClassifier.dropout m) = dropout_rate c;
  b_training : LSTMClassifier.training m = true
}.

(** The configurations the specification wants rejected. *)
Definition claimed_invalid (c : Config) : Prop :=
  (vocab_size c <= 0)%Z \/
  ~ (0 <= padding_idx c < vocab_size c)%Z \/
  (output_dim c < 1)%Z \/
  ~ (0 <= dropout_rate c /\ dropout_rate c < 1)%Q.

(** The configurations the constructor does reject on those four counts. *)
Definition rejected_config (c : Config) : Prop :=
  (vocab_size c <= 0)%Z \/
  ~ (- vocab_size c <= padding_idx c < vocab_size c)%Z \/
  (output_dim c < 0)%Z \/
  ~ (0 <= dropout_rate c /\ dropout_rate c <= 1)%Q.

(** Dropout probability 1, a padding index counted from the end, and an
    empty output layer. *)
Definition cfg_dropout_one : Config := mkConfig 50 8 16 2 0 false 2 1.

Definition cfg_negative_padding : Config := mkConfig 50 8 16 2 (-1) false 2 (1 # 2).

Definition cfg_no_class : Config := mkConfig 50 8 16 0 0 false 2 (1 # 2).

(** The configurations of the two end-to-end scenarios. *)
Definition cfg_small : Config := mkConfig 50 8 16 2 0 false 1 (1 # 2).

Definition cfg_small_bidirectional : Config := mkConfig 50 8 16 2 0 true 2 (1 # 2).

(** A (batch, features) and a (batch, seq_len, features) activation. *)
Definition shape2 (t : list vec) (b f : nat) : Prop :=
  length t = b /\ Forall (fun v => length v = f) t.

Definition shape3 (t : list (list vec)) (b s f : nat) : Prop :=
  length t = b /\ Forall (fun xs => length xs = s /\ Forall (fun v => length v = f) xs) t.

(** A (batch, seq_len) tensor of indices into a vocabulary of the given size,
    with at least one time step. *)
Definition valid_input (vocab : Z) (x : list (list Z)) (b s : nat) : Prop :=
  length x = b /\ (1 <= s)%nat
  /\ Forall (fun xs => length xs = s /\ Forall (fun i => 0 <= i < vocab)%Z xs) x.

(** The parameters of one direction have the sizes the gates need. *)
Definition group_ok (H : nat) (ps : LSTM.group) : Prop :=
  size (LSTM.param ps 0) 0 = (4 * H)%nat /\ size (LSTM.param ps 1) 0 = (4 * H)%nat
  /\ length (data (LSTM.param ps 2)) = (4 * H)%nat
  /\ length (data (LSTM.param ps 3)) = (4 * H)%nat.

(** A hidden and cell state of one sample, of a batch, and a stack whose
    layers all have [d] directions with well-sized parameters. *)
Definition pair_ok (H : nat) (hc : vec * vec) : Prop :=
  length (fst hc) = H /\ length (snd hc) = H.

Definition state_ok (b H : nat) (hc : list vec * list vec) : Prop :=
  shape2 (fst hc) b H /\ shape2 (snd hc) b H.

Definition layers_ok (H d : nat) (layers : list (list LSTM.group)) : Prop :=
  Forall (fun layer => length layer = d /\ Forall (group_ok H) layer) layers.

(** The initial state [torch.zeros] gives one direction of one layer. *)
Definition zero_state (b H : nat) : list vec * list vec :=
  (repeat (repeat 0%R H) b, repeat (repeat 0%R H) b).

(** [model.train()] or [model.eval()], by flag. *)
Definition set_mode (tr : bool) (m : LSTMClassifier.t) : LSTMClassifier.t :=
  if tr then LSTMClassifier.train m else LSTMClassifier.eval m.

(** What [forward] keeps of [h_n]: the last entry, or the last two side by
    side. *)
Definition hidden_of (bidir : bool) (h_n : list (list vec)) : list vec :=
  if bidir then cat_dim1 (nth (length h_n - 2) h_n []) (nth (length h_n - 1) h_n [])
  else nth (length h_n - 1) h_n [].

(** A batch of two sequences of three tokens. *)
Definition x_small : list (list Z) := [[1; 2; 3]; [4; 0; 7]]%Z.

(** The smallest model with every component: two tokens, one embedding
    dimension, one hidden unit, one class, one unidirectional layer, dropout
    1/2; and the input made of the single token 1. *)
Definition cfg_tiny : Config := mkConfig 2 1 1 1 0 false 1 (1 # 2).

Definition x_tiny : list (list Z) := [[1%Z]].

(** The embedded token after dropout, for the draw made in state [g]. *)
Definition tiny_masked (e1 : R) (g : nat) : R :=
  if Rlt_dec (fst (counter_rand g)) (1 - Q2R (1 # 2))
  then (e1 * (1 / (1 - Q2R (1 # 2))))%R else (e1 * 0)%R.

(** The logit as a function of the LSTM weights [a], [b], the projection
    weight [wf] and the masked embedding [v]; all biases are zero. *)
Definition tiny_logit (a0 a1 a2 a3 b0 b1 b2 b3 wf v : R) : R :=
  (wf * (sigmoid (a3 * v + 0 + 0 + (b3 * 0 + 0 + 0))
         * tanh (sigmoid (a1 * v + 0 + 0 + (b1 * 0 + 0 + 0)) * 0
                 + sigmoid (a0 * v + 0 + 0 + (b0 * 0 + 0 + 0))
                   * tanh (a2 * v + 0 + 0 + (b2 * 0 + 0 + 0))))
   + 0 + 0)%R.

(** Entries between [-a] and [a]. *)
Definition within (a : R) (v : R) : Prop := (- a <= v <= a)%R.

(** The hidden part of the state of one direction holds entries in [-1, 1]. *)
Definition hidden_within (hc : list vec * list vec) : Prop :=
  Forall (Forall (within 1)) (fst hc).

(** The states of two batches, one after the other on the batch axis. *)
Definition state_app (a b : list vec * list vec) : list vec * list vec :=
  (fst a ++ fst b, snd a ++ snd b).

(** A configuration with another padding index, or another dropout
    probability. *)
Definition with_padding_idx (c : Config) (pad : Z) : Config :=
  mkConfig (vocab_size c) (embedding_dim c) (hidden_dim c) (output_dim c) pad
           (bidirectional c) (num_layers c) (dropout_rate c).

Definition with_dropout_rate (c : Config) (p : Q) : Config :=
  mkConfig (vocab_size c) (embedding_dim c) (hidden_dim c) (output_dim c)
           (padding_idx c) (bidirectional c) (num_layers c) p.

End Vocabulary.

(* ================================================================== *)
(** * Properties *)

(** ** The monad *)

Section MonadFacts.
Context {G : Generator}.

Lemma bind_inv A B (c : M A) (k : A -> M B) g r :
  bind c k g = Ok r -> exists a g1, c g = Ok (a, g1) /\ k a g1 = Ok r.
Proof.
  unfold bind. destruct (c g) as [[a g1]|e]; [eauto | discriminate].
Qed.

Lemma bind_ok A B (c : M A) (k : A -> M B) g a g1 :
  c g = Ok (a, g1) -> bind c k g = k a g1.
Proof. unfold bind. intros ->. reflexivity. Qed.

Lemma lift_inv A (r : result A) g a g' :
  lift r g = Ok (a, g') -> r = Ok a /\ g' = g.
Proof. unfold lift. destruct r; intros H; inversion H; auto. Qed.

Lemma ret_inv A (a b : A) g g' : ret a g = Ok (b, g') -> b = a /\ g' = g.
Proof. unfold ret. intros H; inversion H; auto. Qed.

(** A projection that every successful call of [f] maps to [h] of the
    argument is mapped that way over the whole list. *)
Lemma mapM_proj A B C (f : A -> M B) (pr : B -> C) (h : A -> C) :
  forall l g l' g',
    (forall a g b g', In a l -> f a g = Ok (b, g') -> pr b = h a) ->
    mapM f l g = Ok (l', g') -> map pr l' = map h l.
Proof.
  induction l as [|a l IH]; simpl; intros g l' g' Hf H.
  - apply ret_inv in H as [-> _]. reflexivity.
  - apply bind_inv in H as (b & g1 & Hb & H).
    apply bind_inv in H as (bs & g2 & Hbs & H).
    apply ret_inv in H as [-> _]. simpl. f_equal; eauto.
Qed.

Lemma mapM_Forall A B (f : A -> M B) (P : B -> Prop) :
  forall l g l' g',
    (forall a g b g', In a l -> f a g = Ok (b, g') -> P b) ->
    mapM f l g = Ok (l', g') -> Forall P l'.
Proof.
  induction l as [|a l IH]; simpl; intros g l' g' Hf H.
  - apply ret_inv in H as [-> _]. constructor.
  - apply bind_inv in H as (b & g1 & Hb & H).
    apply bind_inv in H as (bs & g2 & Hbs & H).
    apply ret_inv in H as [-> _]. constructor; eauto.
Qed.

Lemma mapM_total A B (f : A -> M B) :
  forall l g,
    (forall a g, In a l -> exists b g', f a g = Ok (b, g')) ->
    exists l' g', mapM f l g = Ok (l', g').
Proof.
  induction l as [|a l IH]; simpl; intros g Hf.
  - unfold ret; eauto.
  - destruct (Hf a g (or_introl eq_refl)) as (b & g1 & Hb).
    destruct (IH g1) as (bs & g2 & Hbs); [intros; apply Hf; auto|].
    erewrite bind_ok by exact Hb. erewrite bind_ok by exact Hbs.
    unfold ret; eauto.
Qed.

Lemma mapM_length A B (f : A -> M B) :
  forall l g l' g', mapM f l g = Ok (l', g') -> length l' = length l.
Proof.
  intros l g l' g' H.
  rewrite <- (length_map (fun _ => tt) l'), <- (length_map (fun _ => tt) l).
  f_equal. eapply mapM_proj; eauto.
Qed.

End MonadFacts.

(** ** Initialisers *)

Section InitFacts.
Context {G : Generator}.

Lemma sample_length draw n : forall g, length (fst (sample draw n g)) = n.
Proof.
  induction n as [|n IH]; simpl; intros g; [reflexivity|].
  destruct (draw g) as [u g1]. specialize (IH g1).
  destruct (sample draw n g1) as [us g2]. simpl in *. congruence.
Qed.

Lemma uniform_inv t lo hi g t' g' :
  uniform_ t lo hi g = Ok (t', g') ->
  shape t' = shape t /\ filled t' /\
  data t' = map (fun u => lo + u * (hi - lo))%R (fst (sample rand (numel (shape t)) g)).
Proof.
  unfold uniform_, filled. pose proof (sample_length rand (numel (shape t)) g) as L.
  destruct (sample rand (numel (shape t)) g) as [us g1]. simpl in L.
  intros H; inversion H; subst; simpl. rewrite length_map. auto.
Qed.

Lemma uniform_total t lo hi g : exists t' g', uniform_ t lo hi g = Ok (t', g').
Proof.
  unfold uniform_. destruct (sample rand (numel (shape t)) g); eauto.
Qed.

Lemma normal_inv t g t' g' :
  normal_ t g = Ok (t', g') -> shape t' = shape t /\ filled t'.
Proof.
  unfold normal_, filled. pose proof (sample_length randn (numel (shape t)) g) as L.
  destruct (sample randn (numel (shape t)) g) as [us g1]. simpl in L.
  intros H; inversion H; subst; simpl. auto.
Qed.

Lemma normal_total t g : exists t' g', normal_ t g = Ok (t', g').
Proof.
  unfold normal_. destruct (sample randn (numel (shape t)) g); eauto.
Qed.

Lemma zeros_filled t : filled (zeros_ t).
Proof. unfold filled, zeros_; simpl. apply repeat_length. Qed.

Lemma existsb_neg_false dims :
  existsb (fun d => d <? 0)%Z dims = false <-> Forall (fun d => 0 <= d)%Z dims.
Proof.
  induction dims as [|d dims IH]; simpl.
  - split; auto.
  - rewrite orb_false_iff, IH, Z.ltb_ge. split.
    + intros [? ?]; constructor; auto.
    + intros H; inversion H; auto.
Qed.

Lemma torch_empty_inv dims t :
  torch_empty dims = Ok t ->
  Forall (fun d => 0 <= d)%Z dims /\ shape t = map Z.to_nat dims /\ filled t.
Proof.
  unfold torch_empty, filled.
  destruct (existsb _ dims) eqn:E; [discriminate|].
  intros H; inversion H; subst; simpl. rewrite repeat_length.
  apply existsb_neg_false in E. auto.
Qed.

Lemma torch_empty_total dims :
  Forall (fun d => 0 <= d)%Z dims -> exists t, torch_empty dims = Ok t.
Proof.
  intros H. apply existsb_neg_false in H. unfold torch_empty. rewrite H. eauto.
Qed.

Lemma xavier_inv t g t' g' :
  xavier_uniform_ t g = Ok (t', g') ->
  shape t' = shape t /\ filled t' /\ data t' = xavier_data t g.
Proof.
  unfold xavier_uniform_, _calculate_fan_in_and_fan_out. intros H.
  apply bind_inv in H as ([fi fo] & g1 & H1 & H).
  apply lift_inv in H1 as [H1 ->].
  destruct (dim t <? 2)%nat; [discriminate|]. inversion H1; subst; clear H1.
  destruct (_ =? 0)%nat; [discriminate|].
  apply uniform_inv in H. exact H.
Qed.

Lemma xavier_total t g :
  (2 <= dim t)%nat -> (fan_in t + fan_out t <> 0)%nat ->
  exists t' g', xavier_uniform_ t g = Ok (t', g').
Proof.
  intros Hd Hf. unfold xavier_uniform_, _calculate_fan_in_and_fan_out.
  apply Nat.ltb_ge in Hd. rewrite Hd. unfold bind, lift. fold (fan_in t) (fan_out t).
  apply Nat.eqb_neq in Hf. rewrite Hf. apply uniform_total.
Qed.

End InitFacts.

(** ** Parameter names *)

Lemma has_char_app c s1 s2 :
  has_char c (s1 ++ s2) = has_char c s1 || has_char c s2.
Proof.
  induction s1 as [|a s1 IH]; simpl; [reflexivity|].
  rewrite IH. apply orb_assoc.
Qed.

Lemma contains_weight_no_w s : has_char "w" s = false -> contains "weight" s = false.
Proof.
  induction s as [|a s IH]; [reflexivity|].
  cbn [has_char contains]. rewrite orb_false_iff. intros [Ha Hs]. rewrite (IH Hs).
  rewrite orb_false_r.
  change (String.prefix "weight" (String a s))
    with (if ascii_dec "w" a then String.prefix "eight" s else false).
  destruct (ascii_dec "w" a) as [<-|]; [discriminate | reflexivity].
Qed.

Lemma string_of_uint_no_w d : has_char "w" (NilEmpty.string_of_uint d) = false.
Proof. induction d; simpl; auto. Qed.

Lemma layer_suffix_no_w layer direction :
  has_char "w" (string_of_nat layer
                ++ (if (direction =? 1)%nat then "_reverse" else ""))%string = false.
Proof.
  rewrite has_char_app. unfold string_of_nat. rewrite string_of_uint_no_w.
  destruct (direction =? 1)%nat; reflexivity.
Qed.

Lemma append_assoc (a b c : string) : ((a ++ b) ++ c = a ++ (b ++ c))%string.
Proof. induction a; simpl; congruence. Qed.

Lemma lstm_bias_ih_name s :
  has_char "w" s = false ->
  contains "weight" ("lstm." ++ ("bias_ih_l" ++ s)) = false
  /\ contains "bias" ("lstm." ++ ("bias_ih_l" ++ s)) = true.
Proof.
  intros H. split; [|reflexivity]. simpl. now rewrite contains_weight_no_w.
Qed.

Lemma lstm_bias_hh_name s :
  has_char "w" s = false ->
  contains "weight" ("lstm." ++ ("bias_hh_l" ++ s)) = false
  /\ contains "bias" ("lstm." ++ ("bias_hh_l" ++ s)) = true.
Proof.
  intros H. split; [|reflexivity]. simpl. now rewrite contains_weight_no_w.
Qed.

Lemma contains_bias_no_b s : has_char "b" s = false -> contains "bias" s = false.
Proof.
  induction s as [|a s IH]; [reflexivity|].
  cbn [has_char contains]. rewrite orb_false_iff. intros [Ha Hs]. rewrite (IH Hs).
  rewrite orb_false_r.
  change (String.prefix "bias" (String a s))
    with (if ascii_dec "b" a then String.prefix "ias" s else false).
  destruct (ascii_dec "b" a) as [<-|]; [discriminate | reflexivity].
Qed.

Lemma string_of_uint_no_b d : has_char "b" (NilEmpty.string_of_uint d) = false.
Proof. induction d; simpl; auto. Qed.

Lemma layer_suffix_no_b layer direction :
  has_char "b" (string_of_nat layer
                ++ (if (direction =? 1)%nat then "_reverse" else ""))%string = false.
Proof.
  rewrite has_char_app. unfold string_of_nat. rewrite string_of_uint_no_b.
  destruct (direction =? 1)%nat; reflexivity.
Qed.

(** ** Shapes and names of what the constructor allocates *)

Lemma Forall3_map A B (f : A -> B) (P : B -> Prop) ws :
  Forall3 P (map (map (map f)) ws) <-> Forall3 (fun a => P (f a)) ws.
Proof.
  unfold Forall3. rewrite Forall_map.
  split; apply Forall_impl; intros l; rewrite Forall_map;
    apply Forall_impl; intros l'; rewrite Forall_map; auto.
Qed.

Lemma Forall3_concat A (P : A -> Prop) ws :
  Forall3 P ws <-> Forall P (concat (concat ws)).
Proof.
  unfold Forall3. rewrite Forall_concat.
  induction ws as [|w ws IH]; simpl.
  - split; constructor.
  - rewrite Forall_app, <- IH. split.
    + intros H; inversion H; subst; auto.
    + intros [H1 H2]; constructor; auto.
Qed.

Section MapM3.
Context {G : Generator}.

Lemma mapM3_proj A B C (f : A -> M B) (pr : B -> C) (h : A -> C) ws g ws' g' :
  (forall a g b g', f a g = Ok (b, g') -> pr b = h a) ->
  mapM (mapM (mapM f)) ws g = Ok (ws', g') ->
  map (map (map pr)) ws' = map (map (map h)) ws.
Proof.
  intros Hf. apply mapM_proj. intros l g1 l' g1' _. apply mapM_proj.
  intros l2 g2 l2' g2' _. apply mapM_proj. intros; eapply Hf; eauto.
Qed.

Lemma mapM3_Forall A B (f : A -> M B) (Q : A -> Prop) (P : B -> Prop) ws g ws' g' :
  (forall a g b g', Q a -> f a g = Ok (b, g') -> P b) ->
  Forall3 Q ws ->
  mapM (mapM (mapM f)) ws g = Ok (ws', g') -> Forall3 P ws'.
Proof.
  intros Hf HQ. unfold Forall3 in *. rewrite Forall_forall in HQ.
  apply mapM_Forall. intros l g1 l' g1' Hl. specialize (HQ l Hl).
  rewrite Forall_forall in HQ.
  apply mapM_Forall. intros l2 g2 l2' g2' Hl2. specialize (HQ l2 Hl2).
  rewrite Forall_forall in HQ.
  apply mapM_Forall. intros a g3 b g3' Ha. apply Hf. auto.
Qed.

Lemma mapM3_total A B (f : A -> M B) (Q : A -> Prop) ws g :
  (forall a g, Q a -> exists b g', f a g = Ok (b, g')) ->
  Forall3 Q ws ->
  exists ws' g', mapM (mapM (mapM f)) ws g = Ok (ws', g').
Proof.
  intros Hf HQ. unfold Forall3 in *. rewrite Forall_forall in HQ.
  apply mapM_total. intros l g1 Hl. specialize (HQ l Hl).
  rewrite Forall_forall in HQ.
  apply mapM_total. intros l2 g2 Hl2. specialize (HQ l2 Hl2).
  rewrite Forall_forall in HQ.
  apply mapM_total. intros a g3 Ha. apply Hf. auto.
Qed.

End MapM3.

(** ** Inversion and totality of the library constructors *)

Section ConstructorFacts.
Context {G : Generator}.

Lemma layer_params_inv i h b layer d g gr g' :
  LSTM.layer_params i h b layer d g = Ok (gr, g') ->
  map sig_of gr = group_sig i h b layer d /\ Forall nt_filled gr.
Proof.
  unfold LSTM.layer_params. intros H.
  apply bind_inv in H as (w_ih & g1 & H1 & H). apply lift_inv in H1 as [H1 ->].
  apply bind_inv in H as (w_hh & g2 & H2 & H). apply lift_inv in H2 as [H2 ->].
  apply bind_inv in H as (b_ih & g3 & H3 & H). apply lift_inv in H3 as [H3 ->].
  apply bind_inv in H as (b_hh & g4 & H4 & H). apply lift_inv in H4 as [H4 ->].
  apply ret_inv in H as [H _].
  apply torch_empty_inv in H1 as (_ & S1 & F1), H2 as (_ & S2 & F2),
    H3 as (_ & S3 & F3), H4 as (_ & S4 & F4).
  subst gr. split.
  - unfold group_sig, sig_of, layer_input_size; simpl. rewrite S1, S2, S3, S4.
    reflexivity.
  - repeat constructor; assumption.
Qed.

Lemma layer_params_total i h b layer d g :
  (0 <= i)%Z -> (0 <= h)%Z -> exists gr g', LSTM.layer_params i h b layer d g = Ok (gr, g').
Proof.
  intros Hi Hh. unfold LSTM.layer_params.
  assert (Hl : (0 <= if (layer =? 0)%nat then i
                     else h * Z.of_nat (LSTM.num_directions b))%Z)
    by (destruct (layer =? 0)%nat; [assumption | destruct b; simpl; lia]).
  destruct (torch_empty_total [4 * h; if (layer =? 0)%nat then i
                                      else h * Z.of_nat (LSTM.num_directions b)]%Z)
    as (t1 & E1); [repeat constructor; lia|].
  destruct (torch_empty_total [4 * h; h]%Z) as (t2 & E2); [repeat constructor; lia|].
  destruct (torch_empty_total [4 * h]%Z) as (t3 & E3); [repeat constructor; lia|].
  unfold bind, lift, ret. rewrite E1, E2, E3. eauto.
Qed.

Lemma LSTM_init_inv i h L p b g l g' :
  LSTM.__init__ i h L p b g = Ok (l, g') ->
  LSTM.input_size l = i /\ LSTM.hidden_size l = h /\ LSTM.num_layers l = L /\
  LSTM.dropout l = p /\ LSTM.bidirectional l = b /\
  map (map (map sig_of)) (LSTM.all_weights l) = lstm_sig i h L b /\
  Forall3 nt_filled (LSTM.all_weights l) /\
  (Qle_bool 0 p = true /\ Qle_bool p 1 = true) /\ (0 < h)%Z /\ (0 < L)%Z.
Proof.
  unfold LSTM.__init__. intros H.
  destruct (Qle_bool 0 p && Qle_bool p 1) eqn:Ep; simpl in H; [|discriminate].
  destruct (h <=? 0)%Z eqn:Eh; [discriminate|].
  destruct (L <=? 0)%Z eqn:EL; [discriminate|].
  apply bind_inv in H as (ws0 & g1 & H0 & H).
  apply bind_inv in H as (ws & g2 & H1 & H).
  apply ret_inv in H as [-> _]. simpl.
  apply andb_true_iff in Ep. apply Z.leb_gt in Eh, EL.
  repeat split; try tauto; try assumption.
  - unfold LSTM.reset_parameters in H1.
    transitivity (map (map (map sig_of)) ws0); [eapply mapM3_proj; [|exact H1]|].
    2: { unfold lstm_sig.
      eapply mapM_proj with (pr := map (map sig_of)); [|exact H0].
      intros layer ga gb gc _ Hl. simpl in Hl.
      eapply mapM_proj with (pr := map sig_of); [|exact Hl].
      intros d gd gr ge _ Hd. apply layer_params_inv in Hd. tauto. }
    intros [n t] ga [n' t'] gb Hf. apply bind_inv in Hf as (w & gw & Hu & Hf).
    apply ret_inv in Hf as [Hf _]. inversion Hf; subst.
    apply uniform_inv in Hu as (S & _). unfold sig_of; simpl in *. congruence.
  - unfold LSTM.reset_parameters in H1.
    eapply mapM3_Forall with (Q := fun _ => True); [| |exact H1].
    + intros [n t] ga [n' t'] gb _ Hf. apply bind_inv in Hf as (w & gw & Hu & Hf).
      apply ret_inv in Hf as [Hf _]. inversion Hf; subst.
      apply uniform_inv in Hu as (_ & F & _). exact F.
    + unfold Forall3. apply Forall_forall. intros; apply Forall_forall.
      intros; apply Forall_forall. auto.
Qed.

Lemma LSTM_init_total i h L p b g :
  Qle_bool 0 p = true -> Qle_bool p 1 = true -> (0 < h)%Z -> (0 < L)%Z -> (0 <= i)%Z ->
  exists l g', LSTM.__init__ i h L p b g = Ok (l, g').
Proof.
  intros P0 P1 Hh HL Hi. unfold LSTM.__init__. rewrite P0, P1. simpl.
  apply Z.leb_gt in Hh as Eh. apply Z.leb_gt in HL as EL. rewrite Eh, EL.
  destruct (mapM_total _ _
              (fun layer => mapM (LSTM.layer_params i h b layer)
                                 (seq 0 (LSTM.num_directions b)))
              (seq 0 (Z.to_nat L)) g) as (ws0 & g1 & E0).
  { intros layer ga _. apply mapM_total. intros d gb _.
    apply layer_params_total; lia. }
  erewrite bind_ok by exact E0.
  destruct (mapM3_total _ _
              (fun nt : string * Tensor =>
                 w <- uniform_ (snd nt)
                        (- (if (h >? 0)%Z then 1 / sqrt (IZR h) else 0))%R
                        (if (h >? 0)%Z then 1 / sqrt (IZR h) else 0)%R ;;
                 ret (fst nt, w))
              (fun _ => True) ws0 g1) as (ws & g2 & E1).
  { intros nt ga _.
    destruct (uniform_total (snd nt)
                (- (if (h >? 0)%Z then 1 / sqrt (IZR h) else 0))%R
                (if (h >? 0)%Z then 1 / sqrt (IZR h) else 0)%R ga) as (w & gb & E).
    erewrite bind_ok by exact E. unfold ret. eauto. }
  { unfold Forall3. apply Forall_forall. intros; apply Forall_forall.
    intros; apply Forall_forall. auto. }
  unfold LSTM.reset_parameters. erewrite bind_ok by exact E1. unfold ret. eauto.
Qed.

End ConstructorFacts.

Section EmbeddingLinearFacts.
Context {G : Generator}.

Lemma fill_row_zero_inv t i t' :
  fill_row_zero t i = Ok t' ->
  (- Z.of_nat (size t 0) <= i < Z.of_nat (size t 0))%Z /\ shape t' = shape t.
Proof.
  unfold fill_row_zero.
  destruct ((i <? - Z.of_nat (size t 0)) || (Z.of_nat (size t 0) <=? i))%Z eqn:E;
    [discriminate|].
  apply orb_false_iff in E as [E1 E2]. apply Z.ltb_ge in E1. apply Z.leb_gt in E2.
  intros H; inversion H; subst; simpl. auto.
Qed.

Lemma fill_row_zero_filled r c x i t' :
  fill_row_zero (mkTensor [r; c] x) i = Ok t' ->
  length x = (r * c)%nat -> filled t'.
Proof.
  intros H L. pose proof (fill_row_zero_inv _ _ _ H) as [B _].
  unfold fill_row_zero in H. unfold size in *; simpl in *.
  destruct ((i <? - Z.of_nat r) || (Z.of_nat r <=? i))%Z; [discriminate|].
  inversion H; subst; clear H. unfold filled; simpl.
  set (k := Z.to_nat (if (i <? 0)%Z then Z.of_nat r + i else i)%Z).
  assert (Hk : (k < r)%nat) by (subst k; destruct (i <? 0)%Z eqn:E;
    [apply Z.ltb_lt in E | apply Z.ltb_ge in E]; lia).
  rewrite !length_app, length_firstn, length_skipn, repeat_length, L. nia.
Qed.

Lemma Embedding_init_inv V E pad g e g' :
  Embedding.__init__ V E pad g = Ok (e, g') ->
  Embedding.num_embeddings e = V /\ Embedding.embedding_dim e = E /\
  Embedding.padding_idx e = (if (pad <? 0)%Z then V + pad else pad)%Z /\
  shape (Embedding.weight e) = [Z.to_nat V; Z.to_nat E] /\
  filled (Embedding.weight e) /\
  (0 < V)%Z /\ (0 <= E)%Z /\ (- V <= pad < V)%Z.
Proof.
  unfold Embedding.__init__. intros H.
  apply bind_inv in H as (pad' & g1 & Hp & H).
  apply bind_inv in H as (w0 & g2 & H0 & H). apply lift_inv in H0 as [H0 ->].
  apply bind_inv in H as (w1 & g3 & H1 & H).
  apply bind_inv in H as (w2 & g4 & H2 & H). apply lift_inv in H2 as [H2 ->].
  apply ret_inv in H as [-> _]. simpl.
  apply torch_empty_inv in H0 as (D & S0 & F0).
  apply normal_inv in H1 as (S1 & F1).
  pose proof (fill_row_zero_inv _ _ _ H2) as (B & S2).
  rewrite S0 in S1. simpl in S1.
  assert (F2 : filled w2).
  { destruct w1 as [s1 x1]. simpl in S1. subst s1.
    eapply fill_row_zero_filled; [exact H2|].
    unfold filled in F1; simpl in F1. lia. }
  unfold size in B. rewrite S1 in B. simpl in B.
  inversion D as [|? ? DV D']; subst. inversion D' as [|? ? DE _]; subst.
  assert (Hpad : pad' = (if (pad <? 0)%Z then V + pad else pad)%Z
                 /\ (- V <= pad < V)%Z /\ (0 < V)%Z).
  { destruct (pad >? 0)%Z eqn:E1.
    - destruct (pad <? V)%Z eqn:E2; [|discriminate].
      apply ret_inv in Hp as [-> _].
      apply Z.gtb_lt in E1. apply Z.ltb_lt in E2.
      destruct (pad <? 0)%Z eqn:E3; [apply Z.ltb_lt in E3|]; split; auto; lia.
    - destruct (pad <? 0)%Z eqn:E3.
      + destruct (pad >=? - V)%Z eqn:E4; [|discriminate].
        apply ret_inv in Hp as [-> _].
        apply Z.ltb_lt in E3. apply Z.geb_le in E4. split; auto; lia.
      + apply ret_inv in Hp as [-> _].
        apply Z.ltb_ge in E3. split; auto. lia. }
  destruct Hpad as (-> & ? & ?).
  repeat split; try lia; try assumption. congruence.
Qed.

Lemma Embedding_init_total V E pad g :
  (0 < V)%Z -> (0 <= E)%Z -> (- V <= pad < V)%Z ->
  exists e g', Embedding.__init__ V E pad g = Ok (e, g').
Proof.
  intros HV HE Hp. unfold Embedding.__init__.
  set (pad' := (if (pad <? 0)%Z then V + pad else pad)%Z).
  assert (E0 : forall g0,
    (if (pad >? 0)%Z then if (pad <? V)%Z then ret pad else raise AssertionError
     else if (pad <? 0)%Z then
            if (pad >=? - V)%Z then ret (V + pad)%Z else raise AssertionError
          else ret pad) g0 = Ok (pad', g0)).
  { intros g0. subst pad'. destruct (pad >? 0)%Z eqn:E1.
    - apply Z.gtb_lt in E1. replace (pad <? V)%Z with true by (symmetry; apply Z.ltb_lt; lia).
      replace (pad <? 0)%Z with false by (symmetry; apply Z.ltb_ge; lia). reflexivity.
    - destruct (pad <? 0)%Z eqn:E3; [|reflexivity].
      replace (pad >=? - V)%Z with true by (symmetry; apply Z.geb_le; lia). reflexivity. }
  erewrite bind_ok by apply E0.
  destruct (torch_empty_total [V; E]) as (w0 & E1); [repeat constructor; lia|].
  pose proof (torch_empty_inv _ _ E1) as (_ & S0 & _).
  unfold bind at 1, lift at 1. rewrite E1.
  destruct (normal_total w0 g) as (w1 & g1 & E2).
  pose proof (normal_inv _ _ _ _ E2) as (S1 & _).
  erewrite bind_ok by exact E2.
  unfold bind, lift, ret, fill_row_zero, size. rewrite S1, S0. simpl.
  replace ((pad' <? - Z.of_nat (Z.to_nat V)) || (Z.of_nat (Z.to_nat V) <=? pad'))%Z
    with false; [eauto|].
  symmetry. apply orb_false_iff. rewrite Z.ltb_ge, Z.leb_gt. subst pad'.
  destruct (pad <? 0)%Z eqn:E3; [apply Z.ltb_lt in E3 | apply Z.ltb_ge in E3]; lia.
Qed.

Lemma kaiming_inv t g t' g' :
  kaiming_uniform_ t g = Ok (t', g') -> filled t -> shape t' = shape t /\ filled t'.
Proof.
  unfold kaiming_uniform_. destruct (existsb (Nat.eqb 0) (shape t)).
  - intros H F. apply ret_inv in H as [-> _]. auto.
  - intros H _. apply bind_inv in H as (fans & g1 & _ & H).
    apply uniform_inv in H. tauto.
Qed.

Lemma kaiming_total t g :
  (2 <= dim t)%nat -> exists t' g', kaiming_uniform_ t g = Ok (t', g').
Proof.
  intros Hd. unfold kaiming_uniform_. destruct (existsb (Nat.eqb 0) (shape t)).
  - unfold ret; eauto.
  - unfold bind, lift, _calculate_fan_in_and_fan_out.
    apply Nat.ltb_ge in Hd. rewrite Hd. apply uniform_total.
Qed.

Lemma Linear_init_inv i o g l g' :
  Linear.__init__ i o g = Ok (l, g') ->
  Linear.in_features l = i /\ Linear.out_features l = o /\
  shape (Linear.weight l) = [Z.to_nat o; Z.to_nat i] /\
  shape (Linear.bias l) = [Z.to_nat o] /\
  filled (Linear.weight l) /\ filled (Linear.bias l) /\ (0 <= i)%Z /\ (0 <= o)%Z.
Proof.
  unfold Linear.__init__. intros H.
  apply bind_inv in H as (w0 & g1 & H0 & H). apply lift_inv in H0 as [H0 ->].
  apply bind_inv in H as (b0 & g2 & H1 & H). apply lift_inv in H1 as [H1 ->].
  apply bind_inv in H as (w1 & g3 & H2 & H).
  apply bind_inv in H as (fans & g4 & H3 & H).
  apply bind_inv in H as (b1 & g5 & H4 & H).
  apply ret_inv in H as [-> _]. simpl.
  apply torch_empty_inv in H0 as (D & S0 & F0), H1 as (_ & S1 & F1).
  apply kaiming_inv in H2 as (S2 & F2); [|assumption].
  apply uniform_inv in H4 as (S4 & F4 & _).
  inversion D as [|? ? Do D']; subst. inversion D' as [|? ? Di _]; subst.
  simpl in S0, S1. repeat split; try assumption; congruence.
Qed.

Lemma Linear_init_total i o g :
  (0 <= i)%Z -> (0 <= o)%Z -> exists l g', Linear.__init__ i o g = Ok (l, g').
Proof.
  intros Hi Ho. unfold Linear.__init__.
  destruct (torch_empty_total [o; i]) as (w0 & E0); [repeat constructor; lia|].
  destruct (torch_empty_total [o]) as (b0 & E1); [repeat constructor; lia|].
  pose proof (torch_empty_inv _ _ E0) as (_ & S0 & F0).
  unfold bind at 1, lift at 1. rewrite E0. unfold bind at 1, lift at 1. rewrite E1.
  destruct (kaiming_total w0 g) as (w1 & g1 & E2); [unfold dim; rewrite S0; simpl; lia|].
  pose proof E2 as K. apply kaiming_inv in K as (S2 & _); [|exact F0].
  erewrite bind_ok by exact E2.
  unfold bind at 1, lift, _calculate_fan_in_and_fan_out, dim. rewrite S2, S0. simpl.
  match goal with |- context [uniform_ b0 ?lo ?hi] =>
    destruct (uniform_total b0 lo hi g1) as (b1 & g2 & E3) end.
  erewrite bind_ok by exact E3. unfold ret; eauto.
Qed.

End EmbeddingLinearFacts.

(** ** The initialisation pass and the constructor *)

Section ConstructFacts.
Context {G : Generator}.

Lemma xavier_data_shape t t' g : shape t = shape t' -> xavier_data t g = xavier_data t' g.
Proof. unfold xavier_data, fan_in, fan_out, size. intros ->. reflexivity. Qed.

Lemma init_param_inv name t g t' g' :
  init_ready name (shape t) -> LSTMClassifier.init_param name t g = Ok (t', g') ->
  shape t' = shape t /\ initialised name t' /\
  (weight_name name -> data t' = xavier_data t g).
Proof.
  unfold LSTMClassifier.init_param, initialised.
  intros [(W & a & b & Sh & Hab)|B] H.
  - destruct W as [W1 W2]. rewrite W1 in H. apply xavier_inv in H as (S & F & D).
    repeat split; auto. left. split; [split; auto|]. split.
    + unfold fan_in, fan_out, size. rewrite S, Sh. simpl. lia.
    + exists g. rewrite D. apply xavier_data_shape. congruence.
  - destruct B as [B1 B2]. rewrite B1, B2 in H. apply ret_inv in H as [-> _].
    repeat split.
    + apply zeros_filled.
    + right. split; [split; auto | reflexivity].
    + intros [W _]. congruence.
Qed.

Lemma init_param_total name t g :
  init_ready name (shape t) -> exists t' g', LSTMClassifier.init_param name t g = Ok (t', g').
Proof.
  unfold LSTMClassifier.init_param. intros [([W1 W2] & a & b & S & Hab)|[B1 B2]].
  - rewrite W1. apply xavier_total.
    + unfold dim. rewrite S. simpl. lia.
    + unfold fan_in, fan_out, size. rewrite S. simpl. lia.
  - rewrite B1, B2. unfold ret. eauto.
Qed.

Lemma lstm_sig_ready i h L b :
  (0 < h)%Z ->
  Forall3 (fun s => init_ready ("lstm." ++ fst s) (snd s)) (lstm_sig i h L b).
Proof.
  intros Hh. unfold Forall3, lstm_sig.
  apply Forall_map, Forall_forall. intros layer _.
  apply Forall_map, Forall_forall. intros d _.
  assert (Hw := layer_suffix_no_w layer d). assert (Hb := layer_suffix_no_b layer d).
  unfold group_sig.
  apply Forall_cons; [|apply Forall_cons; [|apply Forall_cons;
    [|apply Forall_cons; [|apply Forall_nil]]]];
    cbn [fst snd]; rewrite append_assoc.
  - left. split.
    + split; [reflexivity|]. simpl. now apply contains_bias_no_b.
    + eexists _, _. split; [reflexivity | lia].
  - left. split.
    + split; [reflexivity|]. simpl. now apply contains_bias_no_b.
    + eexists _, _. split; [reflexivity | lia].
  - right. now apply lstm_bias_ih_name.
  - right. now apply lstm_bias_hh_name.
Qed.

Lemma sig_transport (P : string -> list nat -> Prop) ws E :
  map (map (map sig_of)) ws = E ->
  Forall3 (fun s => P (fst s) (snd s)) E ->
  Forall3 (fun nt => P (fst nt) (shape (snd nt))) ws.
Proof.
  intros <- H. apply Forall3_map in H. exact H.
Qed.

Lemma Dropout_init_inv p d :
  Dropout.__init__ p = Ok d -> Dropout.p d = p /\ Qle_bool 0 p = true /\ Qle_bool p 1 = true.
Proof.
  unfold Dropout.__init__.
  destruct (Qle_bool 0 p); destruct (Qle_bool p 1); simpl; try discriminate.
  intros H; inversion H; auto.
Qed.

Lemma embedding_weight_name : weight_name "embedding.weight".
Proof. split; reflexivity. Qed.

Lemma fc_weight_name : weight_name "fc.weight".
Proof. split; reflexivity. Qed.

Lemma fc_bias_name : bias_name "fc.bias".
Proof. split; reflexivity. Qed.

Lemma init_named_inv name nt g b g' :
  init_ready (name ++ fst nt) (shape (snd nt)) ->
  (w <- LSTMClassifier.init_param (name ++ fst nt) (snd nt) ;; ret (fst nt, w)) g
    = Ok (b, g') ->
  sig_of b = sig_of nt /\ initialised (name ++ fst b) (snd b).
Proof.
  intros R H. apply bind_inv in H as (w & g1 & Hw & H).
  apply ret_inv in H as [-> _]. apply init_param_inv in Hw as (S & I & _); [|exact R].
  unfold sig_of; simpl. rewrite S. auto.
Qed.

(** The loop visits the parameters under the names, and in the order, of
    [named_parameters], and renames nothing. *)
Lemma for_named_parameters_names f m g m' g' :
  LSTMClassifier.for_named_parameters f m g = Ok (m', g') ->
  map fst (LSTMClassifier.named_parameters m')
  = map fst (LSTMClassifier.named_parameters m).
Proof.
  unfold LSTMClassifier.for_named_parameters. intros H.
  apply bind_inv in H as (ew & g1 & _ & H).
  apply bind_inv in H as (lps & g2 & Hl & H).
  apply bind_inv in H as (cw & g3 & _ & H).
  apply bind_inv in H as (cb & g4 & _ & H).
  apply ret_inv in H as [-> _].
  unfold LSTMClassifier.named_parameters, LSTM.flat_weights. simpl.
  f_equal. rewrite !map_app, !map_map. simpl. f_equal.
  assert (E : map (map (map fst)) lps
              = map (map (map fst)) (LSTM.all_weights (LSTMClassifier.lstm m))).
  { eapply mapM3_proj; [|exact Hl]. intros nt ga b gb Hb.
    apply bind_inv in Hb as (w & gw & _ & Hb). apply ret_inv in Hb as [-> _].
    reflexivity. }
  assert (F : map fst (concat (concat lps))
              = map fst (concat (concat (LSTM.all_weights (LSTMClassifier.lstm m)))))
    by (rewrite !concat_map, E; reflexivity).
  set (P := fun n : string => ("lstm." ++ n)%string).
  change (map (fun x : string * Tensor => P (fst x)) (concat (concat lps))
          = map (fun x : string * Tensor => P (fst x))
                (concat (concat (LSTM.all_weights (LSTMClassifier.lstm m))))).
  rewrite <- !(map_map fst P), F. reflexivity.
Qed.

Theorem construct_built c g m g' : construct c g = Ok (m, g') -> built c m.
Proof.
  unfold construct, LSTMClassifier.__init__. intros H.
  apply bind_inv in H as (e & g1 & He & H).
  apply bind_inv in H as (l & g2 & Hl & H).
  apply bind_inv in H as (f & g3 & Hf & H).
  apply bind_inv in H as (d & g4 & Hd & H). apply lift_inv in Hd as [Hd ->].
  apply Embedding_init_inv in He as (E1 & E2 & E3 & E4 & E5 & E6 & E7 & E8).
  apply LSTM_init_inv in Hl as (L1 & L2 & L3 & L4 & L5 & L6 & L7 & _ & L9 & L10).
  apply Linear_init_inv in Hf as (F1 & F2 & F3 & F4 & F5 & F6 & F7 & F8).
  apply Dropout_init_inv in Hd as (D1 & D2 & D3).
  unfold LSTMClassifier._init_weights, LSTMClassifier.for_named_parameters in H.
  simpl in H.
  apply bind_inv in H as (ew & g5 & Hew & H).
  apply bind_inv in H as (lps & g6 & Hlps & H).
  apply bind_inv in H as (cw & g7 & Hcw & H).
  apply bind_inv in H as (cb & g8 & Hcb & H).
  apply ret_inv in H as [-> _].
  assert (Rl : Forall3 (fun nt => init_ready ("lstm." ++ fst nt) (shape (snd nt)))
                 (LSTM.all_weights l)).
  { eapply sig_transport with (P := fun n s => init_ready ("lstm." ++ n) s);
      [exact L6 | apply lstm_sig_ready; assumption]. }
  apply init_param_inv in Hew as (S1 & I1 & _).
  2: { left. split; [apply embedding_weight_name|]. rewrite E4.
       eexists _, _. split; [reflexivity | lia]. }
  assert (HD : (0 < lstm_output_dim c)%Z)
    by (unfold lstm_output_dim; destruct (bidirectional c); lia).
  apply init_param_inv in Hcw as (S2 & I2 & _).
  2: { left. split; [apply fc_weight_name|]. rewrite F3.
       eexists _, _. split; [reflexivity|]. fold (lstm_output_dim c). lia. }
  apply init_param_inv in Hcb as (S3 & I3 & _); [|right; apply fc_bias_name].
  constructor; simpl; try congruence; try assumption.
  - unfold accepted_config. repeat split; try lia; assumption.
  - transitivity (map (map (map sig_of)) (LSTM.all_weights l)); [|congruence].
    eapply mapM3_proj; [|exact Hlps].
    intros nt ga b gb Hb.
    (* the signature is kept whatever branch the loop body takes *)
    apply bind_inv in Hb as (w & gw & Hw & Hb). apply ret_inv in Hb as [-> _].
    unfold sig_of; simpl. f_equal.
    unfold LSTMClassifier.init_param in Hw.
    destruct (contains "weight" _).
    + apply xavier_inv in Hw. tauto.
    + destruct (contains "bias" _); apply ret_inv in Hw as [-> _]; reflexivity.
  - eapply mapM3_Forall; [|exact Rl|exact Hlps].
    intros nt ga b gb R Hb.
    eapply init_named_inv with (name := "lstm."%string) in Hb; [tauto | exact R].
  - rewrite S2, F3. reflexivity.
Qed.

End ConstructFacts.

Section ConstructTotal.
Context {G : Generator}.

Lemma init_weights_total m g :
  (exists a b, shape (Embedding.weight (LSTMClassifier.embedding m)) = [a; b]
               /\ (a + b <> 0)%nat) ->
  Forall3 (fun nt => init_ready ("lstm." ++ fst nt)%string (shape (snd nt)))
    (LSTM.all_weights (LSTMClassifier.lstm m)) ->
  (exists a b, shape (Linear.weight (LSTMClassifier.fc m)) = [a; b]
               /\ (a + b <> 0)%nat) ->
  exists m' g', LSTMClassifier._init_weights m g = Ok (m', g').
Proof.
  intros He Hl Hf.
  unfold LSTMClassifier._init_weights, LSTMClassifier.for_named_parameters.
  destruct (init_param_total "embedding.weight"%string
              (Embedding.weight (LSTMClassifier.embedding m)) g) as (ew & g1 & E1).
  { left. split; [apply embedding_weight_name | exact He]. }
  erewrite bind_ok by exact E1.
  assert (T : exists lps g2,
    mapM (mapM (mapM (fun nt : string * Tensor =>
                        w <- LSTMClassifier.init_param ("lstm." ++ fst nt)%string (snd nt) ;;
                        ret (fst nt, w))))
         (LSTM.all_weights (LSTMClassifier.lstm m)) g1 = Ok (lps, g2)).
  { eapply mapM3_total; [|exact Hl]. intros nt ga R. cbv beta in R.
    destruct (init_param_total _ (snd nt) ga R) as (w & gb & E).
    erewrite bind_ok by exact E. unfold ret; eauto. }
  destruct T as (lps & g2 & E2).
  erewrite bind_ok by exact E2.
  destruct (init_param_total "fc.weight"%string (Linear.weight (LSTMClassifier.fc m)) g2)
    as (cw & g3 & E3).
  { left. split; [apply fc_weight_name | exact Hf]. }
  erewrite bind_ok by exact E3.
  destruct (init_param_total "fc.bias"%string (Linear.bias (LSTMClassifier.fc m)) g3)
    as (cb & g4 & E4); [right; apply fc_bias_name|].
  erewrite bind_ok by exact E4. unfold ret. eauto.
Qed.

Theorem construct_total c g :
  accepted_config c -> exists m g', construct c g = Ok (m, g').
Proof.
  intros (HV & HE & HH & HO & HP & HL & P0 & P1).
  unfold construct, LSTMClassifier.__init__.
  destruct (Embedding_init_total (vocab_size c) (embedding_dim c) (padding_idx c) g)
    as (e & g1 & Ee); try assumption.
  erewrite bind_ok by exact Ee.
  destruct (LSTM_init_total (embedding_dim c) (hidden_dim c) (num_layers c)
              (if (num_layers c >? 1)%Z then dropout_rate c else 0%Q)
              (bidirectional c) g1) as (l & g2 & El); try assumption; try lia.
  { destruct (num_layers c >? 1)%Z; [assumption | reflexivity]. }
  { destruct (num_layers c >? 1)%Z; [assumption | reflexivity]. }
  erewrite bind_ok by exact El.
  assert (HD : (0 < lstm_output_dim c)%Z)
    by (unfold lstm_output_dim; destruct (bidirectional c); lia).
  destruct (Linear_init_total (lstm_output_dim c) (output_dim c) g2)
    as (f & g3 & Ef); try lia.
  unfold lstm_output_dim in Ef. erewrite bind_ok by exact Ef.
  unfold bind at 1, lift, Dropout.__init__. rewrite P0, P1. simpl.
  apply Embedding_init_inv in Ee as (_ & _ & _ & E4 & _).
  apply LSTM_init_inv in El as (_ & _ & _ & _ & _ & L6 & _).
  apply Linear_init_inv in Ef as (_ & _ & F3 & _).
  apply init_weights_total; simpl.
  - rewrite E4. eexists _, _. split; [reflexivity | lia].
  - eapply sig_transport with (P := fun n s => init_ready ("lstm." ++ n)%string s);
      [exact L6 | apply lstm_sig_ready; assumption].
  - rewrite F3. eexists _, _. split; [reflexivity|]. fold (lstm_output_dim c). lia.
Qed.

Lemma valid_accepted c : valid_config c -> accepted_config c.
Proof.
  intros (HV & HE & HH & HO & HP & HL & P0 & P1).
  unfold accepted_config. repeat split; try lia; try assumption.
  (* dropout_rate < 1 gives dropout_rate <= 1 *)
  destruct (Qle_bool (dropout_rate c) 1) eqn:E; [reflexivity|].
  exfalso. assert (A : ~ (dropout_rate c <= 1)%Q) by (rewrite <- Qle_bool_iff; congruence).
  assert (B : ~ (1 <= dropout_rate c)%Q) by (rewrite <- Qle_bool_iff; congruence).
  apply Qnot_le_lt in A, B. apply (Qlt_irrefl 1). eapply Qlt_trans; eauto.
Qed.

End ConstructTotal.

(* ================================================================== *)
(** * Construction: which configurations are rejected *)

Lemma ok_not_fails {A} (r : result A) : (exists a, r = Ok a) -> ~ fails r.
Proof. intros (a & ->) (e & H). discriminate. Qed.

Lemma accepted_not_fails {G : Generator} c g : accepted_config c -> ~ fails (construct c g).
Proof.
  intros A. apply ok_not_fails.
  destruct (construct_total c g A) as (m & g' & E). eauto.
Qed.

(** C2, as stated, fails: three configurations that the claim lists as
    invalid are constructed without error (dropout probability 1, padding
    index -1, output_dim 0). *)
Lemma C2_invalid_configs_accepted :
  (claimed_invalid cfg_dropout_one
   /\ ~ fails (@construct counter_generator cfg_dropout_one 0%nat))
  /\ (claimed_invalid cfg_negative_padding
      /\ ~ fails (@construct counter_generator cfg_negative_padding 0%nat))
  /\ (claimed_invalid cfg_no_class
      /\ ~ fails (@construct counter_generator cfg_no_class 0%nat)).
Proof.
  repeat split.
  - right; right; right. simpl. intros [_ H]. exact (Qlt_irrefl 1 H).
  - apply accepted_not_fails. unfold accepted_config; simpl.
    repeat split; try lia; reflexivity.
  - right; left. simpl. lia.
  - apply accepted_not_fails. unfold accepted_config; simpl.
    repeat split; try lia; reflexivity.
  - right; right; left. simpl. lia.
  - apply accepted_not_fails. unfold accepted_config; simpl.
    repeat split; try lia; reflexivity.
Qed.

(** C2, amended: construction raises whenever the vocabulary size is not
    positive, or the padding index is outside [-vocab_size, vocab_size), or
    output_dim is negative, or the dropout probability is a number outside
    the closed interval [0,1]; and a configuration that is accepted is stored
    as given, without clamping (a negative padding index is counted from the
    end).  The dropout probability ranges over numbers, as [Config] has it:
    the statement does not cover NaN. *)
Theorem C2_construct_rejects (G : Generator) (c : Config) (g : rng) :
  (rejected_config c -> fails (construct c g))
  /\ (forall m g', construct c g = Ok (m, g') ->
        Embedding.num_embeddings (LSTMClassifier.embedding m) = vocab_size c
        /\ Linear.out_features (LSTMClassifier.fc m) = output_dim c
        /\ Dropout.p (LSTMClassifier.dropout m) = dropout_rate c
        /\ Embedding.padding_idx (LSTMClassifier.embedding m)
           = (if (padding_idx c <? 0)%Z then vocab_size c + padding_idx c
              else padding_idx c)%Z).
Proof.
  split.
  - intros Rj. destruct (construct c g) as [[m g']|e] eqn:E; [|exists e; reflexivity].
    exfalso. apply construct_built in E. destruct (b_accepted _ _ E)
      as (HV & HE & HH & HO & HP & HL & P0 & P1).
    apply Qle_bool_iff in P0, P1.
    destruct Rj as [R|[R|[R|R]]]; [lia | apply R; lia | lia | apply R; auto].
  - intros m g' E. apply construct_built in E. destruct E. auto.
Qed.

Lemma C2_construct_rejects_witness :
  fails (@construct counter_generator (mkConfig 0 8 16 2 0 false 2 (1 # 2)) 0%nat).
Proof.
  apply (proj1 (C2_construct_rejects counter_generator
                  (mkConfig 0 8 16 2 0 false 2 (1 # 2)) 0%nat)).
  left. simpl. lia.
Defined.

(* ================================================================== *)
(** * Construction: the projection head and the encoder's dropout *)

Lemma cfg_small_valid : valid_config cfg_small.
Proof. unfold valid_config; simpl. repeat split; try lia; reflexivity. Qed.

(** C4: for every valid configuration the constructor succeeds and the
    projection head it builds has input dimension [hidden_dim] when
    unidirectional and [2 * hidden_dim] when bidirectional, both as the
    [in_features] attribute and as the second dimension of the weight;
    switching between training and inference mode leaves the head alone. *)
Theorem C4_projection_input_dim (G : Generator) (c : Config) (g : rng) :
  valid_config c ->
  exists m g',
    construct c g = Ok (m, g')
    /\ Linear.in_features (LSTMClassifier.fc m)
       = (if bidirectional c then 2 * hidden_dim c else hidden_dim c)%Z
    /\ Z.of_nat (size (Linear.weight (LSTMClassifier.fc m)) 1)
       = (if bidirectional c then 2 * hidden_dim c else hidden_dim c)%Z
    /\ LSTMClassifier.fc (LSTMClassifier.eval m) = LSTMClassifier.fc m
    /\ LSTMClassifier.fc (LSTMClassifier.train m) = LSTMClassifier.fc m.
Proof.
  intros V. destruct (construct_total c g (valid_accepted c V)) as (m & g' & E).
  exists m, g'. split; [exact E|]. apply construct_built in E. destruct E.
  destruct V as (_ & _ & HH & _).
  unfold size. rewrite b_fc_in0, b_fc_wshape0. unfold lstm_output_dim. cbn [nth].
  destruct (bidirectional c); repeat split; try reflexivity; lia.
Qed.

Lemma C4_projection_input_dim_witness :
  exists m g',
    @construct counter_generator cfg_small_bidirectional 0%nat = Ok (m, g')
    /\ Linear.in_features (LSTMClassifier.fc m) = 32%Z
    /\ Z.of_nat (size (Linear.weight (LSTMClassifier.fc m)) 1) = 32%Z
    /\ LSTMClassifier.fc (LSTMClassifier.eval m) = LSTMClassifier.fc m
    /\ LSTMClassifier.fc (LSTMClassifier.train m) = LSTMClassifier.fc m.
Proof.
  refine (C4_projection_input_dim counter_generator cfg_small_bidirectional 0%nat _).
  unfold valid_config; simpl. repeat split; try lia; reflexivity.
Defined.

(* ================================================================== *)
(** * Construction: what the initialisation pass leaves in the parameters *)

Lemma xavier_bound_pos fi fo : (fi + fo <> 0)%nat -> (0 < xavier_bound fi fo)%R.
Proof.
  intros H. unfold xavier_bound.
  assert (0 < INR (fi + fo))%R by (apply lt_0_INR; lia).
  assert (0 < sqrt 3)%R by (apply sqrt_lt_R0; lra).
  assert (0 < sqrt (2 / INR (fi + fo)))%R.
  { apply sqrt_lt_R0. apply Rdiv_lt_0_compat; lra. }
  nra.
Qed.

(** An entry of a Xavier refill is zero only for the draw 1/2. *)
Lemma xavier_entry_zero a u : (0 < a)%R -> (- a + u * (a - - a) = 0)%R -> u = (1 / 2)%R.
Proof. intros Ha H. nra. Qed.

Lemma zeroed_row (d rest : list R) (k c : nat) :
  (k * c <= length d)%nat ->
  firstn c (skipn (k * c) (firstn (k * c) d ++ repeat 0%R c ++ rest)) = repeat 0%R c.
Proof.
  intros L. rewrite skipn_app, length_firstn, Nat.min_l by exact L.
  rewrite skipn_all2 by (rewrite length_firstn; lia).
  rewrite Nat.sub_diag. simpl.
  rewrite firstn_app, repeat_length, Nat.sub_diag. simpl.
  rewrite firstn_all2 by (rewrite repeat_length; lia). apply app_nil_r.
Qed.

Section InitialisedFacts.
Context {G : Generator}.

Lemma built_named_parameters c m :
  built c m ->
  Forall (fun nt => initialised (fst nt) (snd nt)) (LSTMClassifier.named_parameters m).
Proof.
  intros B. destruct B. unfold LSTMClassifier.named_parameters.
  constructor; [assumption|]. apply Forall_app. split.
  - rewrite Forall_map. unfold LSTM.flat_weights.
    apply (proj1 (Forall3_concat _ _ _)). exact b_lstm_init0.
  - apply Forall_cons; [assumption|]. apply Forall_cons; [assumption|]. apply Forall_nil.
Qed.

(** Before [_init_weights] runs, the library has zeroed the padding row. *)
Lemma Embedding_init_zero_padding_row V E pad g e g' :
  Embedding.__init__ V E pad g = Ok (e, g') ->
  row (Embedding.weight e) (Z.to_nat (Embedding.padding_idx e))
  = repeat 0%R (Z.to_nat E).
Proof.
  intros H. pose proof (Embedding_init_inv _ _ _ _ _ _ H)
    as (_ & _ & Hp & _ & _ & HV & HE & Hr).
  unfold Embedding.__init__ in H.
  apply bind_inv in H as (pad' & g1 & Hpad & H).
  apply bind_inv in H as (w0 & g2 & H0 & H). apply lift_inv in H0 as [H0 ->].
  apply bind_inv in H as (w1 & g3 & H1 & H).
  apply bind_inv in H as (w2 & g4 & H2 & H). apply lift_inv in H2 as [H2 ->].
  apply ret_inv in H as [-> _]. simpl in *. subst pad'.
  apply torch_empty_inv in H0 as (_ & S0 & _).
  apply normal_inv in H1 as (S1 & F1). rewrite S0 in S1. simpl in S1.
  destruct w1 as [s1 x1]. simpl in S1. subst s1. unfold filled in F1. simpl in F1.
  unfold fill_row_zero, size in H2. simpl in H2.
  destruct (_ || _)%bool; [discriminate|]. inversion H2; subst w2; clear H2.
  set (p := (if (pad <? 0)%Z then V + pad else pad)%Z) in *.
  assert (Hk : (Z.to_nat p < Z.to_nat V)%nat)
    by (subst p; destruct (pad <? 0)%Z eqn:Ep;
        [apply Z.ltb_lt in Ep | apply Z.ltb_ge in Ep]; lia).
  replace (Z.to_nat (if (p <? 0)%Z then Z.of_nat (Z.to_nat V) + p else p))
    with (Z.to_nat p)
    by (subst p; destruct (pad <? 0)%Z eqn:Ep;
        [apply Z.ltb_lt in Ep | apply Z.ltb_ge in Ep];
        match goal with |- context [(?x <? 0)%Z] =>
          replace (x <? 0)%Z with false by (symmetry; apply Z.ltb_ge; lia) end;
        reflexivity).
  unfold row, size. simpl. apply zeroed_row. nia.
Qed.

(** After construction the whole embedding table, padding row included,
    holds the draws of the Xavier refill. *)
Lemma built_embedding_xavier c m :
  built c m ->
  exists g0 : rng,
    data (Embedding.weight (LSTMClassifier.embedding m))
    = xavier_data (Embedding.weight (LSTMClassifier.embedding m)) g0.
Proof.
  intros B. destruct (b_emb_init _ _ B) as (_ & [(_ & _ & H)|([W _] & _)]).
  - exact H.
  - discriminate W.
Qed.

End InitialisedFacts.

(** The counter generator: its draws, and the entries of a Xavier refill
    made from it, none of which is zero. *)
Lemma counter_sample n : forall k : nat,
  fst (@sample counter_generator rand n k)
  = map (fun j => (INR (2 * (j mod 4) + 1) / 8)%R) (seq k n).
Proof.
  induction n as [|n IH]; intros k; [reflexivity|].
  specialize (IH (S k)). cbn [sample seq map].
  change (@rand counter_generator k) with (counter_rand k). unfold counter_rand at 1.
  destruct (@sample counter_generator rand n (S k)) as [us g2].
  cbn [fst] in *. now rewrite IH.
Qed.

Lemma counter_draw_not_half (k : nat) : (INR (2 * (k mod 4) + 1) / 8 <> 1 / 2)%R.
Proof.
  intros E. assert (E4 : INR (2 * (k mod 4) + 1) = INR 4).
  { change (INR 4) with (1 + 1 + 1 + 1)%R. lra. }
  apply INR_eq in E4. lia.
Qed.

Lemma counter_xavier_nth (t : Tensor) (g0 j : nat) :
  (j < numel (shape t))%nat ->
  nth j (@xavier_data counter_generator t g0) 0%R
  = (let a := xavier_bound (fan_in t) (fan_out t) in
     - a + (INR (2 * ((g0 + j) mod 4) + 1) / 8) * (a - - a))%R.
Proof.
  intros Hj. unfold xavier_data. simpl rand. rewrite counter_sample, map_map.
  set (f := fun x : nat => _).
  rewrite (nth_indep _ _ (f 0%nat)) by (rewrite length_map, length_seq; exact Hj).
  rewrite map_nth, seq_nth by exact Hj. reflexivity.
Qed.

Lemma counter_xavier_nth_nonzero (t : Tensor) (g0 j : nat) :
  (j < numel (shape t))%nat -> (fan_in t + fan_out t <> 0)%nat ->
  nth j (@xavier_data counter_generator t g0) 0%R <> 0%R.
Proof.
  intros Hj Hf E. rewrite counter_xavier_nth in E by exact Hj. cbv zeta in E.
  apply xavier_entry_zero in E; [|apply xavier_bound_pos; exact Hf].
  exact (counter_draw_not_half _ E).
Qed.

Lemma row_nth (t : Tensor) (i j : nat) :
  (j < size t 1)%nat ->
  nth j (row t i) 0%R = nth (i * size t 1 + j) (data t) 0%R.
Proof.
  intros Hj. unfold row. rewrite nth_firstn, nth_skipn.
  apply Nat.ltb_lt in Hj. now rewrite Hj.
Qed.

Lemma counter_xavier_row_nonzero (t : Tensor) (a b g0 i : nat) :
  shape t = [a; b] -> (1 <= b)%nat -> (i < a)%nat ->
  data t = @xavier_data counter_generator t g0 ->
  row t i <> repeat 0%R b.
Proof.
  intros Sh Hb Hi D Hrow.
  assert (Sz : size t 1 = b) by (unfold size; rewrite Sh; reflexivity).
  assert (Nm : numel (shape t) = (a * b)%nat) by (rewrite Sh; simpl; lia).
  assert (E : nth 0 (row t i) 0%R = 0%R).
  { rewrite Hrow. destruct (nth_in_or_default 0 (repeat 0%R b) 0%R) as [H|H];
      [now apply repeat_spec in H | exact H]. }
  rewrite row_nth, Sz, D in E by lia.
  revert E. apply counter_xavier_nth_nonzero; [rewrite Nm; nia|].
  unfold fan_in, fan_out, size. rewrite Sh. simpl. lia.
Qed.

(** C1 fails on the code: for the configuration of the end-to-end scenario
    (vocab_size 50, embedding_dim 8, hidden_dim 16, output_dim 2, padding_idx
    0, one unidirectional layer, dropout 0.5) construction succeeds and the
    embedding row at the padding index is not the zero vector: the blanket
    Xavier refill of [_init_weights] overwrites the row that [nn.Embedding]
    had zeroed. *)
Theorem C1_padding_row_overwritten :
  exists m g',
    @construct counter_generator cfg_small 0%nat = Ok (m, g')
    /\ Embedding.padding_idx (LSTMClassifier.embedding m) = 0%Z
    /\ row (Embedding.weight (LSTMClassifier.embedding m)) 0 <> repeat 0%R 8.
Proof.
  destruct (@construct_total counter_generator cfg_small 0%nat
              (valid_accepted _ cfg_small_valid)) as (m & g' & E).
  exists m, g'. split; [exact E|]. apply construct_built in E.
  destruct (built_embedding_xavier _ _ E) as (g0 & D). split.
  - rewrite (b_emb_pad _ _ E). reflexivity.
  - apply (counter_xavier_row_nonzero _ 50 8 g0 0); try lia; [|exact D].
    rewrite (b_emb_shape _ _ E). reflexivity.
Qed.

Lemma xavier_data_zero {G : Generator} (t : Tensor) (g0 : rng) :
  (fan_in t + fan_out t <> 0)%nat ->
  Forall (fun x => x = 0%R) (xavier_data t g0) ->
  Forall (fun u => u = (1 / 2)%R) (fst (sample rand (numel (shape t)) g0)).
Proof.
  intros Hf. unfold xavier_data. rewrite Forall_map.
  apply Forall_impl. intros u Hu.
  apply (xavier_entry_zero (xavier_bound (fan_in t) (fan_out t)));
    [apply xavier_bound_pos; exact Hf | exact Hu].
Qed.

(** C3: for every valid configuration the constructor succeeds and, among
    the named parameters of the model it returns, every tensor whose name
    contains "bias" is exactly zero in every entry, and every tensor whose
    name contains "weight" holds a Xavier-uniform refill — the entries are
    [-a + u * 2a] for successive uniform draws [u], with [a] the Xavier bound
    of the tensor's fans — so that it is uniformly zero only if every one of
    its draws is exactly 1/2. *)
Theorem C3_initialisation_policy (G : Generator) (c : Config) (g : rng) :
  valid_config c ->
  exists m g',
    construct c g = Ok (m, g')
    /\ forall name t,
         In (name, t) (LSTMClassifier.named_parameters m) ->
         (contains "bias" name = true ->
            filled t /\ Forall (fun x => x = 0%R) (data t))
         /\ (contains "weight" name = true ->
               filled t
               /\ exists g0 : rng,
                    data t = xavier_data t g0
                    /\ (Forall (fun x => x = 0%R) (data t) ->
                        Forall (fun u => u = (1 / 2)%R)
                               (fst (sample rand (numel (shape t)) g0)))).
Proof.
  intros V. destruct (construct_total c g (valid_accepted c V)) as (m & g' & E).
  exists m, g'. split; [exact E|]. apply construct_built in E.
  pose proof (built_named_parameters c m E) as F. rewrite Forall_forall in F.
  intros name t Hin. specialize (F _ Hin). simpl in F.
  destruct F as (Fl & [([W1 W2] & Hf & g0 & D)|([B1 B2] & D)]).
  - split; [intros Hb; congruence|]. intros _. split; [exact Fl|].
    exists g0. split; [exact D|]. rewrite D at 1. apply xavier_data_zero, Hf.
  - split; [|intros Hw; congruence]. intros _. split; [exact Fl|].
    rewrite D. apply Forall_forall. intros x Hx. now apply repeat_spec in Hx.
Qed.

Lemma C3_initialisation_policy_witness :
  exists m g',
    @construct counter_generator cfg_small 0%nat = Ok (m, g')
    /\ forall name t,
         In (name, t) (LSTMClassifier.named_parameters m) ->
         (contains "bias" name = true ->
            filled t /\ Forall (fun x => x = 0%R) (data t))
         /\ (contains "weight" name = true ->
               filled t
               /\ exists g0 : nat,
                    data t = @xavier_data counter_generator t g0
                    /\ (Forall (fun x => x = 0%R) (data t) ->
                        Forall (fun u => u = (1 / 2)%R)
                               (fst (@sample counter_generator rand
                                       (numel (shape t)) g0)))).
Proof.
  refine (C3_initialisation_policy counter_generator cfg_small 0%nat _).
  unfold valid_config; simpl. repeat split; try lia; reflexivity.
Defined.

(* ================================================================== *)
(** * The forward pass *)

(** ** Shapes of activations *)

Lemma map2_length {A B C} (f : A -> B -> C) : forall l l',
  length (map2 f l l') = Nat.min (length l) (length l').
Proof.
  induction l as [|a l IH]; intros [|b l']; simpl; auto.
Qed.

Lemma map2_Forall {A B C} (f : A -> B -> C) (P : C -> Prop) : forall l l',
  (forall a b, In a l -> In b l' -> P (f a b)) -> Forall P (map2 f l l').
Proof.
  induction l as [|a l IH]; intros [|b l'] H; simpl; constructor.
  - apply H; left; reflexivity.
  - apply IH. intros; apply H; right; assumption.
Qed.

Lemma matvec_length w x : length (matvec w x) = size w 0.
Proof. unfold matvec, rows. now rewrite !length_map, length_seq. Qed.

Lemma chunk_length k H v :
  ((k + 1) * H <= length v)%nat -> length (LSTM.chunk k H v) = H.
Proof.
  intros L. unfold LSTM.chunk. rewrite length_firstn, length_skipn. nia.
Qed.

Lemma lstm_cell_ok ps H x hc :
  group_ok H ps -> pair_ok H hc -> pair_ok H (LSTM.lstm_cell ps H x hc).
Proof.
  intros (G0 & G1 & G2 & G3) [Hh Hc]. destruct hc as [h c]. simpl in Hh, Hc.
  unfold LSTM.lstm_cell, pair_ok.
  set (gates := vadd _ _).
  assert (Lg : length gates = (4 * H)%nat).
  { subst gates. unfold vadd. rewrite !map2_length, !matvec_length. lia. }
  simpl. unfold vadd, vmul.
  rewrite !map2_length, !length_map, !map2_length, !length_map, !chunk_length by lia.
  lia.
Qed.

Lemma run_cell_ok (cell : vec -> vec * vec -> vec * vec) H :
  (forall x hc, pair_ok H hc -> pair_ok H (cell x hc)) ->
  forall xs hc, pair_ok H hc ->
    pair_ok H (snd (LSTM.run_cell cell xs hc))
    /\ length (fst (LSTM.run_cell cell xs hc)) = length xs
    /\ Forall (fun v => length v = H) (fst (LSTM.run_cell cell xs hc)).
Proof.
  intros Hcell. induction xs as [|x xs IH]; intros hc Hhc; simpl.
  - repeat split; try apply Hhc. constructor.
  - specialize (IH (cell x hc) (Hcell x hc Hhc)).
    destruct (LSTM.run_cell cell xs (cell x hc)) as [outs fin]. simpl in *.
    destruct IH as (I1 & I2 & I3). repeat split; try apply I1; [lia|].
    constructor; [apply (Hcell x hc Hhc) | exact I3].
Qed.

Lemma direction_pass_ok ps H direction xs hc :
  group_ok H ps -> pair_ok H hc ->
  pair_ok H (snd (LSTM.direction_pass ps H direction xs hc))
  /\ length (fst (LSTM.direction_pass ps H direction xs hc)) = length xs
  /\ Forall (fun v => length v = H) (fst (LSTM.direction_pass ps H direction xs hc)).
Proof.
  intros Gk Hhc. unfold LSTM.direction_pass.
  destruct (direction =? 0)%nat.
  - apply run_cell_ok; [intros; now apply lstm_cell_ok | exact Hhc].
  - pose proof (run_cell_ok (LSTM.lstm_cell ps H) H
                  (fun x hc0 => lstm_cell_ok ps H x hc0 Gk) (rev xs) hc Hhc)
      as (I1 & I2 & I3).
    destruct (LSTM.run_cell (LSTM.lstm_cell ps H) (rev xs) hc) as [outs fin].
    simpl in *. rewrite length_rev in *. repeat split; try apply I1; [lia|].
    apply Forall_rev. exact I3.
Qed.

Lemma direction_batch_ok H b input d ps hc0 :
  group_ok H ps -> state_ok b H hc0 -> length input = b ->
  state_ok b H (snd (LSTM.direction_batch H input (d, ps) hc0))
  /\ length (fst (LSTM.direction_batch H input (d, ps) hc0)) = b.
Proof.
  intros Gk [[L1 F1] [L2 F2]] Li. unfold LSTM.direction_batch.
  set (rs := map2 _ _ _).
  assert (Lr : length rs = b).
  { subst rs. rewrite map2_length, length_combine. lia. }
  assert (Fr : Forall (fun r => pair_ok H (snd r)) rs).
  { subst rs. apply map2_Forall. intros xs [h c] _ Hin.
    apply direction_pass_ok; [exact Gk|].
    rewrite Forall_forall in F1, F2. split; simpl.
    - apply F1. eapply in_combine_l; eauto.
    - apply F2. eapply in_combine_r; eauto. }
  unfold state_ok, shape2. cbn [fst snd]. rewrite !length_map, !Forall_map.
  repeat split; try exact Lr;
    (eapply Forall_impl; [|exact Fr]); intros r Hr; apply Hr.
Qed.

Lemma cat_features_length b : forall outs : list (list (list vec)),
  outs <> [] -> Forall (fun o => length o = b) outs ->
  length (LSTM.cat_features outs) = b.
Proof.
  induction outs as [|o outs IH]; intros Hne F; [congruence|].
  apply Forall_cons_iff in F as [Ho Fo]. destruct outs as [|o' outs]; [exact Ho|].
  assert (E : length (LSTM.cat_features (o' :: outs)) = b)
    by (apply IH; [discriminate | exact Fo]).
  change (length (map2 (map2 (@app R)) o (LSTM.cat_features (o' :: outs))) = b).
  remember (LSTM.cat_features (o' :: outs)) as rest.
  rewrite map2_length, Ho, E. apply Nat.min_id.
Qed.

Lemma run_layer_ok H b layer hc0 input :
  layer <> [] -> Forall (group_ok H) layer ->
  length hc0 = length layer -> Forall (state_ok b H) hc0 -> length input = b ->
  length (fst (LSTM.run_layer H layer hc0 input)) = b
  /\ length (snd (LSTM.run_layer H layer hc0 input)) = length layer
  /\ Forall (state_ok b H) (snd (LSTM.run_layer H layer hc0 input)).
Proof.
  intros Hne Gk Lh Fh Li. unfold LSTM.run_layer.
  set (rs := map2 _ _ _).
  assert (Lr : length rs = length layer).
  { subst rs. rewrite map2_length, length_combine, length_seq. lia. }
  assert (Fr : Forall (fun r => state_ok b H (snd r) /\ length (fst r) = b) rs).
  { subst rs. apply map2_Forall. intros [d ps] hc Hin Hhc.
    rewrite Forall_forall in Gk, Fh.
    apply direction_batch_ok; [|apply Fh; exact Hhc|exact Li].
    apply Gk. eapply in_combine_r; eauto. }
  cbn [fst snd]. rewrite length_map, Forall_map. repeat split; try exact Lr.
  - apply cat_features_length.
    + destruct rs; [|discriminate]. destruct layer; [congruence | discriminate].
    + rewrite Forall_map. eapply Forall_impl; [|exact Fr]. intros r Hr; apply Hr.
  - eapply Forall_impl; [|exact Fr]. intros r Hr; apply Hr.
Qed.

(** ** Dropout and the embedding lookup *)

Lemma mapR_ok {A B} (f : A -> result B) (h : A -> B) : forall l,
  (forall a, In a l -> f a = Ok (h a)) -> mapR f l = Ok (map h l).
Proof.
  induction l as [|a l IH]; intros H; simpl; [reflexivity|].
  rewrite (H a (or_introl eq_refl)), IH; [reflexivity|].
  intros; apply H; right; assumption.
Qed.

Lemma mapR_raise {A B} (f : A -> result B) (e : exn) : forall l,
  (forall a e', f a = Raise e' -> e' = e) ->
  Exists (fun a => exists e', f a = Raise e') l -> mapR f l = Raise e.
Proof.
  intros l He Hex. induction Hex as [a l (e' & Ha)|a l Hex IH]; simpl.
  - rewrite Ha. now rewrite (He a e' Ha).
  - destruct (f a) as [b|e'] eqn:Ea; [|now rewrite (He a e' Ea)].
    now rewrite IH.
Qed.

Lemma row_length (t : Tensor) (a b i : nat) :
  shape t = [a; b] -> filled t -> (i < a)%nat -> length (row t i) = b.
Proof.
  intros S F Hi. unfold row, size, filled in *. rewrite S in *. simpl in *.
  rewrite length_firstn, length_skipn, F. nia.
Qed.

Lemma Embedding_forward_ok (e : Embedding.t) (V E : nat) x b s :
  shape (Embedding.weight e) = [V; E] -> filled (Embedding.weight e) ->
  valid_input (Z.of_nat V) x b s ->
  Embedding.forward e x
  = Ok (map (map (fun i => row (Embedding.weight e) (Z.to_nat i))) x)
  /\ shape3 (map (map (fun i => row (Embedding.weight e) (Z.to_nat i))) x) b s E.
Proof.
  intros S F (Lx & Hs & Fx). rewrite Forall_forall in Fx. split.
  - unfold Embedding.forward. apply mapR_ok. intros xs Hxs.
    apply mapR_ok. intros i Hi. destruct (Fx xs Hxs) as [_ Fi].
    rewrite Forall_forall in Fi. specialize (Fi i Hi).
    unfold Embedding.lookup, size. rewrite S. simpl.
    replace ((i <? 0) || (Z.of_nat V <=? i))%Z with false; [reflexivity|].
    symmetry. apply orb_false_iff. rewrite Z.ltb_ge, Z.leb_gt. lia.
  - unfold shape3. rewrite length_map. split; [exact Lx|].
    rewrite Forall_map. apply Forall_forall. intros xs Hxs.
    destruct (Fx xs Hxs) as [Ls Fi]. rewrite length_map. split; [exact Ls|].
    rewrite Forall_map. eapply Forall_impl; [|exact Fi]. intros i Hi.
    cbv beta in Hi. apply (row_length _ V E); [exact S | exact F | lia].
Qed.

Lemma Embedding_forward_out_of_range (e : Embedding.t) x :
  Exists (Exists (fun i => (i < 0)%Z
                           \/ (Z.of_nat (size (Embedding.weight e) 0) <= i)%Z)) x ->
  Embedding.forward e x = Raise IndexError.
Proof.
  intros H. unfold Embedding.forward.
  assert (Hl : forall i e', Embedding.lookup e i = Raise e' -> e' = IndexError).
  { intros i e'. unfold Embedding.lookup. destruct (_ || _); congruence. }
  assert (Hm : forall xs e', mapR (Embedding.lookup e) xs = Raise e' -> e' = IndexError).
  { induction xs as [|i xs IH]; simpl; intros e' He; [discriminate|].
    destruct (Embedding.lookup e i) eqn:Ei; [|inversion He; subst; eauto].
    destruct (mapR (Embedding.lookup e) xs) eqn:Em; [discriminate|].
    inversion He; subst. eauto. }
  apply mapR_raise; [exact Hm|].
  eapply Exists_impl; [|exact H]. intros xs Hxs. exists IndexError.
  apply mapR_raise; [exact Hl|].
  eapply Exists_impl; [|exact Hxs]. intros i Hi. exists IndexError.
  unfold Embedding.lookup.
  replace ((i <? 0) || (Z.of_nat (size (Embedding.weight e) 0) <=? i))%Z with true;
    [reflexivity|].
  symmetry. apply orb_true_iff. rewrite Z.ltb_lt, Z.leb_le. exact Hi.
Qed.

Section DropoutFacts.
Context {G : Generator}.

Lemma F_dropout_eval input p g : F_dropout input p false g = Ok (input, g).
Proof. reflexivity. Qed.

Lemma F_dropout_total input p tr g : exists out g', F_dropout input p tr g = Ok (out, g').
Proof.
  unfold F_dropout. destruct (negb tr || Qeq_bool p 0); [unfold ret; eauto|].
  destruct (Qeq_bool p 1); [unfold ret; eauto|].
  apply mapM_total. intros xs g1 _. apply mapM_total. intros v g2 _.
  apply mapM_total. intros a g3 _. unfold drop_entry.
  destruct (rand g3). eauto.
Qed.

Lemma F_dropout_lengths input p tr g out g' :
  F_dropout input p tr g = Ok (out, g') ->
  map (map (@length R)) out = map (map (@length R)) input.
Proof.
  unfold F_dropout. destruct (negb tr || Qeq_bool p 0).
  - intros H. apply ret_inv in H as [-> _]. reflexivity.
  - destruct (Qeq_bool p 1).
    + intros H. apply ret_inv in H as [-> _].
      rewrite map_map. apply map_ext. intros xs. rewrite map_map.
      apply map_ext. intros v. apply length_map.
    + apply mapM_proj. intros xs g1 ys g2 _. apply mapM_proj.
      intros v g3 w g4 _. apply mapM_length.
Qed.

Lemma lengths_shape3 (a b : list (list vec)) n s f :
  map (map (@length R)) a = map (map (@length R)) b -> shape3 b n s f -> shape3 a n s f.
Proof.
  intros E [L F]. unfold shape3.
  assert (La : length a = length b)
    by (rewrite <- (length_map (map (@length R)) a), E; apply length_map).
  split; [lia|]. clear L La. revert b E F.
  induction a as [|xs a IH]; intros [|ys b] E F; try discriminate; constructor.
  - simpl in E. inversion E as [[E1 E2]]. apply Forall_cons_iff in F as [[Ls Fv] _].
    split.
    + rewrite <- (length_map (@length R) xs), E1. now rewrite length_map.
    + assert (Fm : Forall (fun k => k = f) (map (@length R) xs)).
      { rewrite E1, Forall_map. exact Fv. }
      now rewrite Forall_map in Fm.
  - simpl in E. inversion E. apply Forall_cons_iff in F as [_ F]. eapply IH; eauto.
Qed.

End DropoutFacts.

(** ** The stack of recurrent layers *)

Lemma combine_repeat {A B} (a : A) (b : B) n :
  combine (repeat a n) (repeat b n) = repeat (a, b) n.
Proof. induction n; simpl; congruence. Qed.

Lemma zero_state_ok b H : state_ok b H (zero_state b H).
Proof.
  unfold state_ok, shape2, zero_state; simpl. rewrite repeat_length.
  assert (F : Forall (fun v : list R => length v = H) (repeat (repeat 0%R H) b)).
  { apply Forall_forall. intros v Hv. apply repeat_spec in Hv. subst.
    apply repeat_length. }
  auto.
Qed.

Lemma Forall_firstn {A} (P : A -> Prop) n : forall l, Forall P l -> Forall P (firstn n l).
Proof.
  induction n as [|n IH]; intros [|a l] F; simpl; try constructor.
  - now apply Forall_cons_iff in F.
  - apply IH. now apply Forall_cons_iff in F.
Qed.

Lemma Forall_skipn {A} (P : A -> Prop) n : forall l, Forall P l -> Forall P (skipn n l).
Proof.
  induction n as [|n IH]; intros [|a l] F; simpl; auto.
  apply IH. now apply Forall_cons_iff in F.
Qed.

Lemma skipn_concat_cons {A B} (layer : list A) (pre : list (list A)) (l : list B) :
  skipn (length (concat (layer :: pre))) l
  = skipn (length (concat pre)) (skipn (length layer) l).
Proof.
  simpl concat. now rewrite length_app, skipn_skipn, Nat.add_comm.
Qed.

Section StackFacts.
Context {G : Generator}.

Lemma run_stack_ok H d b p tr :
  (1 <= d)%nat ->
  forall layers hc0 input g,
    layers_ok H d layers -> (d * length layers <= length hc0)%nat ->
    Forall (state_ok b H) hc0 -> length input = b ->
    exists out fins g',
      LSTM.run_stack H p tr layers hc0 input g = Ok ((out, fins), g')
      /\ length out = b /\ length fins = (d * length layers)%nat
      /\ Forall (state_ok b H) fins.
Proof.
  intros Hd. induction layers as [|layer rest IH]; intros hc0 input g Hl Lh Fh Li.
  - exists input, [], g. simpl. unfold ret. repeat split; auto; lia.
  - apply Forall_cons_iff in Hl as [[Ld Gk] Hrest].
    cbn [LSTM.run_stack]. rewrite Ld.
    assert (Hne : layer <> []) by (intros ->; simpl in Ld; lia).
    simpl length in Lh.
    pose proof (run_layer_ok H b layer (firstn d hc0) input Hne Gk
                  ltac:(rewrite length_firstn; nia)
                  (Forall_firstn _ d _ Fh) Li)
      as (R1 & R2 & R3).
    destruct (LSTM.run_layer H layer (firstn d hc0) input) as [out fin].
    cbn [fst snd] in R1, R2, R3.
    assert (D : exists out' g1,
               (match rest with
                | [] => ret out
                | _ :: _ => F_dropout out p tr
                end) g = Ok (out', g1) /\ length out' = b).
    { destruct rest.
      - exists out, g. split; [reflexivity | exact R1].
      - destruct (F_dropout_total out p tr g) as (out' & g1 & E).
        exists out', g1. split; [exact E|].
        apply F_dropout_lengths in E.
        rewrite <- (length_map (map (@length R)) out'), E, length_map. exact R1. }
    destruct D as (out' & g1 & E & Lo).
    erewrite bind_ok by exact E.
    destruct (IH (skipn d hc0) out' g1 Hrest
                ltac:(rewrite length_skipn; nia) (Forall_skipn _ d _ Fh) Lo)
      as (o2 & fins & g2 & E2 & L2 & L3 & F3).
    erewrite bind_ok by exact E2. unfold ret. cbn [fst snd].
    exists o2, (fin ++ fins), g2. repeat split; auto.
    + rewrite length_app. simpl length. nia.
    + apply Forall_app. auto.
Qed.

(** With a single layer there is nothing between layers: no dropout is
    applied and the generator is not touched, in either mode. *)
Lemma run_stack_single H p tr layer hc0 input g :
  LSTM.run_stack H p tr [layer] hc0 input g
  = Ok ((fst (LSTM.run_layer H layer (firstn (length layer) hc0) input),
         snd (LSTM.run_layer H layer (firstn (length layer) hc0) input) ++ []), g).
Proof.
  cbn [LSTM.run_stack].
  destruct (LSTM.run_layer H layer (firstn (length layer) hc0) input) as [out fin].
  reflexivity.
Qed.

(** In inference mode the stack is a pure function of its input. *)
Lemma run_stack_eval H p : forall layers hc0 input,
  exists r, forall g, LSTM.run_stack H p false layers hc0 input g = Ok (r, g).
Proof.
  induction layers as [|layer rest IH]; intros hc0 input.
  - exists (input, []). reflexivity.
  - cbn [LSTM.run_stack].
    destruct (LSTM.run_layer H layer (firstn (length layer) hc0) input) as [out fin].
    destruct (IH (skipn (length layer) hc0) out) as (r & Hr).
    exists (fst r, fin ++ snd r). intros g.
    assert (E : (match rest with
                 | [] => ret out
                 | _ :: _ => F_dropout out p false
                 end) g = Ok (out, g)) by (destruct rest; reflexivity).
    erewrite bind_ok by exact E. erewrite bind_ok by apply Hr. reflexivity.
Qed.

(** The last layer of the stack: every layer before it runs as a stack of
    its own, its output passes through the inter-layer dropout, and the last
    layer's final states come last in the list of final states. *)
Lemma run_stack_last H p tr : forall pre last hc0 input g out fins g',
  LSTM.run_stack H p tr (pre ++ [last]) hc0 input g = Ok ((out, fins), g') ->
  exists pre_out pre_fins g1 inp,
    LSTM.run_stack H p tr pre hc0 input g = Ok ((pre_out, pre_fins), g1)
    /\ (match pre with
        | [] => ret pre_out
        | _ :: _ => F_dropout pre_out p tr
        end) g1 = Ok (inp, g')
    /\ out = fst (LSTM.run_layer H last
                    (firstn (length last) (skipn (length (concat pre)) hc0)) inp)
    /\ fins = pre_fins
              ++ snd (LSTM.run_layer H last
                        (firstn (length last) (skipn (length (concat pre)) hc0)) inp).
Proof.
  induction pre as [|layer pre IH]; intros last hc0 input g out fins g' E.
  - rewrite app_nil_l, run_stack_single in E. inversion E; subst; clear E.
    exists input, [], g', input. simpl. rewrite app_nil_r. auto.
  - change ((layer :: pre) ++ [last]) with (layer :: (pre ++ [last])) in E.
    cbn [LSTM.run_stack] in E.
    destruct (LSTM.run_layer H layer (firstn (length layer) hc0) input)
      as [o1 f1] eqn:E1.
    apply bind_inv in E as (o1' & ga & Ed & E).
    apply bind_inv in E as ([o2 f2] & gb & Er & E).
    apply ret_inv in E as [E ->]. inversion E; subst; clear E. cbn [fst snd].
    assert (Ed' : F_dropout o1 p tr g = Ok (o1', ga))
      by (destruct pre; exact Ed). clear Ed.
    apply IH in Er as (po & pf & g1 & inp & Ep & Edrop & -> & ->).
    cbn [LSTM.run_stack]. rewrite E1, skipn_concat_cons.
    destruct pre as [|layer2 pre].
    + (* [layer] is the only layer before the last *)
      simpl in Ep. apply ret_inv in Ep as [Ep ->]. inversion Ep; subst; clear Ep.
      apply ret_inv in Edrop as [-> ->].
      eexists _, _, _, _. split; [reflexivity|]. split; [exact Ed'|].
      rewrite !app_nil_r. split; reflexivity.
    + eexists _, _, _, _. split.
      { erewrite bind_ok by exact Ed'. erewrite bind_ok by exact Ep. reflexivity. }
      split; [exact Edrop|]. rewrite app_assoc. split; reflexivity.
Qed.

End StackFacts.

(** ** The encoder of a constructed model *)

Lemma map_eq_Forall {A B C} (f : A -> C) (g : B -> C) : forall l l',
  map f l = map g l' -> Forall (fun a => exists b, In b l' /\ f a = g b) l.
Proof.
  induction l as [|a l IH]; intros [|b l'] E; try discriminate; constructor.
  - exists b. simpl in E. injection E as E1 E2.
    split; [left; reflexivity | exact E1].
  - simpl in E. injection E as E1 E2. apply IH in E2.
    eapply Forall_impl; [|exact E2]. intros a' (b' & Hin & Hb).
    exists b'. split; [right; exact Hin | exact Hb].
Qed.

Lemma group_sig_ok i h b l dd (gr : LSTM.group) :
  (0 < h)%Z -> map sig_of gr = group_sig i h b l dd ->
  Forall (fun nt => filled (snd nt)) gr -> group_ok (Z.to_nat h) gr.
Proof.
  intros Hh E F.
  destruct gr as [|[n0 t0] [|[n1 t1] [|[n2 t2] [|[n3 t3] [|]]]]]; try discriminate.
  unfold group_sig in E.
  set (g4 := Z.to_nat (4 * h)) in E.
  assert (Hg : g4 = (4 * Z.to_nat h)%nat) by (subst g4; lia). clearbody g4.
  unfold sig_of in E. cbn [map fst snd] in E.
  injection E as N0 S0 N1 S1 N2 S2 N3 S3.
  apply Forall_cons_iff in F as [_ F]. apply Forall_cons_iff in F as [_ F].
  apply Forall_cons_iff in F as [F2 F]. apply Forall_cons_iff in F as [F3 _].
  unfold filled in F2, F3. cbn [snd] in F2, F3. rewrite S2 in F2. rewrite S3 in F3.
  unfold group_ok, LSTM.param, size. cbn [nth snd]. rewrite S0, S1, F2, F3.
  cbn [nth numel fold_right]. repeat split; lia.
Qed.

Section EncoderFacts.
Context {G : Generator}.

Lemma built_layers c m :
  built c m ->
  layers_ok (Z.to_nat (hidden_dim c)) (LSTM.num_directions (bidirectional c))
    (LSTM.all_weights (LSTMClassifier.lstm m))
  /\ length (LSTM.all_weights (LSTMClassifier.lstm m)) = Z.to_nat (num_layers c).
Proof.
  intros B. pose proof (b_lstm_sig _ _ B) as Sg. pose proof (b_lstm_init _ _ B) as In3.
  destruct (b_accepted _ _ B) as (_ & _ & HH & _).
  unfold lstm_sig in Sg. split.
  - unfold layers_ok. apply map_eq_Forall in Sg.
    unfold Forall3 in In3. rewrite Forall_forall in Sg, In3. apply Forall_forall.
    intros layer Hl. destruct (Sg layer Hl) as (l & _ & El). specialize (In3 layer Hl).
    split.
    + rewrite <- (length_map (map sig_of) layer), El, length_map, length_seq.
      reflexivity.
    + apply map_eq_Forall in El. rewrite Forall_forall in El, In3.
      apply Forall_forall. intros gr Hgr. destruct (El gr Hgr) as (dd & _ & Eg).
      apply (group_sig_ok (embedding_dim c) (hidden_dim c) (bidirectional c) l dd);
        [exact HH | exact Eg|].
      eapply Forall_impl; [|exact (In3 gr Hgr)]. intros nt Hi. apply Hi.
  - rewrite <- (length_map (map (map sig_of))), Sg, length_map, length_seq.
    reflexivity.
Qed.

End EncoderFacts.

(** ** The whole forward pass of a constructed model *)

Lemma py_index_last {A} (l : list A) (d : A) :
  (1 <= length l)%nat -> py_index l (-1) = Ok (nth (length l - 1) l d).
Proof.
  intros L. unfold py_index. cbn [Z.ltb Z.compare].
  replace ((Z.of_nat (length l) + -1 <? 0)
           || (Z.of_nat (length l) <=? Z.of_nat (length l) + -1))%Z with false
    by (symmetry; apply orb_false_iff; rewrite Z.ltb_ge, Z.leb_gt; lia).
  replace (Z.to_nat (Z.of_nat (length l) + -1)) with (length l - 1)%nat by lia.
  rewrite (nth_error_nth' l d) by lia. reflexivity.
Qed.

Lemma py_index_last2 {A} (l : list A) (d : A) :
  (2 <= length l)%nat -> py_index l (-2) = Ok (nth (length l - 2) l d).
Proof.
  intros L. unfold py_index. cbn [Z.ltb Z.compare].
  replace ((Z.of_nat (length l) + -2 <? 0)
           || (Z.of_nat (length l) <=? Z.of_nat (length l) + -2))%Z with false
    by (symmetry; apply orb_false_iff; rewrite Z.ltb_ge, Z.leb_gt; lia).
  replace (Z.to_nat (Z.of_nat (length l) + -2)) with (length l - 2)%nat by lia.
  rewrite (nth_error_nth' l d) by lia. reflexivity.
Qed.

Lemma shape2_nth (h_n : list (list vec)) b H k :
  Forall (fun h => shape2 h b H) h_n -> (k < length h_n)%nat ->
  shape2 (nth k h_n []) b H.
Proof.
  intros F Hk. rewrite Forall_forall in F. apply F. now apply nth_In.
Qed.

Lemma cat_dim1_shape a b n f1 f2 :
  shape2 a n f1 -> shape2 b n f2 -> shape2 (cat_dim1 a b) n (f1 + f2).
Proof.
  intros [La Fa] [Lb Fb]. unfold shape2, cat_dim1. rewrite map2_length. split; [lia|].
  apply map2_Forall. intros u v Hu Hv. rewrite Forall_forall in Fa, Fb.
  rewrite length_app, (Fa u Hu), (Fb v Hv). reflexivity.
Qed.

Lemma Linear_forward_ok (fc : Linear.t) (o i : nat) input b :
  shape (Linear.weight fc) = [o; i] -> length (data (Linear.bias fc)) = o ->
  shape2 input b i ->
  Linear.forward fc input = Ok (map (Linear.affine fc) input)
  /\ shape2 (map (Linear.affine fc) input) b o.
Proof.
  intros Sw Lb [Li Fi]. unfold Linear.forward, size. rewrite Sw. cbn [nth]. split.
  - replace (forallb _ input) with true; [reflexivity|].
    symmetry. apply forallb_forall. intros v Hv. rewrite Forall_forall in Fi.
    apply Nat.eqb_eq. now apply Fi.
  - unfold shape2. rewrite length_map, Forall_map. split; [exact Li|].
    apply Forall_forall. intros v _. unfold Linear.affine, vadd.
    rewrite map2_length, matvec_length. unfold size. rewrite Sw, Lb. cbn [nth]. lia.
Qed.

Section ForwardFacts.
Context {G : Generator}.

Lemma LSTM_forward_ok (l : LSTM.t) (tr : bool) (H d L E b s : nat) input g :
  LSTM.input_size l = Z.of_nat E -> LSTM.hidden_size l = Z.of_nat H ->
  LSTM.num_layers l = Z.of_nat L -> LSTM.num_directions (LSTM.bidirectional l) = d ->
  layers_ok H d (LSTM.all_weights l) -> length (LSTM.all_weights l) = L ->
  shape3 input b s E -> (1 <= s)%nat ->
  exists out fins g',
    LSTM.run_stack H (LSTM.dropout l) tr (LSTM.all_weights l)
      (repeat (zero_state b H) (L * d)) input g = Ok ((out, fins), g')
    /\ length fins = (d * L)%nat /\ Forall (state_ok b H) fins
    /\ LSTM.forward l tr input None g = Ok ((out, (map fst fins, map snd fins)), g').
Proof.
  intros Hi Hh HL Hd Lok Ll [Lb Fb] Hs.
  assert (D1 : (1 <= d)%nat) by (subst d; destruct (LSTM.bidirectional l); simpl; lia).
  destruct (run_stack_ok H d b (LSTM.dropout l) tr D1 (LSTM.all_weights l)
              (repeat (zero_state b H) (L * d)) input g Lok)
    as (out & fins & g' & E1 & _ & Lf & Ff).
  { rewrite repeat_length, Ll. lia. }
  { apply Forall_forall. intros hc Hin. apply repeat_spec in Hin. subst.
    apply zero_state_ok. }
  { exact Lb. }
  exists out, fins, g'. rewrite Ll in Lf. repeat split; try assumption.
  unfold LSTM.forward.
  replace (forallb _ input) with true.
  2: { symmetry. apply forallb_forall. intros xs Hxs. apply forallb_forall.
       intros v Hv. rewrite Forall_forall in Fb. destruct (Fb xs Hxs) as [_ Fv].
       rewrite Forall_forall in Fv. rewrite Hi, (Fv v Hv). apply Z.eqb_refl. }
  replace (existsb _ input) with false.
  2: { symmetry. apply not_true_is_false. intros Hex.
       apply existsb_exists in Hex as (xs & Hxs & Hz). apply Nat.eqb_eq in Hz.
       rewrite Forall_forall in Fb. destruct (Fb xs Hxs) as [Lx _]. lia. }
  cbn [negb fst snd]. rewrite Hh, HL, Hd, !Nat2Z.id, Lb.
  unfold LSTM.zeros3. rewrite combine_repeat. fold (zero_state b H).
  erewrite bind_ok by exact E1. reflexivity.
Qed.

(** The forward pass of a constructed model on a valid input, in either
    mode: it succeeds; the encoder runs from zero states; the logits are the
    affine image of the last entry (or last two entries) of [h_n]. *)
Lemma forward_spec c m tr x b s g :
  built c m -> valid_input (vocab_size c) x b s ->
  let H := Z.to_nat (hidden_dim c) in
  let d := LSTM.num_directions (bidirectional c) in
  let L := Z.to_nat (num_layers c) in
  let emb := map (map (fun i => row (Embedding.weight (LSTMClassifier.embedding m))
                                    (Z.to_nat i))) x in
  exists embedded g1 out fins g2,
    F_dropout emb (dropout_rate c) tr g = Ok (embedded, g1)
    /\ shape3 embedded b s (Z.to_nat (embedding_dim c))
    /\ LSTM.run_stack H (LSTM.dropout (LSTMClassifier.lstm m)) tr
         (LSTM.all_weights (LSTMClassifier.lstm m))
         (repeat (zero_state b H) (L * d)) embedded g1 = Ok ((out, fins), g2)
    /\ length fins = (d * L)%nat /\ Forall (state_ok b H) fins
    /\ shape2 (hidden_of (bidirectional c) (map fst fins)) b
         (Z.to_nat (lstm_output_dim c))
    /\ LSTMClassifier.forward (set_mode tr m) x g
       = Ok (map (Linear.affine (LSTMClassifier.fc m))
                 (hidden_of (bidirectional c) (map fst fins)), g2)
    /\ shape2 (map (Linear.affine (LSTMClassifier.fc m))
                   (hidden_of (bidirectional c) (map fst fins)))
              b (Z.to_nat (output_dim c)).
Proof.
  intros B Vx H d L emb.
  destruct (b_accepted _ _ B) as (HV & HE & HH & HO & HP & HL & P0 & P1).
  destruct (b_emb_init _ _ B) as (Fe & _).
  assert (Vx' : valid_input (Z.of_nat (Z.to_nat (vocab_size c))) x b s)
    by (rewrite Z2Nat.id by lia; exact Vx).
  destruct (Embedding_forward_ok _ _ _ x b s (b_emb_shape _ _ B) Fe Vx') as (Ee & Se).
  fold emb in Ee, Se.
  destruct (F_dropout_total emb (dropout_rate c) tr g) as (embedded & g1 & Ed).
  pose proof (lengths_shape3 _ _ _ _ _ (F_dropout_lengths _ _ _ _ _ _ Ed) Se) as Sd.
  destruct (built_layers c m B) as (Lok & Ll).
  destruct Vx as (_ & Hs & _).
  destruct (LSTM_forward_ok (LSTMClassifier.lstm m) tr H d L
              (Z.to_nat (embedding_dim c)) b s embedded g1)
    as (out & fins & g2 & Er & Lf & Ff & El); try assumption.
  { rewrite (b_lstm_input _ _ B). lia. }
  { rewrite (b_lstm_hidden _ _ B). subst H. lia. }
  { rewrite (b_lstm_layers _ _ B). subst L. lia. }
  { now rewrite (b_lstm_bidir _ _ B). }
  assert (Fh : Forall (fun h => shape2 h b H) (map fst fins)).
  { rewrite Forall_map. eapply Forall_impl; [|exact Ff]. intros hc Hhc. apply Hhc. }
  assert (Lh : length (map fst fins) = (d * L)%nat) by (now rewrite length_map).
  assert (L1 : (1 <= L)%nat) by (subst L; lia).
  assert (Sh : shape2 (hidden_of (bidirectional c) (map fst fins)) b
                 (Z.to_nat (lstm_output_dim c))).
  { unfold hidden_of, lstm_output_dim. subst d.
    destruct (bidirectional c); simpl LSTM.num_directions in *.
    - replace (Z.to_nat (hidden_dim c * 2)) with (H + H)%nat by (subst H; lia).
      apply cat_dim1_shape; apply shape2_nth; try exact Fh; lia.
    - apply shape2_nth; [exact Fh | lia]. }
  destruct (b_fc_binit _ _ B) as (Fb & _).
  unfold filled in Fb. rewrite (b_fc_bshape _ _ B) in Fb. simpl in Fb.
  destruct (Linear_forward_ok (LSTMClassifier.fc m) _ _ _ b (b_fc_wshape _ _ B)
              ltac:(rewrite Fb; lia) Sh) as (Ef & Sf).
  exists embedded, g1, out, fins, g2. repeat split; try assumption; try apply Sd;
    try apply Sh; try apply Sf.
  unfold LSTMClassifier.forward.
  assert (Em : LSTMClassifier.embedding (set_mode tr m) = LSTMClassifier.embedding m)
    by (destruct tr; reflexivity).
  assert (El' : LSTMClassifier.lstm (set_mode tr m) = LSTMClassifier.lstm m)
    by (destruct tr; reflexivity).
  assert (Efc : LSTMClassifier.fc (set_mode tr m) = LSTMClassifier.fc m)
    by (destruct tr; reflexivity).
  assert (Edr : LSTMClassifier.dropout (set_mode tr m) = LSTMClassifier.dropout m)
    by (destruct tr; reflexivity).
  assert (Etr : LSTMClassifier.training (set_mode tr m) = tr)
    by (destruct tr; reflexivity).
  rewrite Em, El', Efc, Edr, Etr, Ee. unfold Dropout.forward.
  rewrite (b_drop _ _ B), (b_lstm_bidir _ _ B).
  unfold bind at 1, lift at 1.
  unfold bind at 1. rewrite Ed. unfold bind at 1. rewrite El.
  assert (Eh : (if bidirectional c
                then h2 <- lift (py_index (map fst fins) (-2)) ;;
                     h1 <- lift (py_index (map fst fins) (-1)) ;;
                     ret (cat_dim1 h2 h1)
                else lift (py_index (map fst fins) (-1))) g2
               = Ok (hidden_of (bidirectional c) (map fst fins), g2)).
  { unfold hidden_of. subst d.
    destruct (bidirectional c); simpl LSTM.num_directions in *.
    - rewrite (py_index_last2 _ []), (py_index_last _ []) by lia. reflexivity.
    - rewrite (py_index_last _ []) by lia. reflexivity. }
  unfold bind at 1. rewrite Eh. unfold bind, lift, ret. rewrite Ef. reflexivity.
Qed.

End ForwardFacts.

(* ================================================================== *)
(** * Forward: shape of the logits, and out-of-range indices *)

(** C7: for every valid configuration the model is constructed, and on every
    (batch_size, seq_len) tensor of in-vocabulary indices with seq_len >= 1
    its forward pass, in training or in inference mode, returns a
    (batch_size, output_dim) tensor; that tensor is the affine image
    [W h + b] of the (batch_size, encoder_output_dim) hidden tensor, with
    nothing applied after it. *)
Theorem C7_forward_shape (G : Generator) (c : Config) (g : rng) (tr : bool)
    (x : list (list Z)) (b s : nat) (g1 : rng) :
  valid_config c -> valid_input (vocab_size c) x b s ->
  exists m g0 logits g2 hidden,
    construct c g = Ok (m, g0)
    /\ LSTMClassifier.forward (set_mode tr m) x g1 = Ok (logits, g2)
    /\ shape2 logits b (Z.to_nat (output_dim c))
    /\ shape2 hidden b (Z.to_nat (lstm_output_dim c))
    /\ logits = map (Linear.affine (LSTMClassifier.fc m)) hidden.
Proof.
  intros V Vx. destruct (construct_total c g (valid_accepted c V)) as (m & g0 & E).
  pose proof (construct_built _ _ _ _ E) as B.
  destruct (forward_spec c m tr x b s g1 B Vx)
    as (embedded & ga & out & fins & g2 & _ & _ & _ & _ & _ & Sh & Ef & Sl).
  exists m, g0, (map (Linear.affine (LSTMClassifier.fc m))
                    (hidden_of (bidirectional c) (map fst fins))), g2,
    (hidden_of (bidirectional c) (map fst fins)).
  repeat split; try exact E; try exact Ef; try apply Sl; try apply Sh.
Qed.

Lemma C7_forward_shape_witness :
  exists m g0 logits g2 hidden,
    @construct counter_generator cfg_small 0%nat = Ok (m, g0)
    /\ @LSTMClassifier.forward counter_generator (set_mode false m) x_small 5%nat
       = Ok (logits, g2)
    /\ shape2 logits 2 2
    /\ shape2 hidden 2 16
    /\ logits = map (Linear.affine (LSTMClassifier.fc m)) hidden.
Proof.
  refine (C7_forward_shape counter_generator cfg_small 0%nat false x_small 2 3 5%nat _ _).
  - unfold valid_config; simpl. repeat split; try lia; reflexivity.
  - unfold valid_input, x_small; simpl.
    repeat (first [apply Forall_cons | apply Forall_nil | split | reflexivity | lia]).
Defined.

(** C9: on a constructed model, in either mode, an input holding an index
    that is negative or at least [vocab_size] makes [forward] raise the
    [IndexError] of the embedding lookup; nothing catches it. *)
Theorem C9_forward_index_error (G : Generator) (c : Config) (g : rng) (tr : bool)
    (x : list (list Z)) (g1 : rng) :
  valid_config c ->
  Exists (Exists (fun i => (i < 0)%Z \/ (vocab_size c <= i)%Z)) x ->
  exists m g0,
    construct c g = Ok (m, g0)
    /\ Embedding.forward (LSTMClassifier.embedding m) x = Raise IndexError
    /\ LSTMClassifier.forward (set_mode tr m) x g1 = Raise IndexError.
Proof.
  intros V Hx. destruct (construct_total c g (valid_accepted c V)) as (m & g0 & E).
  pose proof (construct_built _ _ _ _ E) as B. exists m, g0. split; [exact E|].
  assert (Ee : Embedding.forward (LSTMClassifier.embedding m) x = Raise IndexError).
  { apply Embedding_forward_out_of_range.
    eapply Exists_impl; [|exact Hx]. intros xs. apply Exists_impl. intros i Hi.
    unfold size. rewrite (b_emb_shape _ _ B). cbn [nth].
    destruct V as (HV & _). lia. }
  split; [exact Ee|].
  unfold LSTMClassifier.forward.
  replace (LSTMClassifier.embedding (set_mode tr m)) with (LSTMClassifier.embedding m)
    by (destruct tr; reflexivity).
  rewrite Ee. reflexivity.
Qed.

Lemma C9_forward_index_error_witness :
  exists m g0,
    @construct counter_generator cfg_small 0%nat = Ok (m, g0)
    /\ Embedding.forward (LSTMClassifier.embedding m) [[1; 50]; [2; 3]]%Z
       = Raise IndexError
    /\ @LSTMClassifier.forward counter_generator (set_mode true m)
         [[1; 50]; [2; 3]]%Z 5%nat
       = Raise IndexError.
Proof.
  refine (C9_forward_index_error counter_generator cfg_small 0%nat true
            [[1; 50]; [2; 3]]%Z 5%nat _ _).
  - unfold valid_config; simpl. repeat split; try lia; reflexivity.
  - apply Exists_cons_hd. apply Exists_cons_tl. apply Exists_cons_hd.
    right. simpl. lia.
Defined.

(* ================================================================== *)
(** * Forward: inference mode, and the single-layer encoder *)

Section EvalFacts.
Context {G : Generator}.

Lemma LSTM_forward_eval (l : LSTM.t) input hx :
  exists r, forall g, LSTM.forward l false input hx g = lift r g.
Proof.
  unfold LSTM.forward.
  destruct (negb (forallb _ input)); [exists (Raise RuntimeError); reflexivity|].
  destruct (existsb _ input); [exists (Raise RuntimeError); reflexivity|].
  match goal with |- context [LSTM.run_stack ?H ?p false ?ls ?hc ?i] =>
    destruct (run_stack_eval H p ls hc i) as (r & Hr) end.
  exists (Ok (fst r, (map fst (snd r), map snd (snd r)))). intros g.
  unfold bind. rewrite Hr. reflexivity.
Qed.

Lemma forward_eval (m : LSTMClassifier.t) x :
  exists r, forall g, LSTMClassifier.forward (LSTMClassifier.eval m) x g = lift r g.
Proof.
  unfold LSTMClassifier.forward. cbn [LSTMClassifier.eval LSTMClassifier.embedding
    LSTMClassifier.lstm LSTMClassifier.fc LSTMClassifier.dropout
    LSTMClassifier.training].
  destruct (Embedding.forward (LSTMClassifier.embedding m) x) as [emb|e];
    [|exists (Raise e); reflexivity].
  destruct (LSTM_forward_eval (LSTMClassifier.lstm m) emb None) as (r & Hr).
  destruct r as [[out [hidden cn]]|e].
  2: { exists (Raise e). intros g. unfold bind, lift at 1, Dropout.forward.
       rewrite F_dropout_eval, Hr. reflexivity. }
  set (sel := if LSTM.bidirectional (LSTMClassifier.lstm m)
              then match py_index hidden (-2), py_index hidden (-1) with
                   | Ok h2, Ok h1 => Ok (cat_dim1 h2 h1)
                   | Raise e, _ => Raise e
                   | _, Raise e => Raise e
                   end
              else py_index hidden (-1)).
  exists (match sel with
          | Ok h => Linear.forward (LSTMClassifier.fc m) h
          | Raise e => Raise e
          end).
  intros g. unfold bind at 1, lift at 1. unfold bind at 1, Dropout.forward.
  rewrite F_dropout_eval. unfold bind at 1. rewrite Hr. unfold lift at 1.
  subst sel. unfold bind, lift, ret.
  destruct (LSTM.bidirectional (LSTMClassifier.lstm m)).
  - destruct (py_index hidden (-2)); [|reflexivity].
    destruct (py_index hidden (-1)); [|reflexivity].
    destruct (Linear.forward _ _); reflexivity.
  - destruct (py_index hidden (-1)); [|reflexivity].
    destruct (Linear.forward _ _); reflexivity.
Qed.

End EvalFacts.


(** C5: for every valid configuration the constructed encoder's inter-layer
    dropout is 0 when [num_layers = 1], whatever [dropout_rate] is, and is
    [dropout_rate] when [num_layers > 1]; and a single-layer encoder in
    training mode computes exactly what it computes in inference mode,
    generator state included: no dropout mask is ever drawn inside it. *)
Theorem C5_interlayer_dropout (G : Generator) (c : Config) (g : rng) :
  valid_config c ->
  exists m g0,
    construct c g = Ok (m, g0)
    /\ (num_layers c = 1%Z ->
          LSTM.dropout (LSTMClassifier.lstm m) = 0%Q
          /\ forall input hx g1,
               LSTM.forward (LSTMClassifier.lstm m) true input hx g1
               = LSTM.forward (LSTMClassifier.lstm m) false input hx g1)
    /\ ((1 < num_layers c)%Z ->
          LSTM.dropout (LSTMClassifier.lstm m) = dropout_rate c).
Proof.
  intros V. destruct (construct_total c g (valid_accepted c V)) as (m & g0 & E).
  pose proof (construct_built _ _ _ _ E) as B. exists m, g0. split; [exact E|].
  split.
  - intros L1. split; [rewrite (b_lstm_dropout _ _ B), L1; reflexivity|].
    destruct (built_layers c m B) as (_ & Ll). rewrite L1 in Ll.
    intros input hx g1. unfold LSTM.forward.
    destruct (LSTM.all_weights (LSTMClassifier.lstm m)) as [|layer [|]];
      try discriminate.
    destruct (negb (forallb _ input)); [reflexivity|].
    destruct (existsb _ input); [reflexivity|].
    unfold bind. rewrite !run_stack_single. reflexivity.
  - intros L1. rewrite (b_lstm_dropout _ _ B).
    replace (num_layers c >? 1)%Z with true by (symmetry; apply Z.gtb_lt; lia).
    reflexivity.
Qed.

Lemma C5_interlayer_dropout_witness :
  exists m g0,
    @construct counter_generator cfg_small 0%nat = Ok (m, g0)
    /\ (1%Z = 1%Z ->
          LSTM.dropout (LSTMClassifier.lstm m) = 0%Q
          /\ forall input hx (g1 : nat),
               @LSTM.forward counter_generator (LSTMClassifier.lstm m) true input hx g1
               = @LSTM.forward counter_generator (LSTMClassifier.lstm m) false input hx g1)
    /\ ((1 < 1)%Z ->
          LSTM.dropout (LSTMClassifier.lstm m) = (1 # 2)%Q).
Proof.
  refine (C5_interlayer_dropout counter_generator cfg_small 0%nat _).
  unfold valid_config; simpl. repeat split; try lia; reflexivity.
Defined.

(* ================================================================== *)
(** * Forward: which hidden states reach the classifier *)

Lemma nth_app_end {A} (l1 l2 : list A) (k : nat) (d : A) :
  (1 <= k <= length l2)%nat ->
  nth (length (l1 ++ l2) - k) (l1 ++ l2) d = nth (length l2 - k) l2 d.
Proof.
  intros Hk. rewrite length_app, app_nth2 by lia. f_equal. lia.
Qed.

Lemma firstn_skipn_repeat {A} (a : A) (d k n : nat) :
  (k + d <= n)%nat -> firstn d (skipn k (repeat a n)) = repeat a d.
Proof.
  intros Hn. replace n with (k + (d + (n - k - d)))%nat by lia.
  rewrite !repeat_app, skipn_app, repeat_length, Nat.sub_diag.
  rewrite skipn_all2 by (rewrite repeat_length; lia). simpl.
  rewrite firstn_app, repeat_length, Nat.sub_diag. simpl.
  rewrite firstn_all2 by (rewrite repeat_length; lia). apply app_nil_r.
Qed.

Lemma layers_concat_length H d (layers : list (list (list (string * Tensor)))) :
  layers_ok H d layers -> length (concat layers) = (d * length layers)%nat.
Proof.
  induction layers as [|layer layers IH]; intros F; simpl; [lia|].
  apply Forall_cons_iff in F as [[Ld _] F]. rewrite length_app, IH, Ld by exact F. lia.
Qed.

(** C6: on a constructed model and a valid input, in either mode, the
    classifier is fed from the last recurrent layer only.  Write the stack as
    the layers before the last ([pre]) and the last one; [inp] is the
    sequence that reaches the last layer (the output of [pre], after the
    inter-layer dropout).  The hidden tensor handed to the linear layer is
    the final hidden state of the last layer's left-to-right pass over
    [inp], of shape (batch, hidden_dim), when unidirectional, and that state
    followed on the feature axis by the final hidden state of the last
    layer's right-to-left pass, of shape (batch, 2 * hidden_dim), when
    bidirectional.  The final states of the layers in [pre] ([pre_fins]) do
    not enter the logits. *)
Theorem C6_last_layer_hidden (G : Generator) (c : Config) (g : rng) (tr : bool)
    (x : list (list Z)) (b s : nat) (g1 : rng) :
  valid_config c -> valid_input (vocab_size c) x b s ->
  exists m g0 pre last embedded ga pre_out pre_fins gb inp gc,
    let H := Z.to_nat (hidden_dim c) in
    let lstm := LSTMClassifier.lstm m in
    let h_fwd :=
      fst (snd (LSTM.direction_batch H inp (0%nat, nth 0 last []) (zero_state b H))) in
    let h_bwd :=
      fst (snd (LSTM.direction_batch H inp (1%nat, nth 1 last []) (zero_state b H))) in
    let hidden := if bidirectional c then cat_dim1 h_fwd h_bwd else h_fwd in
    construct c g = Ok (m, g0)
    /\ LSTM.all_weights lstm = pre ++ [last]
    /\ length last = LSTM.num_directions (bidirectional c)
    /\ F_dropout
         (map (map (fun i => row (Embedding.weight (LSTMClassifier.embedding m))
                                 (Z.to_nat i))) x)
         (dropout_rate c) tr g1 = Ok (embedded, ga)
    /\ LSTM.run_stack H (LSTM.dropout lstm) tr pre
         (repeat (zero_state b H)
                 (Z.to_nat (num_layers c) * LSTM.num_directions (bidirectional c)))
         embedded ga = Ok ((pre_out, pre_fins), gb)
    /\ (match pre with
        | [] => ret pre_out
        | _ :: _ => F_dropout pre_out (LSTM.dropout lstm) tr
        end) gb = Ok (inp, gc)
    /\ shape2 h_fwd b H
    /\ (bidirectional c = true -> shape2 h_bwd b H)
    /\ shape2 hidden b (if bidirectional c then 2 * H else H)
    /\ LSTMClassifier.forward (set_mode tr m) x g1
       = Ok (map (Linear.affine (LSTMClassifier.fc m)) hidden, gc).
Proof.
  intros V Vx. destruct (construct_total c g (valid_accepted c V)) as (m & g0 & E).
  pose proof (construct_built _ _ _ _ E) as B.
  destruct (forward_spec c m tr x b s g1 B Vx)
    as (embedded & ga & out & fins & g2 & Ed & [Le _] & Er & Lf & Ff & Sh & Ef & _).
  destruct (built_layers c m B) as (Lok & Ll).
  destruct V as (_ & _ & HH & _ & _ & HL & _).
  set (H := Z.to_nat (hidden_dim c)) in *.
  set (d := LSTM.num_directions (bidirectional c)) in *.
  assert (D1 : (1 <= d)%nat) by (subst d; destruct (bidirectional c); simpl; lia).
  destruct (@exists_last _ (LSTM.all_weights (LSTMClassifier.lstm m)))
    as (pre & last & Ew).
  { intros Hn. rewrite Hn in Ll. simpl in Ll. lia. }
  rewrite Ew in Er, Lok, Ll.
  apply run_stack_last in Er as (pre_out & pre_fins & gb & inp & Ep & Edrop & _ & Efin).
  apply Forall_app in Lok as [Lpre Llast].
  apply Forall_cons_iff in Llast as [[Ld Gl] _].
  rewrite length_app in Ll. simpl in Ll.
  rewrite Ld, (layers_concat_length H d pre Lpre) in Efin.
  rewrite firstn_skipn_repeat in Efin by nia.
  assert (Zs : state_ok b H (zero_state b H)) by apply zero_state_ok.
  assert (Lpo : length pre_out = b).
  { destruct (run_stack_ok H d b (LSTM.dropout (LSTMClassifier.lstm m)) tr D1 pre
                (repeat (zero_state b H) (Z.to_nat (num_layers c) * d)) embedded ga Lpre)
      as (po & pf & g' & Ep' & Lp & _).
    - rewrite repeat_length. nia.
    - apply Forall_forall. intros hc Hin. apply repeat_spec in Hin. now subst.
    - exact Le.
    - rewrite Ep in Ep'. inversion Ep'; subst. exact Lp. }
  assert (Li : length inp = b).
  { destruct pre.
    - apply ret_inv in Edrop as [-> _]. exact Lpo.
    - apply F_dropout_lengths in Edrop.
      rewrite <- (length_map (map (@length R)) inp), Edrop, length_map. exact Lpo. }
  exists m, g0, pre, last, embedded, ga, pre_out, pre_fins, gb, inp, g2.
  cbv zeta. fold H. fold d.
  split; [exact E|]. split; [exact Ew|]. split; [exact Ld|]. split; [exact Ed|].
  split; [exact Ep|]. split; [exact Edrop|].
  rewrite Ef, Efin, map_app. clear Ef Efin Sh.
  subst d. destruct (bidirectional c); simpl LSTM.num_directions in *.
  - destruct last as [|pf [|pb [|]]]; try discriminate.
    apply Forall_cons_iff in Gl as [Gf Gl]. apply Forall_cons_iff in Gl as [Gb _].
    destruct (direction_batch_ok H b inp 0 pf (zero_state b H) Gf Zs Li) as [[Sf _] _].
    destruct (direction_batch_ok H b inp 1 pb (zero_state b H) Gb Zs Li) as [[Sb _] _].
    cbn [nth]. split; [exact Sf|]. split; [intros _; exact Sb|]. split.
    + replace (2 * H)%nat with (H + H)%nat by lia. now apply cat_dim1_shape.
    + unfold hidden_of. rewrite !nth_app_end by (simpl; lia). reflexivity.
  - destruct last as [|pf [|]]; try discriminate.
    apply Forall_cons_iff in Gl as [Gf _].
    destruct (direction_batch_ok H b inp 0 pf (zero_state b H) Gf Zs Li) as [[Sf _] _].
    cbn [nth]. split; [exact Sf|]. split; [discriminate|]. split; [exact Sf|].
    unfold hidden_of. rewrite !nth_app_end by (simpl; lia). reflexivity.
Qed.

Lemma C6_last_layer_hidden_witness :
  exists m g0 pre last embedded ga pre_out pre_fins gb inp gc,
    let lstm := LSTMClassifier.lstm m in
    let h_fwd :=
      fst (snd (LSTM.direction_batch 16 inp (0%nat, nth 0 last []) (zero_state 2 16))) in
    let h_bwd :=
      fst (snd (LSTM.direction_batch 16 inp (1%nat, nth 1 last []) (zero_state 2 16))) in
    let hidden := cat_dim1 h_fwd h_bwd in
    @construct counter_generator cfg_small_bidirectional 0%nat = Ok (m, g0)
    /\ LSTM.all_weights lstm = pre ++ [last]
    /\ length last = 2%nat
    /\ @F_dropout counter_generator
         (map (map (fun i => row (Embedding.weight (LSTMClassifier.embedding m))
                                 (Z.to_nat i))) x_small)
         (1 # 2) true 5%nat = Ok (embedded, ga)
    /\ @LSTM.run_stack counter_generator 16 (LSTM.dropout lstm) true pre
         (repeat (zero_state 2 16) 4) embedded ga = Ok ((pre_out, pre_fins), gb)
    /\ (match pre with
        | [] => @ret counter_generator _ pre_out
        | _ :: _ => @F_dropout counter_generator pre_out (LSTM.dropout lstm) true
        end) gb = Ok (inp, gc)
    /\ shape2 h_fwd 2 16
    /\ (true = true -> shape2 h_bwd 2 16)
    /\ shape2 hidden 2 32
    /\ @LSTMClassifier.forward counter_generator (set_mode true m) x_small 5%nat
       = Ok (map (Linear.affine (LSTMClassifier.fc m)) hidden, gc).
Proof.
  refine (C6_last_layer_hidden counter_generator cfg_small_bidirectional 0%nat true
            x_small 2 3 5%nat _ _).
  - unfold valid_config; simpl. repeat split; try lia; reflexivity.
  - unfold valid_input, x_small; simpl.
    repeat (first [apply Forall_cons | apply Forall_nil | split | reflexivity | lia]).
Defined.

(* ================================================================== *)
(** * Forward: successive calls *)

Section CallFacts.
Context {G : Generator}.

Lemma mapM_Forall2 {A B} (f : A -> M B) : forall l g l' g',
  mapM f l g = Ok (l', g') ->
  Forall2 (fun a b => exists ga gb, f a ga = Ok (b, gb)) l l'.
Proof.
  induction l as [|a l IH]; simpl; intros g l' g' H.
  - apply ret_inv in H as [-> _]. constructor.
  - apply bind_inv in H as (b & g1 & Hb & H).
    apply bind_inv in H as (bs & g2 & Hbs & H).
    apply ret_inv in H as [-> _]. constructor; eauto.
Qed.

Lemma mapM_pure {A B} (f : A -> M B) :
  (forall a, exists r, forall g, f a g = lift r g) ->
  forall l g l' g',
    mapM f l g = Ok (l', g') ->
    g' = g /\ Forall2 (fun a b => forall ga, f a ga = Ok (b, ga)) l l'.
Proof.
  intros Hf. induction l as [|a l IH]; simpl; intros g l' g' H.
  - apply ret_inv in H as [-> ->]. split; [reflexivity | constructor].
  - apply bind_inv in H as (b & g1 & Hb & H).
    apply bind_inv in H as (bs & g2 & Hbs & H).
    apply ret_inv in H as [-> ->].
    destruct (Hf a) as (r & Hr). rewrite Hr in Hb.
    destruct r as [b'|e]; [|discriminate]. unfold lift in Hb.
    inversion Hb; subst b' g1; clear Hb.
    apply IH in Hbs as [-> F]. split; [reflexivity|].
    constructor; [intros ga; now rewrite Hr | exact F].
Qed.

End CallFacts.

(** C10, amended: on a constructed model every forward call starts the
    encoder from zero hidden and zero cell states: passing no initial state
    is passing zero tensors, and on a valid input the whole stack runs from
    zero states.  A call does not change the model, so in a run of successive
    calls every output is the output of that one call on the same model, for
    the state in which the call finds the random generator.  In inference
    mode the generator plays no part: every output of the run is what a
    lone call on that input returns, whatever came before. *)
Theorem C10_calls_carry_no_state (G : Generator) (c : Config) (g : rng) :
  valid_config c ->
  exists m g0,
    let H := Z.to_nat (hidden_dim c) in
    let n := (Z.to_nat (num_layers c) * LSTM.num_directions (bidirectional c))%nat in
    let lstm := LSTMClassifier.lstm m in
    construct c g = Ok (m, g0)
    /\ (forall tr input g1,
          LSTM.forward lstm tr input None g1
          = LSTM.forward lstm tr input
              (Some (LSTM.zeros3 n (length input) H, LSTM.zeros3 n (length input) H)) g1)
    /\ (forall tr x b s g1,
          valid_input (vocab_size c) x b s ->
          exists embedded ga out fins g2,
            F_dropout
              (map (map (fun i => row (Embedding.weight (LSTMClassifier.embedding m))
                                      (Z.to_nat i))) x)
              (dropout_rate c) tr g1 = Ok (embedded, ga)
            /\ LSTM.run_stack H (LSTM.dropout lstm) tr (LSTM.all_weights lstm)
                 (repeat (zero_state b H) n) embedded ga = Ok ((out, fins), g2)
            /\ LSTMClassifier.forward (set_mode tr m) x g1
               = Ok (map (Linear.affine (LSTMClassifier.fc m))
                         (hidden_of (bidirectional c) (map fst fins)), g2))
    /\ (forall tr xs g1 outs g2,
          mapM (LSTMClassifier.forward (set_mode tr m)) xs g1 = Ok (outs, g2) ->
          Forall2 (fun x o => exists ga gb,
                     LSTMClassifier.forward (set_mode tr m) x ga = Ok (o, gb))
                  xs outs)
    /\ (forall xs g1 outs g2,
          mapM (LSTMClassifier.forward (LSTMClassifier.eval m)) xs g1 = Ok (outs, g2) ->
          g2 = g1
          /\ Forall2 (fun x o => forall ga,
                        LSTMClassifier.forward (LSTMClassifier.eval m) x ga = Ok (o, ga))
                     xs outs).
Proof.
  intros V. destruct (construct_total c g (valid_accepted c V)) as (m & g0 & E).
  pose proof (construct_built _ _ _ _ E) as B. exists m, g0. cbv zeta.
  split; [exact E|]. split; [|split; [|split]].
  - intros tr input g1. unfold LSTM.forward.
    rewrite (b_lstm_hidden _ _ B), (b_lstm_layers _ _ B), (b_lstm_bidir _ _ B).
    reflexivity.
  - intros tr x b s g1 Vx.
    destruct (forward_spec c m tr x b s g1 B Vx)
      as (embedded & ga & out & fins & g2 & Ed & _ & Er & _ & _ & _ & Ef & _).
    exists embedded, ga, out, fins, g2. auto.
  - intros tr xs g1 outs g2. apply mapM_Forall2.
  - intros xs g1 outs g2. apply mapM_pure. intros x. apply forward_eval.
Qed.

(** ** Successive calls in training mode: a concrete run

    The forward pass of the tiny model on the single token 1, worked out in
    closed form. *)

Lemma list1 {A} (l : list A) : length l = 1%nat -> exists a, l = [a].
Proof. destruct l as [|a [|]]; try discriminate. eauto. Qed.

Lemma list2 {A} (l : list A) : length l = 2%nat -> exists a b, l = [a; b].
Proof. destruct l as [|a [|b [|]]]; try discriminate. eauto. Qed.

Lemma list4 {A} (l : list A) : length l = 4%nat -> exists a b c d, l = [a; b; c; d].
Proof. destruct l as [|a [|b [|c [|d [|]]]]]; try discriminate. eauto 6. Qed.

Lemma weight_entries name t :
  @initialised counter_generator name t -> weight_name name ->
  filled t /\ forall j, (j < numel (shape t))%nat -> nth j (data t) 0%R <> 0%R.
Proof.
  intros (F & [(_ & Hf & g0 & D)|([B _] & _)]) [W _]; [|congruence].
  split; [exact F|]. intros j Hj. rewrite D. now apply counter_xavier_nth_nonzero.
Qed.

Lemma bias_entries name t :
  @initialised counter_generator name t -> bias_name name ->
  data t = repeat 0%R (numel (shape t)).
Proof.
  intros (F & [([W _] & _)|(_ & D)]) [B _]; [congruence | exact D].
Qed.

Lemma tiny_forward (m : LSTMClassifier.t) :
  @built counter_generator cfg_tiny m ->
  exists e1 a0 a1 a2 a3 b0 b1 b2 b3 wf : R,
    e1 <> 0%R /\ a2 <> 0%R /\ wf <> 0%R
    /\ forall g : nat,
         @LSTMClassifier.forward counter_generator m x_tiny g
         = Ok ([[tiny_logit a0 a1 a2 a3 b0 b1 b2 b3 wf (tiny_masked e1 g)]], S g).
Proof.
  intros B.
  pose proof (b_emb_shape _ _ B) as Se. pose proof (b_emb_init _ _ B) as Ie.
  pose proof (b_lstm_sig _ _ B) as Sl. pose proof (b_lstm_init _ _ B) as Il.
  pose proof (b_fc_wshape _ _ B) as Sw. pose proof (b_fc_bshape _ _ B) as Sb.
  pose proof (b_fc_winit _ _ B) as Iw. pose proof (b_fc_binit _ _ B) as Ib.
  pose proof (b_lstm_input _ _ B) as Li. pose proof (b_lstm_hidden _ _ B) as Lh.
  pose proof (b_lstm_layers _ _ B) as Ll. pose proof (b_lstm_bidir _ _ B) as Lb.
  pose proof (b_drop _ _ B) as Dp. pose proof (b_training _ _ B) as Tr.
  clear B.
  destruct m as [e l f d t].
  destruct e as [en ed ep ew], l as [li lh ll ld lb lw], f as [fi fo fw fb], d as [p].
  cbn [LSTMClassifier.embedding LSTMClassifier.lstm LSTMClassifier.fc
       LSTMClassifier.dropout LSTMClassifier.training
       Embedding.weight LSTM.all_weights LSTM.input_size LSTM.hidden_size
       LSTM.num_layers LSTM.bidirectional Linear.weight Linear.bias Dropout.p] in *.
  subst li lh ll lb p t.
  unfold lstm_sig in Sl. cbn in Sl.
  destruct lw as [|[|gr [|]] [|]]; try discriminate.
  destruct gr as [|[n0 t0] [|[n1 t1] [|[n2 t2] [|[n3 t3] [|]]]]]; try discriminate.
  unfold sig_of in Sl. cbn in Sl.
  injection Sl as N0 S0 N1 S1 N2 S2 N3 S3.
  unfold Forall3 in Il.
  apply Forall_cons_iff in Il as [Il _]. apply Forall_cons_iff in Il as [Il _].
  apply Forall_cons_iff in Il as [I0 Il]. apply Forall_cons_iff in Il as [I1 Il].
  apply Forall_cons_iff in Il as [I2 Il]. apply Forall_cons_iff in Il as [I3 _].
  cbn [fst snd] in *. subst n0 n1 n2 n3.
  destruct ew as [es ed'], fw as [fws fwd], fb as [fbs fbd],
    t0 as [s0 d0], t1 as [s1 d1], t2 as [s2 d2], t3 as [s3 d3].
  cbn [shape] in *. subst.
  destruct (weight_entries _ _ Ie (conj eq_refl eq_refl)) as [Fe Ne].
  destruct (weight_entries _ _ I0 (conj eq_refl eq_refl)) as [F0 N0].
  destruct (weight_entries _ _ I1 (conj eq_refl eq_refl)) as [F1 N1].
  destruct (weight_entries _ _ Iw (conj eq_refl eq_refl)) as [Fw Nw].
  pose proof (bias_entries _ _ I2 (conj eq_refl eq_refl)) as Z2.
  pose proof (bias_entries _ _ I3 (conj eq_refl eq_refl)) as Z3.
  pose proof (bias_entries _ _ Ib (conj eq_refl eq_refl)) as Zb.
  unfold filled in *. cbn in Fe, F0, F1, Fw, Z2, Z3, Zb, Ne, N0, N1, Nw. subst.
  destruct (list2 _ Fe) as (e0 & e1 & ->).
  destruct (list4 _ F0) as (a0 & a1 & a2 & a3 & ->).
  destruct (list4 _ F1) as (b0 & b1 & b2 & b3 & ->).
  destruct (list1 _ Fw) as (wf & ->).
  pose proof (Ne 1%nat ltac:(lia)) as Ne1. pose proof (N0 2%nat ltac:(lia)) as Na2.
  pose proof (Nw 0%nat ltac:(lia)) as Nwf. cbn in Ne1, Na2, Nwf.
  exists e1, a0, a1, a2, a3, b0, b1, b2, b3, wf.
  split; [exact Ne1|]. split; [exact Na2|]. split; [exact Nwf|].
  intros g. unfold tiny_logit, tiny_masked, x_tiny.
  lazy -[Rplus Rmult Rminus Rdiv Rinv Ropp exp tanh Rlt_dec Q2R IZR INR sigmoid
         Nat.modulo].
  reflexivity.
Qed.

Lemma tanh_zero : tanh 0 = 0%R.
Proof. unfold tanh. rewrite sinh_0. unfold Rdiv. apply Rmult_0_l. Qed.

Lemma tanh_nonzero (x : R) : x <> 0%R -> tanh x <> 0%R.
Proof.
  intros Hx Ht. apply Hx. unfold tanh, sinh, cosh in Ht.
  pose proof (exp_pos x) as P1. pose proof (exp_pos (- x)) as P2.
  assert (E : exp x = exp (- x)).
  { apply Rmult_integral in Ht as [Ht|Ht].
    - lra.
    - exfalso. assert (0 < (exp x + exp (- x)) / 2)%R by lra.
      assert (0 < / ((exp x + exp (- x)) / 2))%R by (apply Rinv_0_lt_compat; lra).
      lra. }
  apply exp_inv in E. lra.
Qed.

Lemma sigmoid_pos (x : R) : (0 < sigmoid x)%R.
Proof.
  unfold sigmoid. pose proof (exp_pos (- x)).
  apply Rdiv_lt_0_compat; lra.
Qed.

Lemma Q2R_half : Q2R (1 # 2) = (1 / 2)%R.
Proof. unfold Q2R. simpl. lra. Qed.

Lemma tiny_logit_dropped a0 a1 a2 a3 b0 b1 b2 b3 wf e1 :
  tiny_logit a0 a1 a2 a3 b0 b1 b2 b3 wf (e1 * 0) = 0%R.
Proof.
  unfold tiny_logit.
  replace (a2 * (e1 * 0) + 0 + 0 + (b2 * 0 + 0 + 0))%R with 0%R by ring.
  rewrite tanh_zero.
  replace (sigmoid (a1 * (e1 * 0) + 0 + 0 + (b1 * 0 + 0 + 0)) * 0
           + sigmoid (a0 * (e1 * 0) + 0 + 0 + (b0 * 0 + 0 + 0)) * 0)%R
    with 0%R by ring.
  rewrite tanh_zero. ring.
Qed.

Lemma tiny_logit_kept a0 a1 a2 a3 b0 b1 b2 b3 wf v :
  a2 <> 0%R -> wf <> 0%R -> v <> 0%R ->
  tiny_logit a0 a1 a2 a3 b0 b1 b2 b3 wf v <> 0%R.
Proof.
  intros Ha Hw Hv. unfold tiny_logit.
  set (s3 := sigmoid (a3 * v + 0 + 0 + (b3 * 0 + 0 + 0))).
  set (s1 := sigmoid (a1 * v + 0 + 0 + (b1 * 0 + 0 + 0))).
  set (s0 := sigmoid (a0 * v + 0 + 0 + (b0 * 0 + 0 + 0))).
  assert (P3 : (0 < s3)%R) by apply sigmoid_pos.
  assert (P0 : (0 < s0)%R) by apply sigmoid_pos.
  assert (T2 : tanh (a2 * v + 0 + 0 + (b2 * 0 + 0 + 0)) <> 0%R).
  { apply tanh_nonzero. replace (a2 * v + 0 + 0 + (b2 * 0 + 0 + 0))%R with (a2 * v)%R by ring.
    now apply Rmult_integral_contrapositive. }
  set (t2 := tanh (a2 * v + 0 + 0 + (b2 * 0 + 0 + 0))) in *.
  assert (C : (s1 * 0 + s0 * t2 <> 0)%R).
  { replace (s1 * 0 + s0 * t2)%R with (s0 * t2)%R by ring.
    apply Rmult_integral_contrapositive. split; [lra | exact T2]. }
  apply tanh_nonzero in C. set (tc := tanh (s1 * 0 + s0 * t2)) in *.
  replace (wf * (s3 * tc) + 0 + 0)%R with (wf * (s3 * tc))%R by ring.
  apply Rmult_integral_contrapositive. split; [exact Hw|].
  apply Rmult_integral_contrapositive. split; [lra | exact C].
Qed.

Lemma tiny_masked_cases (e1 : R) (g : nat) :
  e1 <> 0%R ->
  ((g mod 4 < 2)%nat /\ tiny_masked e1 g <> 0%R)
  \/ ((2 <= g mod 4)%nat /\ tiny_masked e1 g = (e1 * 0)%R).
Proof.
  intros He. unfold tiny_masked, counter_rand. cbn [fst]. rewrite Q2R_half.
  pose proof (Nat.mod_upper_bound g 4 ltac:(lia)) as Hm.
  destruct (Rlt_dec (INR (2 * (g mod 4) + 1) / 8) (1 - 1 / 2)) as [L|L].
  - left. split.
    + assert (L' : (INR (2 * (g mod 4) + 1) < INR 4)%R)
        by (change (INR 4) with (1 + 1 + 1 + 1)%R; lra).
      apply INR_lt in L'. lia.
    + intros E. apply Rmult_integral in E as [E|E]; [contradiction | lra].
  - right. split; [|reflexivity].
    destruct (Nat.lt_ge_cases (g mod 4) 2) as [Hlt|Hge]; [|exact Hge].
    exfalso. apply L.
    assert (L' : (INR (2 * (g mod 4) + 1) <= INR 3)%R) by (apply le_INR; lia).
    change (INR 3) with (1 + 1 + 1)%R in L'. lra.
Qed.

(** C10, as stated, fails in training mode: on the tiny model, three
    successive calls of [forward] on the same input, with the same
    parameters and the same mode, do not return the same logits.  The
    dropout mask of each call is drawn from the generator in the state the
    previous call left it in. *)
Lemma C10_training_calls_differ :
  exists m g0 o1 o2 o3 g3,
    @construct counter_generator cfg_tiny 0%nat = Ok (m, g0)
    /\ LSTMClassifier.training m = true
    /\ @mapM counter_generator _ _ (@LSTMClassifier.forward counter_generator m)
         [x_tiny; x_tiny; x_tiny] g0 = Ok ([o1; o2; o3], g3)
    /\ ~ (o1 = o2 /\ o2 = o3).
Proof.
  assert (A : accepted_config cfg_tiny)
    by (unfold accepted_config; simpl; repeat split; try lia; reflexivity).
  destruct (@construct_total counter_generator cfg_tiny 0%nat A) as (m & g0 & E).
  pose proof (construct_built _ _ _ _ E) as B.
  destruct (tiny_forward m B)
    as (e1 & a0 & a1 & a2 & a3 & b0 & b1 & b2 & b3 & wf & He & Ha & Hw & F).
  set (T := fun g : nat => tiny_logit a0 a1 a2 a3 b0 b1 b2 b3 wf (tiny_masked e1 g)).
  exists m, g0, [[T g0]], [[T (S g0)]], [[T (S (S g0))]], (S (S (S g0))).
  split; [exact E|]. split; [exact (b_training _ _ B)|]. split.
  - cbn [mapM]. unfold bind. rewrite !F. reflexivity.
  - intros [E12 E23].
    assert (Z : forall g : nat, (2 <= g mod 4)%nat -> T g = 0%R).
    { intros g Hg. unfold T.
      destruct (tiny_masked_cases e1 g He) as [[Hl _]|[_ ->]]; [lia|].
      apply tiny_logit_dropped. }
    assert (N : forall g : nat, (g mod 4 < 2)%nat -> T g <> 0%R).
    { intros g Hg. unfold T.
      destruct (tiny_masked_cases e1 g He) as [[_ Hn]|[Hl _]]; [|lia].
      now apply tiny_logit_kept. }
    assert (E12' : T g0 = T (S g0)) by congruence.
    assert (E23' : T (S g0) = T (S (S g0))) by congruence.
    pose proof (Nat.div_mod_eq g0 4) as D0.
    pose proof (Nat.div_mod_eq (S g0) 4) as D1.
    pose proof (Nat.div_mod_eq (S (S g0)) 4) as D2.
    pose proof (Nat.mod_upper_bound g0 4 ltac:(lia)) as U0.
    pose proof (Nat.mod_upper_bound (S g0) 4 ltac:(lia)) as U1.
    pose proof (Nat.mod_upper_bound (S (S g0)) 4 ltac:(lia)) as U2.
    destruct (Nat.lt_ge_cases (g0 mod 4) 2) as [K0|K0];
      destruct (Nat.lt_ge_cases (S g0 mod 4) 2) as [K1|K1];
      destruct (Nat.lt_ge_cases (S (S g0) mod 4) 2) as [K2|K2].
    + lia.
    + apply (N (S g0) K1). rewrite E23'. now apply Z.
    + apply (N g0 K0). rewrite E12'. now apply Z.
    + apply (N g0 K0). rewrite E12'. now apply Z.
    + apply (N (S g0) K1). rewrite <- E12'. now apply Z.
    + apply (N (S g0) K1). rewrite <- E12'. now apply Z.
    + apply (N (S (S g0)) K2). rewrite <- E23'. now apply Z.
    + lia.
Qed.

Lemma C10_calls_carry_no_state_witness :
  exists m g0,
    let lstm := LSTMClassifier.lstm m in
    @construct counter_generator cfg_small 0%nat = Ok (m, g0)
    /\ (forall tr input (g1 : nat),
          @LSTM.forward counter_generator lstm tr input None g1
          = @LSTM.forward counter_generator lstm tr input
              (Some (LSTM.zeros3 1 (length input) 16,
                     LSTM.zeros3 1 (length input) 16)) g1)
    /\ (forall tr x b s (g1 : nat),
          valid_input 50 x b s ->
          exists embedded ga out fins g2,
            @F_dropout counter_generator
              (map (map (fun i => row (Embedding.weight (LSTMClassifier.embedding m))
                                      (Z.to_nat i))) x)
              (1 # 2) tr g1 = Ok (embedded, ga)
            /\ @LSTM.run_stack counter_generator 16 (LSTM.dropout lstm) tr
                 (LSTM.all_weights lstm)
                 (repeat (zero_state b 16) 1) embedded ga = Ok ((out, fins), g2)
            /\ @LSTMClassifier.forward counter_generator (set_mode tr m) x g1
               = Ok (map (Linear.affine (LSTMClassifier.fc m))
                         (hidden_of false (map fst fins)), g2))
    /\ (forall tr xs (g1 : nat) outs g2,
          @mapM counter_generator _ _
            (@LSTMClassifier.forward counter_generator (set_mode tr m)) xs g1
          = Ok (outs, g2) ->
          Forall2 (fun x o => exists ga gb : nat,
                     @LSTMClassifier.forward counter_generator (set_mode tr m) x ga
                     = Ok (o, gb))
                  xs outs)
    /\ (forall xs (g1 : nat) outs g2,
          @mapM counter_generator _ _
            (@LSTMClassifier.forward counter_generator (LSTMClassifier.eval m)) xs g1
          = Ok (outs, g2) ->
          g2 = g1
          /\ Forall2 (fun x o => forall ga : nat,
                        @LSTMClassifier.forward counter_generator
                          (LSTMClassifier.eval m) x ga = Ok (o, ga))
                     xs outs).
Proof.
  refine (C10_calls_carry_no_state counter_generator cfg_small 0%nat _).
  unfold valid_config; simpl. repeat split; try lia; reflexivity.
Defined.

(* ================================================================== *)
(** * Further properties of [__init__] and [_init_weights] *)

(** X1: for a dropout probability that is a number (as [Config] has it; NaN
    is not covered), the constructor succeeds on exactly the accepted
    configurations: every other one makes one of the library constructors
    raise. *)
Theorem construct_ok_iff_accepted (G : Generator) (c : Config) (g : rng) :
  (exists m g', construct c g = Ok (m, g')) <-> accepted_config c.
Proof.
  split.
  - intros (m & g' & E). apply construct_built in E. exact (b_accepted _ _ E).
  - apply construct_total.
Qed.

Section InventoryFacts.
Context {G : Generator}.

Lemma concat_map3 {A B} (f : A -> B) (ws : list (list (list A))) :
  map f (concat (concat ws)) = concat (concat (map (map (map f)) ws)).
Proof. now rewrite !concat_map. Qed.

Lemma length_concat_const {A} (ls : list (list A)) (k : nat) :
  Forall (fun l => length l = k) ls -> length (concat ls) = (k * length ls)%nat.
Proof.
  induction ls as [|l ls IH]; intros F; simpl; [lia|].
  apply Forall_cons_iff in F as [Hl F]. rewrite length_app, IH, Hl by exact F. lia.
Qed.

Lemma lstm_sig_count i h L b :
  length (concat (concat (lstm_sig i h L b)))
  = (4 * (Z.to_nat L * LSTM.num_directions b))%nat.
Proof.
  rewrite (length_concat_const _ 4).
  - f_equal. rewrite (length_concat_const _ (LSTM.num_directions b)).
    + unfold lstm_sig. rewrite length_map, length_seq. lia.
    + unfold lstm_sig. apply Forall_map, Forall_forall. intros layer _.
      now rewrite length_map, length_seq.
  - apply Forall_concat. unfold lstm_sig. apply Forall_map, Forall_forall.
    intros layer _. apply Forall_map, Forall_forall. intros d _. reflexivity.
Qed.

End InventoryFacts.

(** X2: The parameter inventory of a constructed model: the embedding table,
    then for each layer and each direction the four LSTM tensors, then the
    projection weight and bias, under the library's names and with the
    shapes the configuration dictates; [4 * num_layers * num_directions + 3]
    tensors in all. *)
Theorem named_parameters_inventory (G : Generator) (c : Config) (g : rng) :
  accepted_config c ->
  exists m g',
    construct c g = Ok (m, g')
    /\ map sig_of (LSTMClassifier.named_parameters m)
       = ("embedding.weight"%string,
          [Z.to_nat (vocab_size c); Z.to_nat (embedding_dim c)])
         :: map (fun s => (("lstm." ++ fst s)%string, snd s))
                (concat (concat (lstm_sig (embedding_dim c) (hidden_dim c)
                                          (num_layers c) (bidirectional c))))
         ++ [ ("fc.weight"%string,
               [Z.to_nat (output_dim c); Z.to_nat (lstm_output_dim c)]);
              ("fc.bias"%string, [Z.to_nat (output_dim c)]) ]
    /\ length (LSTMClassifier.named_parameters m)
       = (4 * (Z.to_nat (num_layers c) * LSTM.num_directions (bidirectional c)) + 3)%nat.
Proof.
  intros A. destruct (construct_total c g A) as (m & g' & E).
  exists m, g'. split; [exact E|].
  apply construct_built in E. destruct E.
  assert (S : map sig_of (LSTMClassifier.named_parameters m)
              = ("embedding.weight"%string,
                 [Z.to_nat (vocab_size c); Z.to_nat (embedding_dim c)])
                :: map (fun s => (("lstm." ++ fst s)%string, snd s))
                       (concat (concat (lstm_sig (embedding_dim c) (hidden_dim c)
                                                 (num_layers c) (bidirectional c))))
                ++ [ ("fc.weight"%string,
                      [Z.to_nat (output_dim c); Z.to_nat (lstm_output_dim c)]);
                     ("fc.bias"%string, [Z.to_nat (output_dim c)]) ]).
  { unfold LSTMClassifier.named_parameters, LSTM.flat_weights.
    cbn [map]. unfold sig_of at 1. cbn [fst snd]. rewrite b_emb_shape0. f_equal.
    rewrite map_app. cbn [map]. unfold sig_of at 2 3. cbn [fst snd].
    rewrite b_fc_wshape0, b_fc_bshape0. f_equal.
    rewrite <- b_lstm_sig0, <- concat_map3, !map_map. reflexivity. }
  split; [exact S|].
  rewrite <- (length_map sig_of), S. cbn [length].
  rewrite length_app, length_map, lstm_sig_count. cbn [length]. lia.
Qed.

Lemma named_parameters_inventory_witness :
  exists m g',
    @construct counter_generator cfg_small_bidirectional 0%nat = Ok (m, g')
    /\ map sig_of (LSTMClassifier.named_parameters m)
       = [ ("embedding.weight", [50; 8]);
           ("lstm.weight_ih_l0", [64; 8]); ("lstm.weight_hh_l0", [64; 16]);
           ("lstm.bias_ih_l0", [64]); ("lstm.bias_hh_l0", [64]);
           ("lstm.weight_ih_l0_reverse", [64; 8]);
           ("lstm.weight_hh_l0_reverse", [64; 16]);
           ("lstm.bias_ih_l0_reverse", [64]); ("lstm.bias_hh_l0_reverse", [64]);
           ("lstm.weight_ih_l1", [64; 32]); ("lstm.weight_hh_l1", [64; 16]);
           ("lstm.bias_ih_l1", [64]); ("lstm.bias_hh_l1", [64]);
           ("lstm.weight_ih_l1_reverse", [64; 32]);
           ("lstm.weight_hh_l1_reverse", [64; 16]);
           ("lstm.bias_ih_l1_reverse", [64]); ("lstm.bias_hh_l1_reverse", [64]);
           ("fc.weight", [2; 32]); ("fc.bias", [2]) ]%string%nat
    /\ length (LSTMClassifier.named_parameters m) = 19%nat.
Proof.
  refine (named_parameters_inventory counter_generator cfg_small_bidirectional 0%nat _).
  unfold accepted_config; simpl. repeat split; try lia; reflexivity.
Defined.

Section XavierRange.
Context {G : Generator}.

Lemma sample_range (P : R -> Prop) :
  (forall s, P (fst (rand s))) ->
  forall n g, Forall P (fst (sample rand n g)).
Proof.
  intros Hr. induction n as [|n IH]; intros g; simpl; [constructor|].
  specialize (Hr g). destruct (rand g) as [u g1]. specialize (IH g1).
  destruct (sample rand n g1) as [us g2]. simpl in *. constructor; assumption.
Qed.

Lemma xavier_data_range (t : Tensor) (g0 : rng) :
  (forall s, 0 <= fst (rand s) <= 1)%R ->
  (fan_in t + fan_out t <> 0)%nat ->
  Forall (fun w => - xavier_bound (fan_in t) (fan_out t) <= w
                   <= xavier_bound (fan_in t) (fan_out t))%R
         (xavier_data t g0).
Proof.
  intros Hr Hf. unfold xavier_data. rewrite Forall_map.
  pose proof (xavier_bound_pos _ _ Hf) as Ha.
  eapply Forall_impl; [|apply (sample_range (fun u => 0 <= u <= 1)%R Hr)].
  intros u Hu. cbv beta in Hu. nra.
Qed.

End XavierRange.

(** X4: Every weight of a freshly constructed model lies within the Xavier
    bound of its own tensor, [sqrt 3 * sqrt (2 / (fan_in + fan_out))],
    provided the generator's uniform draws lie in the unit interval. *)
Theorem weights_within_xavier_bound (G : Generator) (c : Config) (g : rng) :
  accepted_config c ->
  (forall s, 0 <= fst (rand s) <= 1)%R ->
  exists m g',
    construct c g = Ok (m, g')
    /\ forall name t,
         In (name, t) (LSTMClassifier.named_parameters m) ->
         contains "weight" name = true ->
         Forall (fun w => - xavier_bound (fan_in t) (fan_out t) <= w
                          <= xavier_bound (fan_in t) (fan_out t))%R
                (data t).
Proof.
  intros A Hr. destruct (construct_total c g A) as (m & g' & E).
  exists m, g'. split; [exact E|]. apply construct_built in E.
  pose proof (built_named_parameters c m E) as F. rewrite Forall_forall in F.
  intros name t Hin Hw. specialize (F _ Hin). cbn [fst snd] in F.
  destruct F as (_ & [(_ & Hf & g0 & D)|([B _] & _)]); [|congruence].
  rewrite D. now apply xavier_data_range.
Qed.

Lemma counter_rand_range (s : nat) : (0 <= fst (counter_rand s) <= 1)%R.
Proof.
  unfold counter_rand. cbn [fst].
  pose proof (Nat.mod_upper_bound s 4 ltac:(lia)) as Hm.
  pose proof (pos_INR (2 * (s mod 4) + 1)) as H0.
  assert (H1 : (INR (2 * (s mod 4) + 1) <= INR 7)%R) by (apply le_INR; lia).
  change (INR 7) with (1 + 1 + 1 + 1 + 1 + 1 + 1)%R in H1. lra.
Qed.

Lemma weights_within_xavier_bound_witness :
  exists m g',
    @construct counter_generator cfg_small 0%nat = Ok (m, g')
    /\ forall name t,
         In (name, t) (LSTMClassifier.named_parameters m) ->
         contains "weight" name = true ->
         Forall (fun w => - xavier_bound (fan_in t) (fan_out t) <= w
                          <= xavier_bound (fan_in t) (fan_out t))%R
                (data t).
Proof.
  refine (weights_within_xavier_bound counter_generator cfg_small 0%nat _ _).
  - unfold accepted_config; simpl. repeat split; try lia; reflexivity.
  - exact counter_rand_range.
Defined.

(* ================================================================== *)
(** * Further properties of [forward]: the two ends of the dropout range *)

Section DropoutEnds.
Context {G : Generator}.

Lemma F_dropout_p0 input p tr g :
  Qeq_bool p 0 = true -> F_dropout input p tr g = Ok (input, g).
Proof.
  intros Hp. unfold F_dropout. rewrite Hp, orb_true_r. reflexivity.
Qed.

Lemma run_stack_p0 H p tr :
  Qeq_bool p 0 = true ->
  forall layers hc0 input g,
    LSTM.run_stack H p tr layers hc0 input g
    = LSTM.run_stack H p false layers hc0 input g.
Proof.
  intros Hp. induction layers as [|layer rest IH]; intros hc0 input g; [reflexivity|].
  cbn [LSTM.run_stack].
  destruct (LSTM.run_layer H layer (firstn (length layer) hc0) input) as [out fin].
  assert (E : forall t,
             (match rest with
              | [] => ret out
              | _ :: _ => F_dropout out p t
              end) g = Ok (out, g))
    by (intros t; destruct rest; [reflexivity | now apply F_dropout_p0]).
  unfold bind at 1 3. rewrite !E. unfold bind. rewrite IH. reflexivity.
Qed.

Lemma bind_cong {A B} (c1 c2 : M A) (k1 k2 : A -> M B) g :
  c1 g = c2 g -> (forall a g', k1 a g' = k2 a g') ->
  (x <- c1 ;; k1 x) g = (x <- c2 ;; k2 x) g.
Proof.
  intros Hc Hk. unfold bind. rewrite Hc. destruct (c2 g) as [[a g']|e]; [apply Hk | reflexivity].
Qed.

Lemma bind_lift_ok {A B} (a : A) (k : A -> M B) g :
  (x <- lift (Ok a) ;; k x) g = k a g.
Proof. reflexivity. Qed.

Lemma Qeq_one_not_zero p : Qeq_bool p 1 = true -> Qeq_bool p 0 = false.
Proof.
  intros H1. apply Qeq_bool_iff in H1. apply not_true_is_false. intros H0.
  apply Qeq_bool_iff in H0. rewrite H0 in H1. discriminate H1.
Qed.

Lemma map_const {A B} (f : A -> B) (y : B) (l : list A) :
  Forall (fun a => f a = y) l -> map f l = repeat y (length l).
Proof.
  induction l as [|a l IH]; intros F; simpl; [reflexivity|].
  apply Forall_cons_iff in F as [Ha F]. now rewrite Ha, IH.
Qed.

Lemma zeroed_activation (t : list (list vec)) b s f :
  shape3 t b s f ->
  map (map (map (fun v => v * 0)%R)) t = repeat (repeat (repeat 0%R f) s) b.
Proof.
  intros [Lb Fb]. rewrite <- Lb. apply map_const.
  eapply Forall_impl; [|exact Fb]. intros xs [Ls Fs]. rewrite <- Ls.
  apply map_const. eapply Forall_impl; [|exact Fs]. intros v Lv. rewrite <- Lv.
  apply map_const. apply Forall_forall. intros x _. apply Rmult_0_r.
Qed.

End DropoutEnds.

(** X5: With [dropout_rate = 0] the forward pass in training mode is the
    forward pass in inference mode, on every input and from every generator
    state: same result, same final generator state. *)
Theorem dropout_zero_training_is_inference (G : Generator) (c : Config) (g : rng) :
  accepted_config c -> Qeq_bool (dropout_rate c) 0 = true ->
  exists m g0,
    construct c g = Ok (m, g0)
    /\ forall x g1,
         LSTMClassifier.forward (LSTMClassifier.train m) x g1
         = LSTMClassifier.forward (LSTMClassifier.eval m) x g1.
Proof.
  intros A Hp. destruct (construct_total c g A) as (m & g0 & E).
  exists m, g0. split; [exact E|]. apply construct_built in E.
  intros x g1. unfold LSTMClassifier.forward.
  cbn [LSTMClassifier.train LSTMClassifier.eval LSTMClassifier.embedding
       LSTMClassifier.lstm LSTMClassifier.fc LSTMClassifier.dropout
       LSTMClassifier.training].
  apply bind_cong; [reflexivity|]. intros emb g2.
  apply bind_cong.
  { unfold Dropout.forward. rewrite (b_drop _ _ E), F_dropout_eval.
    now apply F_dropout_p0. }
  intros emb' g3. apply bind_cong; [|reflexivity].
  unfold LSTM.forward.
  destruct (negb (forallb _ emb')); [reflexivity|].
  destruct (existsb _ emb'); [reflexivity|].
  apply bind_cong; [|reflexivity].
  apply run_stack_p0. rewrite (b_lstm_dropout _ _ E).
  destruct (num_layers c >? 1)%Z; [exact Hp | reflexivity].
Qed.

Lemma dropout_zero_training_is_inference_witness :
  exists m g0,
    @construct counter_generator (mkConfig 50 8 16 2 0 false 2 0) 0%nat = Ok (m, g0)
    /\ forall x (g1 : nat),
         @LSTMClassifier.forward counter_generator (LSTMClassifier.train m) x g1
         = @LSTMClassifier.forward counter_generator (LSTMClassifier.eval m) x g1.
Proof.
  refine (dropout_zero_training_is_inference counter_generator
            (mkConfig 50 8 16 2 0 false 2 0) 0%nat _ _).
  - unfold accepted_config; simpl. repeat split; try lia; reflexivity.
  - reflexivity.
Defined.

(** X6: With [dropout_rate = 1], which the constructor accepts, the embedded
    input is zeroed in training mode: two inputs of the same shape get the
    same logits, whatever tokens they hold. *)
Theorem dropout_one_ignores_tokens (G : Generator) (c : Config) (g : rng)
    (x x' : list (list Z)) (b s : nat) (g1 : rng) :
  accepted_config c -> Qeq_bool (dropout_rate c) 1 = true ->
  valid_input (vocab_size c) x b s -> valid_input (vocab_size c) x' b s ->
  exists m g0,
    construct c g = Ok (m, g0)
    /\ LSTMClassifier.forward (LSTMClassifier.train m) x g1
       = LSTMClassifier.forward (LSTMClassifier.train m) x' g1.
Proof.
  intros A Hp Vx Vx'. destruct (construct_total c g A) as (m & g0 & E).
  exists m, g0. split; [exact E|]. apply construct_built in E.
  destruct A as (HV & _). destruct (b_emb_init _ _ E) as (Fe & _).
  assert (W : forall y, valid_input (vocab_size c) y b s ->
                valid_input (Z.of_nat (Z.to_nat (vocab_size c))) y b s)
    by (intros y Hy; rewrite Z2Nat.id by lia; exact Hy).
  destruct (Embedding_forward_ok _ _ _ x b s (b_emb_shape _ _ E) Fe (W x Vx))
    as (Ex & Sx).
  destruct (Embedding_forward_ok _ _ _ x' b s (b_emb_shape _ _ E) Fe (W x' Vx'))
    as (Ex' & Sx').
  unfold LSTMClassifier.forward.
  cbn [LSTMClassifier.train LSTMClassifier.embedding LSTMClassifier.lstm
       LSTMClassifier.fc LSTMClassifier.dropout LSTMClassifier.training].
  rewrite Ex, Ex'.
  assert (Z0 : forall emb, shape3 emb b s (Z.to_nat (embedding_dim c)) ->
            Dropout.forward (LSTMClassifier.dropout m) true emb g1
            = Ok (repeat (repeat (repeat 0%R (Z.to_nat (embedding_dim c))) s) b, g1)).
  { intros emb Se. unfold Dropout.forward, F_dropout.
    rewrite (b_drop _ _ E), (Qeq_one_not_zero _ Hp), Hp. cbn [negb orb]. unfold ret.
    now rewrite (zeroed_activation _ _ _ _ Se). }
  rewrite !bind_lift_ok. apply bind_cong; [|reflexivity].
  rewrite (Z0 _ Sx), (Z0 _ Sx'). reflexivity.
Qed.

Lemma dropout_one_ignores_tokens_witness :
  exists m g0,
    @construct counter_generator cfg_dropout_one 0%nat = Ok (m, g0)
    /\ @LSTMClassifier.forward counter_generator (LSTMClassifier.train m)
         [[1; 2; 3]; [4; 0; 7]]%Z 5%nat
       = @LSTMClassifier.forward counter_generator (LSTMClassifier.train m)
           [[9; 9; 9]; [0; 0; 49]]%Z 5%nat.
Proof.
  refine (dropout_one_ignores_tokens counter_generator cfg_dropout_one 0%nat
            [[1; 2; 3]; [4; 0; 7]]%Z [[9; 9; 9]; [0; 0; 49]]%Z 2 3 5%nat _ _ _ _).
  - unfold accepted_config; simpl. repeat split; try lia; reflexivity.
  - reflexivity.
  - unfold valid_input; simpl.
    repeat (first [apply Forall_cons | apply Forall_nil | split | reflexivity | lia]).
  - unfold valid_input; simpl.
    repeat (first [apply Forall_cons | apply Forall_nil | split | reflexivity | lia]).
Defined.

(* ================================================================== *)
(** * Further properties of [forward]: the size of the initial logits *)

Section HiddenRange.
Context {G : Generator}.

Lemma sigmoid_le_1 (x : R) : (sigmoid x <= 1)%R.
Proof.
  unfold sigmoid. pose proof (exp_pos (- x)) as P.
  unfold Rdiv. rewrite Rmult_1_l. rewrite <- Rinv_1 at 2.
  apply Rinv_le_contravar; lra.
Qed.

Lemma tanh_range (x : R) : within 1 (tanh x).
Proof.
  unfold within, tanh, sinh, cosh.
  pose proof (exp_pos x) as P1. pose proof (exp_pos (- x)) as P2.
  set (s := ((exp x - exp (- x)) / 2)%R). set (c := ((exp x + exp (- x)) / 2)%R).
  assert (Hs : (- c <= s <= c)%R) by (subst s c; lra).
  assert (Hc : (0 < c)%R) by (subst c; lra).
  pose proof (Rinv_0_lt_compat _ Hc) as Hi.
  assert (E : (c * / c = 1)%R) by (apply Rinv_r; lra).
  unfold Rdiv. clearbody s c.
  assert (U : (0 <= (c - s) * / c)%R) by (apply Rmult_le_pos; lra).
  assert (L : (0 <= (s + c) * / c)%R) by (apply Rmult_le_pos; lra).
  lra.
Qed.

Lemma gate_product_range (o t : R) :
  (0 < o <= 1)%R -> within 1 t -> within 1 (o * t).
Proof. unfold within. intros Ho Ht. nra. Qed.

Lemma lstm_cell_range ps H x hc :
  Forall (within 1) (fst (LSTM.lstm_cell ps H x hc)).
Proof.
  unfold LSTM.lstm_cell. destruct hc as [h c]. cbn [fst]. unfold vmul at 1.
  apply map2_Forall. intros o t Ho Ht.
  apply in_map_iff in Ho as (u & <- & _). apply in_map_iff in Ht as (v & <- & _).
  apply gate_product_range; [|apply tanh_range].
  split; [apply sigmoid_pos | apply sigmoid_le_1].
Qed.

Lemma run_cell_range (cell : vec -> vec * vec -> vec * vec) :
  (forall x hc, Forall (within 1) (fst (cell x hc))) ->
  forall xs hc, Forall (within 1) (fst hc) ->
    Forall (within 1) (fst (snd (LSTM.run_cell cell xs hc))).
Proof.
  intros Hcell. induction xs as [|x xs IH]; intros hc Hhc; simpl; [exact Hhc|].
  specialize (IH (cell x hc) (Hcell x hc)).
  destruct (LSTM.run_cell cell xs (cell x hc)) as [outs fin]. exact IH.
Qed.

Lemma direction_pass_range ps H direction xs hc :
  Forall (within 1) (fst hc) ->
  Forall (within 1) (fst (snd (LSTM.direction_pass ps H direction xs hc))).
Proof.
  intros Hhc. unfold LSTM.direction_pass. destruct (direction =? 0)%nat.
  - apply run_cell_range; [apply lstm_cell_range | exact Hhc].
  - pose proof (run_cell_range (LSTM.lstm_cell ps H) (lstm_cell_range ps H)
                  (rev xs) hc Hhc) as R.
    destruct (LSTM.run_cell (LSTM.lstm_cell ps H) (rev xs) hc) as [outs fin].
    exact R.
Qed.

Lemma direction_batch_range H input dps hc0 :
  hidden_within hc0 -> hidden_within (snd (LSTM.direction_batch H input dps hc0)).
Proof.
  intros Hh. unfold LSTM.direction_batch, hidden_within. destruct dps as [d ps].
  cbn [fst snd]. rewrite Forall_map. apply map2_Forall. intros xs [h c] _ Hin.
  apply direction_pass_range. cbn [fst].
  unfold hidden_within in Hh. rewrite Forall_forall in Hh. apply Hh.
  eapply in_combine_l; eauto.
Qed.

Lemma run_layer_range H layer hc0 input :
  Forall hidden_within hc0 ->
  Forall hidden_within (snd (LSTM.run_layer H layer hc0 input)).
Proof.
  intros Hh. unfold LSTM.run_layer. cbn [snd]. rewrite Forall_map.
  apply map2_Forall. intros dps hc _ Hin. apply direction_batch_range.
  rewrite Forall_forall in Hh. now apply Hh.
Qed.

Lemma run_stack_range H p tr : forall layers hc0 input g out fins g',
  Forall hidden_within hc0 ->
  LSTM.run_stack H p tr layers hc0 input g = Ok ((out, fins), g') ->
  Forall hidden_within fins.
Proof.
  induction layers as [|layer rest IH]; intros hc0 input g out fins g' Hh E.
  - apply ret_inv in E as [E _]. inversion E. constructor.
  - cbn [LSTM.run_stack] in E.
    pose proof (run_layer_range H layer (firstn (length layer) hc0) input
                  (Forall_firstn _ _ _ Hh)) as R.
    destruct (LSTM.run_layer H layer (firstn (length layer) hc0) input) as [o fin].
    cbn [snd] in R.
    apply bind_inv in E as (o' & g1 & _ & E).
    apply bind_inv in E as ([o2 fins2] & g2 & E2 & E).
    apply ret_inv in E as [E _]. inversion E; subst.
    apply Forall_app. split; [exact R|].
    eapply IH; [|exact E2]. now apply Forall_skipn.
Qed.

Lemma zero_state_range b H n : Forall hidden_within (repeat (zero_state b H) n).
Proof.
  apply Forall_forall. intros hc Hin. apply repeat_spec in Hin. subst hc.
  unfold hidden_within, zero_state. cbn [fst].
  apply Forall_forall. intros v Hv. apply repeat_spec in Hv. subst v.
  apply Forall_forall. intros z Hz. apply repeat_spec in Hz. subst z.
  unfold within. lra.
Qed.

Lemma nth_Forall {A} (P : A -> Prop) (l : list A) (d : A) n :
  Forall P l -> P d -> P (nth n l d).
Proof.
  intros F Hd. destruct (nth_in_or_default n l d) as [Hin| ->]; [|exact Hd].
  rewrite Forall_forall in F. now apply F.
Qed.

Lemma hidden_of_range bidir fins :
  Forall hidden_within fins ->
  Forall (Forall (within 1)) (hidden_of bidir (map fst fins)).
Proof.
  intros F.
  assert (F' : Forall (Forall (Forall (within 1))) (map fst fins))
    by (rewrite Forall_map; exact F).
  assert (N : forall n, Forall (Forall (within 1)) (nth n (map fst fins) []))
    by (intros n; apply nth_Forall; [exact F' | constructor]).
  unfold hidden_of. destruct bidir; [|apply N].
  unfold cat_dim1. apply map2_Forall. intros u v Hu Hv. apply Forall_app.
  pose proof (N (length (map fst fins) - 2)%nat) as N2.
  pose proof (N (length (map fst fins) - 1)%nat) as N1.
  rewrite Forall_forall in N1, N2. split; [now apply N2 | now apply N1].
Qed.

(** [|r . x| <= len r * a] for a row within [a] and a vector within 1. *)
Lemma dot_range (a : R) : (0 <= a)%R -> forall r x,
  Forall (within a) r -> Forall (within 1) x ->
  within (INR (length r) * a) (dot r x).
Proof.
  intros Ha. unfold dot. induction r as [|w r IH]; intros x Fr Fx.
  - simpl. unfold within. lra.
  - apply Forall_cons_iff in Fr as [Hw Fr].
    assert (P : (0 <= INR (length r) * a)%R)
      by (apply Rmult_le_pos; [apply pos_INR | exact Ha]).
    destruct x as [|v x].
    + cbn [map2 fold_right length]. rewrite S_INR. unfold within. lra.
    + apply Forall_cons_iff in Fx as [Hv Fx].
      specialize (IH x Fr Fx). cbn [map2 fold_right length]. rewrite S_INR.
      unfold within in *. nra.
Qed.

Lemma affine_range (fc : Linear.t) (o i : nat) (a : R) (x : vec) :
  (0 <= a)%R ->
  shape (Linear.weight fc) = [o; i] -> filled (Linear.weight fc) ->
  Forall (within a) (data (Linear.weight fc)) ->
  data (Linear.bias fc) = repeat 0%R o ->
  Forall (within 1) x ->
  Forall (within (INR i * a)) (Linear.affine fc x).
Proof.
  intros Ha Sw Fw Rw Bz Fx. unfold Linear.affine, vadd. rewrite Bz.
  apply map2_Forall. intros u z Hu Hz. apply repeat_spec in Hz. subst z.
  unfold matvec, rows in Hu. apply in_map_iff in Hu as (r & <- & Hr).
  apply in_map_iff in Hr as (k & <- & Hk). apply in_seq in Hk.
  unfold size in Hk. rewrite Sw in Hk. cbn [nth] in Hk.
  pose proof (dot_range a Ha (row (Linear.weight fc) k) x) as D.
  rewrite (row_length _ o i k Sw Fw) in D by lia.
  assert (Fr : Forall (within a) (row (Linear.weight fc) k))
    by (unfold row; apply Forall_firstn, Forall_skipn; exact Rw).
  specialize (D Fr Fx). unfold within in *. lra.
Qed.

End HiddenRange.

(** X7: The logits of a freshly constructed model, in either mode and on every
    valid input, are at most [D * sqrt 3 * sqrt (2 / (D + O))] in absolute
    value, with [D] the width of the encoder output and [O] the number of
    classes: the hidden state lies in [-1, 1], the projection weights within
    their Xavier bound and the projection bias is zero.  The generator's
    uniform draws are taken in the unit interval. *)
Theorem initial_logits_bounded (G : Generator) (c : Config) (g : rng)
    (tr : bool) (x : list (list Z)) (b s : nat) (g1 : rng) :
  accepted_config c ->
  (forall s, 0 <= fst (rand s) <= 1)%R ->
  valid_input (vocab_size c) x b s ->
  exists m g0,
    construct c g = Ok (m, g0)
    /\ exists logits g2,
         LSTMClassifier.forward (set_mode tr m) x g1 = Ok (logits, g2)
         /\ Forall (Forall (within
              (INR (Z.to_nat (lstm_output_dim c))
               * xavier_bound (Z.to_nat (lstm_output_dim c))
                              (Z.to_nat (output_dim c))))) logits.
Proof.
  intros A Hr Vx. destruct (construct_total c g A) as (m & g0 & E).
  exists m, g0. split; [exact E|]. apply construct_built in E.
  destruct (forward_spec c m tr x b s g1 E Vx)
    as (embedded & g2 & out & fins & g3 & _ & _ & Ers & _ & _ & _ & Ef & _).
  eexists _, g3. split; [exact Ef|].
  pose proof (run_stack_range _ _ _ _ _ _ _ _ _ _ (zero_state_range _ _ _) Ers) as Rf.
  pose proof (hidden_of_range (bidirectional c) fins Rf) as Rh.
  destruct (b_fc_winit _ _ E) as (Fw & [(_ & Hf & gw & Dw)|([_ Hb] & _)]);
    [|discriminate Hb].
  destruct (b_fc_binit _ _ E) as (_ & [([Hw _] & _)|(_ & Db)]); [discriminate Hw|].
  rewrite (b_fc_bshape _ _ E) in Db. cbn [numel fold_right] in Db.
  pose proof (xavier_data_range _ gw Hr Hf) as Rw. rewrite <- Dw in Rw.
  pose proof (xavier_bound_pos _ _ Hf) as Pa.
  unfold fan_in, fan_out, size in Rw, Pa. rewrite (b_fc_wshape _ _ E) in Rw, Pa.
  cbn [nth skipn numel fold_right] in Rw, Pa. rewrite !Nat.mul_1_r in Rw, Pa.
  rewrite Forall_map. eapply Forall_impl; [|exact Rh]. intros v Hv.
  eapply affine_range;
    [apply Rlt_le; exact Pa | exact (b_fc_wshape _ _ E) | exact Fw | exact Rw | | exact Hv].
  rewrite Db. f_equal. lia.
Qed.

Lemma initial_logits_bounded_witness :
  exists m g0,
    @construct counter_generator cfg_small 0%nat = Ok (m, g0)
    /\ exists logits g2,
         @LSTMClassifier.forward counter_generator (set_mode true m) x_small 7%nat
         = Ok (logits, g2)
         /\ Forall (Forall (within
              (INR (Z.to_nat (lstm_output_dim cfg_small))
               * xavier_bound (Z.to_nat (lstm_output_dim cfg_small))
                              (Z.to_nat (output_dim cfg_small))))) logits.
Proof.
  refine (initial_logits_bounded counter_generator cfg_small 0%nat true x_small 2 3
            7%nat _ _ _).
  - unfold accepted_config; simpl. repeat split; try lia; reflexivity.
  - exact counter_rand_range.
  - unfold valid_input, x_small; simpl.
    repeat (first [apply Forall_cons | apply Forall_nil | split | reflexivity | lia]).
Defined.

(* ================================================================== *)
(** * Further properties of [forward]: the samples of a batch *)

Section BatchAxis.
Context {G : Generator}.

Lemma map2_app {A B C} (f : A -> B -> C) : forall a1 b1 a2 b2,
  length a1 = length b1 ->
  map2 f (a1 ++ a2) (b1 ++ b2) = map2 f a1 b1 ++ map2 f a2 b2.
Proof.
  induction a1 as [|a a1 IH]; intros [|b b1] a2 b2 L; simpl in *;
    try discriminate; [reflexivity|].
  f_equal. apply IH. congruence.
Qed.

Lemma combine_app_eq {A B} : forall (a1 : list A) (b1 : list B) a2 b2,
  length a1 = length b1 ->
  combine (a1 ++ a2) (b1 ++ b2) = combine a1 b1 ++ combine a2 b2.
Proof.
  induction a1 as [|a a1 IH]; intros [|b b1] a2 b2 L; simpl in *;
    try discriminate; [reflexivity|].
  f_equal. apply IH. congruence.
Qed.

Lemma map_map2 {A B C D} (f : A -> B -> C) (h : C -> D) : forall a b,
  map h (map2 f a b) = map2 (fun x y => h (f x y)) a b.
Proof.
  induction a as [|x a IH]; intros [|y b]; simpl; try reflexivity. f_equal. apply IH.
Qed.

Lemma map2_map {A A' B B' C} (f : A' -> B' -> C) (h : A -> A') (k : B -> B') :
  forall a b, map2 f (map h a) (map k b) = map2 (fun x y => f (h x) (k y)) a b.
Proof.
  induction a as [|x a IH]; intros [|y b]; simpl; try reflexivity. f_equal. apply IH.
Qed.

Lemma map2_map2 {A B C D} (f : C -> C -> D) (f1 f2 : A -> B -> C) :
  forall a b1 b2,
    map2 f (map2 f1 a b1) (map2 f2 a b2)
    = map2 (fun x y => f (f1 x (fst y)) (f2 x (snd y))) a (combine b1 b2).
Proof.
  induction a as [|x a IH]; intros [|y1 b1] [|y2 b2]; simpl; try reflexivity.
  f_equal. apply IH.
Qed.

Lemma map2_combine_r {A B C D} (f : A -> D -> C) (h : B -> B -> D) :
  forall a b1 b2,
    map2 f a (map2 h b1 b2) = map2 (fun x y => f x (h (fst y) (snd y))) a (combine b1 b2).
Proof.
  induction a as [|x a IH]; intros [|y1 b1] [|y2 b2]; simpl; try reflexivity.
  f_equal. apply IH.
Qed.

Lemma map2_ext_in {A B C} (f h : A -> B -> C) : forall a b,
  (forall x y, In x a -> In y b -> f x y = h x y) -> map2 f a b = map2 h a b.
Proof.
  induction a as [|x a IH]; intros [|y b] E; simpl; try reflexivity.
  f_equal; [apply E; left; reflexivity|].
  apply IH. intros; apply E; right; assumption.
Qed.

Lemma firstn_map2 {A B C} (f : A -> B -> C) n : forall a b,
  firstn n (map2 f a b) = map2 f (firstn n a) (firstn n b).
Proof.
  induction n as [|n IH]; intros [|x a] [|y b]; simpl; try reflexivity.
  f_equal. apply IH.
Qed.

Lemma skipn_map2 {A B C} (f : A -> B -> C) n : forall a b,
  length a = length b ->
  skipn n (map2 f a b) = map2 f (skipn n a) (skipn n b).
Proof.
  induction n as [|n IH]; intros [|x a] [|y b] L; simpl in *;
    try reflexivity; try discriminate.
  apply IH. congruence.
Qed.

Lemma map2_repeat {A B C} (f : A -> B -> C) a b n :
  map2 f (repeat a n) (repeat b n) = repeat (f a b) n.
Proof. induction n; simpl; congruence. Qed.

Lemma nth_map2_app {A} : forall (a b : list (list A)) k,
  length a = length b ->
  nth k (map2 (@app A) a b) [] = nth k a [] ++ nth k b [].
Proof.
  induction a as [|x a IH]; intros [|y b] k L; simpl in *; try discriminate.
  - destruct k; reflexivity.
  - destruct k; [reflexivity|]. apply IH. congruence.
Qed.

Lemma zero_state_app b1 b2 H :
  state_app (zero_state b1 H) (zero_state b2 H) = zero_state (b1 + b2) H.
Proof. unfold state_app, zero_state. cbn [fst snd]. now rewrite <- !repeat_app. Qed.

Lemma direction_batch_app H i1 i2 dps hc1 hc2 :
  length (fst hc1) = length i1 -> length (snd hc1) = length i1 ->
  LSTM.direction_batch H (i1 ++ i2) dps (state_app hc1 hc2)
  = (fst (LSTM.direction_batch H i1 dps hc1) ++ fst (LSTM.direction_batch H i2 dps hc2),
     state_app (snd (LSTM.direction_batch H i1 dps hc1))
               (snd (LSTM.direction_batch H i2 dps hc2))).
Proof.
  intros L1 L2. unfold LSTM.direction_batch, state_app. destruct dps as [d ps].
  cbn [fst snd].
  rewrite combine_app_eq by congruence.
  rewrite map2_app by (rewrite length_combine; lia).
  now rewrite !map_app.
Qed.

Lemma cat_features_app b1 : forall l1 l2 : list (list (list vec)),
  length l1 = length l2 -> Forall (fun o => length o = b1) l1 ->
  LSTM.cat_features (map2 (@app _) l1 l2)
  = LSTM.cat_features l1 ++ LSTM.cat_features l2.
Proof.
  induction l1 as [|o1 l1 IH]; intros [|o2 l2] L F; simpl in L; try discriminate;
    [reflexivity|].
  apply Forall_cons_iff in F as [Ho F].
  destruct l1 as [|o1' l1]; destruct l2 as [|o2' l2]; simpl in L; try discriminate;
    [reflexivity|].
  assert (E : LSTM.cat_features (map2 (@app _) (o1' :: l1) (o2' :: l2))
              = LSTM.cat_features (o1' :: l1) ++ LSTM.cat_features (o2' :: l2))
    by (apply IH; [simpl; congruence | exact F]).
  assert (Lc : length (LSTM.cat_features (o1' :: l1)) = b1)
    by (apply cat_features_length; [discriminate | exact F]).
  change (map2 (map2 (@app R)) (o1 ++ o2)
            (LSTM.cat_features (map2 (@app _) (o1' :: l1) (o2' :: l2)))
          = map2 (map2 (@app R)) o1 (LSTM.cat_features (o1' :: l1))
            ++ map2 (map2 (@app R)) o2 (LSTM.cat_features (o2' :: l2))).
  rewrite E. apply map2_app. congruence.
Qed.

Lemma run_layer_snd_length H layer hc0 input :
  length (snd (LSTM.run_layer H layer hc0 input))
  = Nat.min (length layer) (length hc0).
Proof.
  unfold LSTM.run_layer. cbn [snd].
  rewrite length_map, map2_length, length_combine, length_seq. lia.
Qed.

Lemma run_layer_app H b1 layer hc1 hc2 i1 i2 :
  Forall (group_ok H) layer ->
  length hc1 = length layer -> length hc2 = length layer ->
  Forall (state_ok b1 H) hc1 -> length i1 = b1 ->
  LSTM.run_layer H layer (map2 state_app hc1 hc2) (i1 ++ i2)
  = (fst (LSTM.run_layer H layer hc1 i1) ++ fst (LSTM.run_layer H layer hc2 i2),
     map2 state_app (snd (LSTM.run_layer H layer hc1 i1))
                    (snd (LSTM.run_layer H layer hc2 i2))).
Proof.
  intros Gk L1 L2 F1 Li. unfold LSTM.run_layer. cbn [fst snd].
  set (cs := combine (seq 0 (length layer)) layer).
  assert (E : map2 (LSTM.direction_batch H (i1 ++ i2)) cs (map2 state_app hc1 hc2)
              = map2 (fun r1 r2 => (fst r1 ++ fst r2, state_app (snd r1) (snd r2)))
                  (map2 (LSTM.direction_batch H i1) cs hc1)
                  (map2 (LSTM.direction_batch H i2) cs hc2)).
  { rewrite map2_map2, map2_combine_r. apply map2_ext_in.
    intros dps [h1 h2] _ Hin. cbn [fst snd].
    apply in_combine_l in Hin. rewrite Forall_forall in F1.
    destruct (F1 h1 Hin) as [[La _] [Lb _]].
    apply direction_batch_app; congruence. }
  rewrite E. clear E.
  set (rs1 := map2 (LSTM.direction_batch H i1) cs hc1).
  set (rs2 := map2 (LSTM.direction_batch H i2) cs hc2).
  assert (Lr : length rs1 = length rs2)
    by (subst rs1 rs2; rewrite !map2_length; lia).
  assert (Fr : Forall (fun r => length (fst r) = b1) rs1).
  { subst rs1. apply map2_Forall. intros [d ps] hc Hin Hhc.
    rewrite Forall_forall in Gk, F1.
    apply direction_batch_ok; [|apply F1; exact Hhc|exact Li].
    apply Gk. subst cs. eapply in_combine_r; eauto. }
  f_equal.
  - rewrite map_map2.
    rewrite <- (cat_features_app b1 (map fst rs1) (map fst rs2));
      [|now rewrite !length_map|now rewrite Forall_map].
    now rewrite map2_map.
  - rewrite map_map2, map2_map. reflexivity.
Qed.

(** In inference mode, running the stack on two batches side by side is
    running it on each. *)
Lemma run_stack_app H d b1 p :
  forall layers hc1 hc2 i1 i2 g o1 f1 o2 f2,
    layers_ok H d layers -> (1 <= d)%nat ->
    (d * length layers <= length hc1)%nat -> length hc2 = length hc1 ->
    Forall (state_ok b1 H) hc1 -> length i1 = b1 ->
    LSTM.run_stack H p false layers hc1 i1 g = Ok ((o1, f1), g) ->
    LSTM.run_stack H p false layers hc2 i2 g = Ok ((o2, f2), g) ->
    LSTM.run_stack H p false layers (map2 state_app hc1 hc2) (i1 ++ i2) g
    = Ok ((o1 ++ o2, map2 state_app f1 f2), g).
Proof.
  induction layers as [|layer rest IH];
    intros hc1 hc2 i1 i2 g o1 f1 o2 f2 Hl Hd Lh L2 F1 Li E1 E2.
  - apply ret_inv in E1 as [E1 _]. apply ret_inv in E2 as [E2 _].
    inversion E1; inversion E2; subst. reflexivity.
  - apply Forall_cons_iff in Hl as [[Ld Gk] Hrest]. simpl length in Lh.
    assert (Drop : forall out : list (list vec),
              (match rest with
               | [] => ret out
               | _ :: _ => F_dropout out p false
               end) g = Ok (out, g))
      by (intros out; destruct rest; reflexivity).
    cbn [LSTM.run_stack] in E1, E2 |- *.
    rewrite firstn_map2, skipn_map2 by congruence.
    assert (La : length (firstn (length layer) hc1) = length layer)
      by (rewrite length_firstn; nia).
    assert (Lb : length (firstn (length layer) hc2) = length layer)
      by (rewrite length_firstn; nia).
    assert (Hne : layer <> []) by (intros ->; simpl in Ld; lia).
    rewrite (run_layer_app H b1 layer _ _ i1 i2 Gk La Lb (Forall_firstn _ _ _ F1) Li).
    destruct (run_layer_ok H b1 layer (firstn (length layer) hc1) i1 Hne Gk La
                (Forall_firstn _ _ _ F1) Li) as (Lo & _ & _).
    pose proof (run_layer_snd_length H layer (firstn (length layer) hc1) i1) as S1.
    pose proof (run_layer_snd_length H layer (firstn (length layer) hc2) i2) as S2.
    destruct (LSTM.run_layer H layer (firstn (length layer) hc1) i1) as [u1 fin1].
    destruct (LSTM.run_layer H layer (firstn (length layer) hc2) i2) as [u2 fin2].
    cbn [fst snd] in *.
    unfold bind at 1 in E1. rewrite Drop in E1.
    apply bind_inv in E1 as ([r1 fr1] & g1 & R1 & E1). apply ret_inv in E1 as [E1 ->].
    unfold bind at 1 in E2. rewrite Drop in E2.
    apply bind_inv in E2 as ([r2 fr2] & g2 & R2 & E2). apply ret_inv in E2 as [E2 ->].
    inversion E1; inversion E2; subst o1 f1 o2 f2. cbn [fst snd].
    unfold bind at 1. rewrite Drop.
    erewrite bind_ok;
      [|eapply IH;
        [exact Hrest | exact Hd | rewrite length_skipn; nia
        | rewrite !length_skipn; lia | now apply Forall_skipn | exact Lo
        | exact R1 | exact R2]].
    unfold ret. cbn [fst snd]. rewrite map2_app by lia. reflexivity.
Qed.

Lemma hidden_of_app bidir b1 H (f1 f2 : list (list vec * list vec)) :
  length f1 = length f2 ->
  (LSTM.num_directions bidir <= length f1)%nat ->
  Forall (state_ok b1 H) f1 ->
  hidden_of bidir (map fst (map2 state_app f1 f2))
  = hidden_of bidir (map fst f1) ++ hidden_of bidir (map fst f2).
Proof.
  intros L Hn F.
  assert (E : map fst (map2 state_app f1 f2) = map2 (@app _) (map fst f1) (map fst f2))
    by (rewrite map_map2, map2_map; reflexivity).
  rewrite E. unfold hidden_of.
  rewrite map2_length, !length_map, <- L, Nat.min_id.
  rewrite !nth_map2_app by (rewrite !length_map; exact L).
  destruct bidir; [|reflexivity]. simpl in Hn.
  unfold cat_dim1. apply map2_app.
  assert (Len : forall k, (k < length f1)%nat -> length (nth k (map fst f1) []) = b1).
  { intros k Hk. rewrite Forall_forall in F.
    assert (I : In (nth k f1 ([], [])) f1) by (apply nth_In; exact Hk).
    change (@nil vec) with (fst (@nil vec, @nil vec)). rewrite map_nth.
    destruct (F _ I) as [[Lf _] _]. exact Lf. }
  rewrite !Len by lia. reflexivity.
Qed.

End BatchAxis.

(** X8: In inference mode the samples of a batch do not influence each other:
    the logits of two batches put one after the other are the logits of the
    first followed by the logits of the second. *)
Theorem inference_batch_independent (G : Generator) (c : Config) (g : rng)
    (x1 x2 : list (list Z)) (b1 b2 s : nat) (g1 : rng) :
  accepted_config c ->
  valid_input (vocab_size c) x1 b1 s -> valid_input (vocab_size c) x2 b2 s ->
  exists m g0,
    construct c g = Ok (m, g0)
    /\ exists l1 l2,
         LSTMClassifier.forward (LSTMClassifier.eval m) x1 g1 = Ok (l1, g1)
         /\ LSTMClassifier.forward (LSTMClassifier.eval m) x2 g1 = Ok (l2, g1)
         /\ LSTMClassifier.forward (LSTMClassifier.eval m) (x1 ++ x2) g1
            = Ok (l1 ++ l2, g1).
Proof.
  intros A V1 V2. destruct (construct_total c g A) as (m & g0 & E).
  exists m, g0. split; [exact E|]. apply construct_built in E.
  assert (V12 : valid_input (vocab_size c) (x1 ++ x2) (b1 + b2) s).
  { destruct V1 as (L1 & Hs & F1). destruct V2 as (L2 & _ & F2).
    unfold valid_input. rewrite length_app. repeat split; [lia | exact Hs|].
    apply Forall_app. split; assumption. }
  assert (Pure : forall x b, valid_input (vocab_size c) x b s ->
    exists out fins,
      LSTM.run_stack (Z.to_nat (hidden_dim c)) (LSTM.dropout (LSTMClassifier.lstm m))
        false (LSTM.all_weights (LSTMClassifier.lstm m))
        (repeat (zero_state b (Z.to_nat (hidden_dim c)))
           (Z.to_nat (num_layers c) * LSTM.num_directions (bidirectional c)))
        (map (map (fun i => row (Embedding.weight (LSTMClassifier.embedding m))
                                (Z.to_nat i))) x) g1 = Ok ((out, fins), g1)
      /\ length fins
         = (LSTM.num_directions (bidirectional c) * Z.to_nat (num_layers c))%nat
      /\ Forall (state_ok b (Z.to_nat (hidden_dim c))) fins
      /\ shape3 (map (map (fun i => row (Embedding.weight (LSTMClassifier.embedding m))
                                        (Z.to_nat i))) x)
           b s (Z.to_nat (embedding_dim c))
      /\ LSTMClassifier.forward (LSTMClassifier.eval m) x g1
         = Ok (map (Linear.affine (LSTMClassifier.fc m))
                   (hidden_of (bidirectional c) (map fst fins)), g1)).
  { intros x b Vx.
    destruct (forward_spec c m false x b s g1 E Vx)
      as (embedded & g2 & out & fins & g3 & Ed & Se & Ers & Lf & Ff & _ & Ef & _).
    rewrite F_dropout_eval in Ed. inversion Ed; subst embedded g2. clear Ed.
    match type of Ers with LSTM.run_stack ?H ?p false ?ls ?hc ?i _ = _ =>
      destruct (run_stack_eval H p ls hc i) as (r & Hr) end.
    rewrite Hr in Ers. inversion Ers; subst r g3. clear Ers.
    exists out, fins. repeat split; try assumption; try apply Hr; try apply Se. }
  destruct (Pure x1 b1 V1) as (o1 & f1 & R1 & Lf1 & Ff1 & S1 & E1).
  destruct (Pure x2 b2 V2) as (o2 & f2 & R2 & Lf2 & Ff2 & S2 & E2).
  destruct (Pure (x1 ++ x2) (b1 + b2)%nat V12) as (o12 & f12 & R12 & _ & _ & _ & E12).
  eexists _, _. split; [exact E1|]. split; [exact E2|].
  rewrite E12. rewrite <- map_app. do 3 f_equal.
  destruct (built_layers c m E) as (Lok & Ll).
  destruct (b_accepted _ _ E) as (_ & _ & _ & _ & _ & HL & _).
  set (d := LSTM.num_directions (bidirectional c)) in *.
  assert (Hd : (1 <= d)%nat) by (subst d; destruct (bidirectional c); simpl; lia).
  set (H := Z.to_nat (hidden_dim c)) in *. set (n := (Z.to_nat (num_layers c) * d)%nat) in *.
  assert (R : LSTM.run_stack H (LSTM.dropout (LSTMClassifier.lstm m)) false
                (LSTM.all_weights (LSTMClassifier.lstm m))
                (map2 state_app (repeat (zero_state b1 H) n) (repeat (zero_state b2 H) n))
                (map (map (fun i => row (Embedding.weight (LSTMClassifier.embedding m))
                                        (Z.to_nat i))) x1
                 ++ map (map (fun i => row (Embedding.weight (LSTMClassifier.embedding m))
                                           (Z.to_nat i))) x2) g1
              = Ok ((o1 ++ o2, map2 state_app f1 f2), g1)).
  { eapply (run_stack_app H d b1); [exact Lok | exact Hd | | | | exact (proj1 S1)
                                   | exact R1 | exact R2].
    - rewrite repeat_length, Ll. subst n. lia.
    - now rewrite !repeat_length.
    - apply Forall_forall. intros hc Hin. apply repeat_spec in Hin. subst hc.
      apply zero_state_ok. }
  rewrite map2_repeat, zero_state_app, <- map_app in R.
  rewrite R12 in R. inversion R; subst f12.
  apply hidden_of_app with (b1 := b1) (H := H); [congruence | | exact Ff1].
  rewrite Lf1. assert (1 <= Z.to_nat (num_layers c))%nat by lia. nia.
Qed.

Lemma inference_batch_independent_witness :
  exists m g0,
    @construct counter_generator cfg_small_bidirectional 0%nat = Ok (m, g0)
    /\ exists l1 l2,
         @LSTMClassifier.forward counter_generator (LSTMClassifier.eval m)
           [[1; 2; 3]]%Z 0%nat = Ok (l1, 0%nat)
         /\ @LSTMClassifier.forward counter_generator (LSTMClassifier.eval m)
              [[4; 0; 7]; [5; 5; 6]]%Z 0%nat = Ok (l2, 0%nat)
         /\ @LSTMClassifier.forward counter_generator (LSTMClassifier.eval m)
              ([[1; 2; 3]] ++ [[4; 0; 7]; [5; 5; 6]])%Z 0%nat = Ok (l1 ++ l2, 0%nat).
Proof.
  refine (inference_batch_independent counter_generator cfg_small_bidirectional 0%nat
            [[1; 2; 3]]%Z [[4; 0; 7]; [5; 5; 6]]%Z 1 2 3 0%nat _ _ _).
  - unfold accepted_config; simpl. repeat split; try lia; reflexivity.
  - unfold valid_input; simpl.
    repeat (first [apply Forall_cons | apply Forall_nil | split | reflexivity | lia]).
  - unfold valid_input; simpl.
    repeat (first [apply Forall_cons | apply Forall_nil | split | reflexivity | lia]).
Defined.

(* ================================================================== *)
(** * Further properties: arguments that the forward pass does not see *)

Section UnseenArguments.
Context {G : Generator}.

Lemma xavier_shape_only (t t' : Tensor) g :
  shape t = shape t' -> xavier_uniform_ t g = xavier_uniform_ t' g.
Proof.
  intros E.
  unfold xavier_uniform_, _calculate_fan_in_and_fan_out, uniform_, dim, size.
  rewrite E. reflexivity.
Qed.

(** The padding index decides which row [nn.Embedding] zeroes; the shape
    of the table and the draws made do not depend on it. *)
Lemma Embedding_init_padding V E pad pad' g e g1 e' g1' :
  Embedding.__init__ V E pad g = Ok (e, g1) ->
  Embedding.__init__ V E pad' g = Ok (e', g1') ->
  g1' = g1 /\ shape (Embedding.weight e') = shape (Embedding.weight e)
  /\ Embedding.num_embeddings e' = Embedding.num_embeddings e
  /\ Embedding.embedding_dim e' = Embedding.embedding_dim e.
Proof.
  intros H H'.
  pose proof (Embedding_init_inv _ _ _ _ _ _ H) as (N & D & _ & S & _).
  pose proof (Embedding_init_inv _ _ _ _ _ _ H') as (N' & D' & _ & S' & _).
  split; [|repeat split; congruence].
  unfold Embedding.__init__ in H, H'.
  apply bind_inv in H as (p & ga & Hp & H).
  apply bind_inv in H as (w0 & gb & H0 & H). apply lift_inv in H0 as [H0 ->].
  apply bind_inv in H as (w1 & gc & H1 & H).
  apply bind_inv in H as (w2 & gd & H2 & H). apply lift_inv in H2 as [H2 ->].
  apply ret_inv in H as [_ ->].
  apply bind_inv in H' as (p' & ga' & Hp' & H').
  apply bind_inv in H' as (w0' & gb' & H0' & H'). apply lift_inv in H0' as [H0' ->].
  apply bind_inv in H' as (w1' & gc' & H1' & H').
  apply bind_inv in H' as (w2' & gd' & H2' & H'). apply lift_inv in H2' as [H2' ->].
  apply ret_inv in H' as [_ ->].
  assert (Ea : ga = g).
  { destruct (pad >? 0)%Z; [destruct (pad <? V)%Z|
      destruct (pad <? 0)%Z; [destruct (pad >=? - V)%Z|]];
      try discriminate Hp; apply ret_inv in Hp as [_ ->]; reflexivity. }
  assert (Ea' : ga' = g).
  { destruct (pad' >? 0)%Z; [destruct (pad' <? V)%Z|
      destruct (pad' <? 0)%Z; [destruct (pad' >=? - V)%Z|]];
      try discriminate Hp'; apply ret_inv in Hp' as [_ ->]; reflexivity. }
  subst ga ga'. rewrite H0 in H0'. inversion H0'; subst w0'.
  rewrite H1 in H1'. inversion H1'. reflexivity.
Qed.

Lemma LSTM_init_dropout i h L q q' b g l g' :
  LSTM.__init__ i h L q b g = Ok (l, g') ->
  Qle_bool 0 q' = true -> Qle_bool q' 1 = true ->
  LSTM.__init__ i h L q' b g
  = Ok (LSTM.mk (LSTM.input_size l) (LSTM.hidden_size l) (LSTM.num_layers l) q'
                (LSTM.bidirectional l) (LSTM.all_weights l), g').
Proof.
  unfold LSTM.__init__. intros H P0 P1. rewrite P0, P1. cbn [andb negb].
  destruct (negb (Qle_bool 0 q && Qle_bool q 1)); [discriminate|].
  destruct (h <=? 0)%Z; [discriminate|]. destruct (L <=? 0)%Z; [discriminate|].
  apply bind_inv in H as (ws0 & ga & H0 & H).
  apply bind_inv in H as (ws & gb & H1 & H). apply ret_inv in H as [-> ->].
  erewrite bind_ok by exact H0. erewrite bind_ok by exact H1. reflexivity.
Qed.

Lemma run_stack_eval_rate H p p' : forall layers hc0 input g,
  LSTM.run_stack H p false layers hc0 input g
  = LSTM.run_stack H p' false layers hc0 input g.
Proof.
  induction layers as [|layer rest IH]; intros hc0 input g; [reflexivity|].
  cbn [LSTM.run_stack].
  destruct (LSTM.run_layer H layer (firstn (length layer) hc0) input) as [out fin].
  apply bind_cong; [destruct rest; reflexivity|].
  intros o g1. apply bind_cong; [apply IH | reflexivity].
Qed.

(** [forward] reads the embedding table, the encoder, the projection, the
    dropout module and the mode, and nothing else. *)
Lemma forward_reads (m m' : LSTMClassifier.t) tr x g :
  Embedding.weight (LSTMClassifier.embedding m')
  = Embedding.weight (LSTMClassifier.embedding m) ->
  LSTMClassifier.lstm m' = LSTMClassifier.lstm m ->
  LSTMClassifier.fc m' = LSTMClassifier.fc m ->
  LSTMClassifier.dropout m' = LSTMClassifier.dropout m ->
  LSTMClassifier.forward (set_mode tr m') x g
  = LSTMClassifier.forward (set_mode tr m) x g.
Proof.
  intros Ew El Ef Ed. unfold set_mode, LSTMClassifier.forward.
  destruct tr;
    cbn [LSTMClassifier.train LSTMClassifier.eval LSTMClassifier.embedding
         LSTMClassifier.lstm LSTMClassifier.fc LSTMClassifier.dropout
         LSTMClassifier.training];
    unfold Embedding.forward, Embedding.lookup; rewrite Ew, El, Ef, Ed; reflexivity.
Qed.

Lemma construct_padding (c : Config) (pad' : Z) g m g0 :
  construct c g = Ok (m, g0) ->
  (- vocab_size c <= pad' < vocab_size c)%Z ->
  exists m',
    construct (with_padding_idx c pad') g = Ok (m', g0)
    /\ Embedding.weight (LSTMClassifier.embedding m')
       = Embedding.weight (LSTMClassifier.embedding m)
    /\ LSTMClassifier.lstm m' = LSTMClassifier.lstm m
    /\ LSTMClassifier.fc m' = LSTMClassifier.fc m
    /\ LSTMClassifier.dropout m' = LSTMClassifier.dropout m.
Proof.
  intros H Hp.
  unfold construct, with_padding_idx, LSTMClassifier.__init__ in *.
  cbn [vocab_size embedding_dim hidden_dim output_dim padding_idx bidirectional
       num_layers dropout_rate].
  apply bind_inv in H as (e & g1 & He & H).
  apply bind_inv in H as (l & g2 & Hl & H).
  apply bind_inv in H as (f & g3 & Hf & H).
  apply bind_inv in H as (d & g4 & Hd & H). apply lift_inv in Hd as [Hd ->].
  pose proof (Embedding_init_inv _ _ _ _ _ _ He) as (_ & _ & _ & _ & _ & HV & HE & _).
  destruct (Embedding_init_total (vocab_size c) (embedding_dim c) pad' g HV HE Hp)
    as (e' & g1' & He').
  destruct (Embedding_init_padding _ _ _ _ _ _ _ _ _ He He') as (-> & Sh & En & Ed).
  erewrite bind_ok by exact He'. erewrite bind_ok by exact Hl.
  erewrite bind_ok by exact Hf. unfold bind at 1, lift at 1. rewrite Hd.
  unfold LSTMClassifier._init_weights, LSTMClassifier.for_named_parameters in *.
  cbn [LSTMClassifier.embedding LSTMClassifier.lstm LSTMClassifier.fc
       LSTMClassifier.dropout LSTMClassifier.training] in *.
  apply bind_inv in H as (ew & ga & H1 & H).
  apply bind_inv in H as (lps & gb & H2 & H).
  apply bind_inv in H as (cw & gc & H3 & H).
  apply bind_inv in H as (cb & gd & H4 & H). apply ret_inv in H as [-> ->].
  assert (H1' : LSTMClassifier.init_param "embedding.weight" (Embedding.weight e') g3
                = Ok (ew, ga)).
  { rewrite <- H1. unfold LSTMClassifier.init_param.
    change (contains "weight" "embedding.weight") with true. cbv iota.
    now apply xavier_shape_only. }
  erewrite bind_ok by exact H1'. erewrite bind_ok by exact H2.
  erewrite bind_ok by exact H3. erewrite bind_ok by exact H4.
  eexists. split; [reflexivity|]. cbn. auto.
Qed.

Lemma construct_dropout (c : Config) (p' : Q) g m g0 :
  construct c g = Ok (m, g0) ->
  Qle_bool 0 p' = true -> Qle_bool p' 1 = true ->
  exists m',
    construct (with_dropout_rate c p') g = Ok (m', g0)
    /\ LSTMClassifier.embedding m' = LSTMClassifier.embedding m
    /\ LSTM.input_size (LSTMClassifier.lstm m') = LSTM.input_size (LSTMClassifier.lstm m)
    /\ LSTM.hidden_size (LSTMClassifier.lstm m')
       = LSTM.hidden_size (LSTMClassifier.lstm m)
    /\ LSTM.num_layers (LSTMClassifier.lstm m') = LSTM.num_layers (LSTMClassifier.lstm m)
    /\ LSTM.bidirectional (LSTMClassifier.lstm m')
       = LSTM.bidirectional (LSTMClassifier.lstm m)
    /\ LSTM.all_weights (LSTMClassifier.lstm m')
       = LSTM.all_weights (LSTMClassifier.lstm m)
    /\ LSTMClassifier.fc m' = LSTMClassifier.fc m.
Proof.
  intros H P0 P1.
  unfold construct, with_dropout_rate, LSTMClassifier.__init__ in *.
  cbn [vocab_size embedding_dim hidden_dim output_dim padding_idx bidirectional
       num_layers dropout_rate].
  apply bind_inv in H as (e & g1 & He & H).
  apply bind_inv in H as (l & g2 & Hl & H).
  apply bind_inv in H as (f & g3 & Hf & H).
  apply bind_inv in H as (d & g4 & Hd & H). apply lift_inv in Hd as [Hd ->].
  erewrite bind_ok by exact He.
  erewrite bind_ok
    by (apply (LSTM_init_dropout _ _ _ _
                 (if (num_layers c >? 1)%Z then p' else 0%Q) _ _ _ _ Hl);
        destruct (num_layers c >? 1)%Z; auto).
  erewrite bind_ok by exact Hf.
  unfold bind at 1, lift at 1, Dropout.__init__. rewrite P0, P1. cbn [negb orb].
  unfold LSTMClassifier._init_weights, LSTMClassifier.for_named_parameters in *.
  cbn [LSTMClassifier.embedding LSTMClassifier.lstm LSTMClassifier.fc
       LSTMClassifier.dropout LSTMClassifier.training
       LSTM.input_size LSTM.hidden_size LSTM.num_layers LSTM.dropout
       LSTM.bidirectional LSTM.all_weights] in *.
  apply bind_inv in H as (ew & ga & H1 & H).
  apply bind_inv in H as (lps & gb & H2 & H).
  apply bind_inv in H as (cw & gc & H3 & H).
  apply bind_inv in H as (cb & gd & H4 & H). apply ret_inv in H as [-> ->].
  erewrite bind_ok by exact H1. erewrite bind_ok by exact H2.
  erewrite bind_ok by exact H3. erewrite bind_ok by exact H4.
  eexists. split; [reflexivity|]. cbn. repeat split; reflexivity.
Qed.

End UnseenArguments.

(** X9: The padding index has no influence on what the model computes: two
    models built from the same generator state with configurations that
    differ in [padding_idx] only give the same result on every input, in
    either mode. *)
Theorem padding_idx_unseen_by_forward (G : Generator) (c : Config) (pad' : Z)
    (g : rng) :
  accepted_config c -> (- vocab_size c <= pad' < vocab_size c)%Z ->
  exists m m' g0,
    construct c g = Ok (m, g0)
    /\ construct (with_padding_idx c pad') g = Ok (m', g0)
    /\ forall tr x g1,
         LSTMClassifier.forward (set_mode tr m') x g1
         = LSTMClassifier.forward (set_mode tr m) x g1.
Proof.
  intros A Hp. destruct (construct_total c g A) as (m & g0 & E).
  destruct (construct_padding c pad' g m g0 E Hp) as (m' & E' & Ew & El & Ef & Ed).
  exists m, m', g0. repeat split; [exact E | exact E'|].
  intros tr x g1. now apply forward_reads.
Qed.

Lemma padding_idx_unseen_by_forward_witness :
  exists m m' g0,
    @construct counter_generator cfg_small 0%nat = Ok (m, g0)
    /\ @construct counter_generator (with_padding_idx cfg_small 7) 0%nat = Ok (m', g0)
    /\ forall tr x (g1 : nat),
         @LSTMClassifier.forward counter_generator (set_mode tr m') x g1
         = @LSTMClassifier.forward counter_generator (set_mode tr m) x g1.
Proof.
  refine (padding_idx_unseen_by_forward counter_generator cfg_small 7 0%nat _ _).
  - unfold accepted_config; simpl. repeat split; try lia; reflexivity.
  - simpl. lia.
Defined.

(** X10: In inference mode the dropout probability plays no role: two models
    built from the same generator state with configurations that differ in
    [dropout_rate] only give the same result on every input. *)
Theorem dropout_rate_unseen_at_inference (G : Generator) (c : Config) (p' : Q)
    (g : rng) :
  accepted_config c -> Qle_bool 0 p' = true -> Qle_bool p' 1 = true ->
  exists m m' g0,
    construct c g = Ok (m, g0)
    /\ construct (with_dropout_rate c p') g = Ok (m', g0)
    /\ forall x g1,
         LSTMClassifier.forward (LSTMClassifier.eval m') x g1
         = LSTMClassifier.forward (LSTMClassifier.eval m) x g1.
Proof.
  intros A P0 P1. destruct (construct_total c g A) as (m & g0 & E).
  destruct (construct_dropout c p' g m g0 E P0 P1)
    as (m' & E' & Ee & Ei & Eh & En & Eb & Ew & Ef).
  exists m, m', g0. repeat split; [exact E | exact E'|].
  intros x g1. unfold LSTMClassifier.forward.
  cbn [LSTMClassifier.eval LSTMClassifier.embedding LSTMClassifier.lstm
       LSTMClassifier.fc LSTMClassifier.dropout LSTMClassifier.training].
  rewrite Ee, Ef, Eb. apply bind_cong; [reflexivity|]. intros emb g2.
  apply bind_cong; [reflexivity|]. intros emb' g3.
  apply bind_cong; [|reflexivity].
  unfold LSTM.forward. rewrite Ei, Eh, En, Eb, Ew.
  destruct (negb (forallb _ emb')); [reflexivity|].
  destruct (existsb _ emb'); [reflexivity|].
  apply bind_cong; [apply run_stack_eval_rate | reflexivity].
Qed.

Lemma dropout_rate_unseen_at_inference_witness :
  exists m m' g0,
    @construct counter_generator cfg_small 0%nat = Ok (m, g0)
    /\ @construct counter_generator (with_dropout_rate cfg_small (9 # 10)) 0%nat
       = Ok (m', g0)
    /\ forall x (g1 : nat),
         @LSTMClassifier.forward counter_generator (LSTMClassifier.eval m') x g1
         = @LSTMClassifier.forward counter_generator (LSTMClassifier.eval m) x g1.
Proof.
  refine (dropout_rate_unseen_at_inference counter_generator cfg_small (9 # 10) 0%nat
            _ _ _).
  - unfold accepted_config; simpl. repeat split; try lia; reflexivity.
  - reflexivity.
  - reflexivity.
Defined.

(* ================================================================== *)
(** * Further properties of [_init_weights]: a full reset *)

Section FullReset.
Context {G : Generator}.

Lemma mapM_related {A B S} (f : A -> M B) (h : A -> S) : forall la lb g,
  (forall a b g0, In a la -> h a = h b -> f a g0 = f b g0) ->
  map h la = map h lb -> mapM f la g = mapM f lb g.
Proof.
  induction la as [|a la IH]; intros [|b lb] g Hf E; simpl in E; try discriminate;
    [reflexivity|].
  injection E as E1 E2. cbn [mapM].
  apply bind_cong; [apply Hf; [left; reflexivity | exact E1]|].
  intros x g1. apply bind_cong; [|reflexivity].
  apply IH; [|exact E2]. intros a' b' g0 Hin. apply Hf. right. exact Hin.
Qed.

(** On a parameter named as a weight or as a bias, the loop body looks at
    the shape of the tensor only, not at what it holds. *)
Lemma init_param_shape_only name (t t' : Tensor) g :
  weight_name name \/ bias_name name -> shape t = shape t' ->
  LSTMClassifier.init_param name t g = LSTMClassifier.init_param name t' g.
Proof.
  intros [[W _]|[W B]] E; unfold LSTMClassifier.init_param; rewrite W.
  - now apply xavier_shape_only.
  - rewrite B. unfold zeros_. rewrite E. reflexivity.
Qed.

(** Run on two freshly built models of one configuration from the same
    generator state, [_init_weights] does the same thing. *)
Lemma init_weights_built (c : Config) (ma mb : LSTMClassifier.t) g :
  built c ma -> built c mb ->
  LSTMClassifier._init_weights mb g = LSTMClassifier._init_weights ma g.
Proof.
  intros Ba Bb.
  assert (Ed : LSTMClassifier.dropout mb = LSTMClassifier.dropout ma).
  { pose proof (b_drop _ _ Ba) as Pa. pose proof (b_drop _ _ Bb) as Pb.
    destruct (LSTMClassifier.dropout ma), (LSTMClassifier.dropout mb).
    cbn [Dropout.p] in Pa, Pb. congruence. }
  unfold LSTMClassifier._init_weights, LSTMClassifier.for_named_parameters.
  cbv zeta.
  rewrite Ed, (b_training _ _ Ba), (b_training _ _ Bb).
  rewrite (b_emb_num _ _ Ba), (b_emb_num _ _ Bb), (b_emb_dim _ _ Ba), (b_emb_dim _ _ Bb),
    (b_emb_pad _ _ Ba), (b_emb_pad _ _ Bb).
  rewrite (b_lstm_input _ _ Ba), (b_lstm_input _ _ Bb), (b_lstm_hidden _ _ Ba),
    (b_lstm_hidden _ _ Bb), (b_lstm_layers _ _ Ba), (b_lstm_layers _ _ Bb),
    (b_lstm_dropout _ _ Ba), (b_lstm_dropout _ _ Bb), (b_lstm_bidir _ _ Ba),
    (b_lstm_bidir _ _ Bb).
  rewrite (b_fc_in _ _ Ba), (b_fc_in _ _ Bb), (b_fc_out _ _ Ba), (b_fc_out _ _ Bb).
  apply bind_cong.
  { apply init_param_shape_only; [left; apply embedding_weight_name|].
    rewrite (b_emb_shape _ _ Ba). apply (b_emb_shape _ _ Bb). }
  intros ew g1. apply bind_cong.
  { apply mapM_related with (h := map (map sig_of));
      [|rewrite (b_lstm_sig _ _ Ba); apply (b_lstm_sig _ _ Bb)].
    intros la lb g2 Hla El.
    apply mapM_related with (h := map sig_of); [|exact El].
    intros pa pb g3 Hpa Ep.
    apply mapM_related with (h := sig_of); [|exact Ep].
    intros nt nt' g4 Hnt En. unfold sig_of in En. injection En as En Es.
    pose proof (b_lstm_init _ _ Bb) as I. unfold Forall3 in I.
    rewrite Forall_forall in I. specialize (I la Hla).
    rewrite Forall_forall in I. specialize (I pa Hpa).
    rewrite Forall_forall in I. specialize (I nt Hnt).
    destruct I as (_ & I). rewrite <- En.
    apply bind_cong; [|reflexivity].
    apply init_param_shape_only; [|exact Es]. tauto. }
  intros lps g2. apply bind_cong.
  { apply init_param_shape_only; [left; apply fc_weight_name|].
    rewrite (b_fc_wshape _ _ Ba). apply (b_fc_wshape _ _ Bb). }
  intros cw g3. apply bind_cong; [|reflexivity].
  apply init_param_shape_only; [right; apply fc_bias_name|].
  rewrite (b_fc_bshape _ _ Ba). apply (b_fc_bshape _ _ Bb).
Qed.

End FullReset.

(** X3: [_init_weights] overwrites every parameter.  Two models of one
    configuration built from different generator states, hence holding
    different values, are the same model once [_init_weights] has been run on
    each from one generator state: what it leaves depends on the shapes and
    on the generator, not on what the tensors held. *)
Theorem init_weights_resets_parameters (G : Generator) (c : Config)
    (ga gb g : rng) :
  accepted_config c ->
  exists ma mb ga' gb' m' g',
    construct c ga = Ok (ma, ga') /\ construct c gb = Ok (mb, gb')
    /\ LSTMClassifier._init_weights ma g = Ok (m', g')
    /\ LSTMClassifier._init_weights mb g = Ok (m', g').
Proof.
  intros A.
  destruct (construct_total c ga A) as (ma & ga' & Ea).
  destruct (construct_total c gb A) as (mb & gb' & Eb).
  pose proof (construct_built _ _ _ _ Ea) as Ba.
  pose proof (construct_built _ _ _ _ Eb) as Bb.
  destruct (b_accepted _ _ Ba) as (HV & HE & HH & HO & _).
  destruct (init_weights_total ma g) as (m' & g' & E').
  - exists (Z.to_nat (vocab_size c)), (Z.to_nat (embedding_dim c)).
    split; [apply (b_emb_shape _ _ Ba) | lia].
  - pose proof (lstm_sig_ready (embedding_dim c) (hidden_dim c) (num_layers c)
                  (bidirectional c) HH) as R.
    rewrite <- (b_lstm_sig _ _ Ba) in R. unfold Forall3 in *.
    rewrite !Forall_map in R. eapply Forall_impl; [|exact R].
    intros l Hl. rewrite Forall_map in Hl. eapply Forall_impl; [|exact Hl].
    intros p Hp. rewrite Forall_map in Hp. exact Hp.
  - exists (Z.to_nat (output_dim c)), (Z.to_nat (lstm_output_dim c)).
    split; [apply (b_fc_wshape _ _ Ba)|].
    unfold lstm_output_dim. destruct (bidirectional c); lia.
  - exists ma, mb, ga', gb', m', g'. repeat split; try assumption.
    rewrite (init_weights_built c ma mb g Ba Bb). exact E'.
Qed.

Lemma init_weights_resets_parameters_witness :
  exists ma mb ga' gb' m' g',
    @construct counter_generator cfg_small_bidirectional 0%nat = Ok (ma, ga')
    /\ @construct counter_generator cfg_small_bidirectional 1%nat = Ok (mb, gb')
    /\ @LSTMClassifier._init_weights counter_generator ma 2%nat = Ok (m', g')
    /\ @LSTMClassifier._init_weights counter_generator mb 2%nat = Ok (m', g').
Proof.
  refine (init_weights_resets_parameters counter_generator cfg_small_bidirectional
            0%nat 1%nat 2%nat _).
  unfold accepted_config; simpl. repeat split; try lia; reflexivity.
Defined.
